(** * Meter share calculator: the bill-allocation engine and the reading store

    A shallow embedding of [src/components/MeterCalculator.tsx].

    - JavaScript numbers are IEEE 754 binary64 values.  They are modelled by
      [spec_float] of the standard library with precision 53 and maximal
      exponent 1024; [+], [-], [*] and [/] are [SFadd], [SFsub], [SFmul] and
      [SFdiv], which round to nearest, ties to even.
    - [Number.prototype.toFixed(2)] and [parseFloat] follow ECMA-262.
    - JavaScript strings are sequences of UTF-16 code units.
    - The component's [useState] cells and the toasts it raises are fields of
      an explicit [State] record that every handler takes and returns.
    - What comes from outside the component is an argument: the value of
      [Date.now()], the number [parseFloat] makes of the text of an input
      field, the date string of an export. *)

From Stdlib Require Import String Ascii ZArith NArith List Bool Lia.
From Stdlib Require Import DecimalString.
From Stdlib Require DecimalZ.
From Stdlib Require Import Floats.SpecFloat.
From Stdlib Require Import Reals Lra.
Import ListNotations.

Local Open Scope Z_scope.

(** ** JavaScript numbers *)

Module Num.

Definition prec : Z := 53.
Definition emax : Z := 1024.

Definition number : Type := spec_float.

Definition add : number -> number -> number := SFadd prec emax.
Definition sub : number -> number -> number := SFsub prec emax.
Definition mul : number -> number -> number := SFmul prec emax.
Definition div : number -> number -> number := SFdiv prec emax.

Definition zero : number := S754_zero false.

(** The Number value of a mathematical integer (an array length, the
    literal [100]). *)
Definition ofZ (z : Z) : number := binary_normalize prec emax z 0 false.

(** The Number value of the decimal literal [n / 10^k], as [97.87] is
    [literal 9787 2]: the binary64 value nearest to it. *)
Definition literal (n : Z) (k : nat) : number :=
  match n with
  | Z0 => zero
  | Zpos p => div (S754_finite false p 0) (S754_finite false (Z.to_pos (10 ^ Z.of_nat k)) 0)
  | Zneg p => div (S754_finite true p 0) (S754_finite false (Z.to_pos (10 ^ Z.of_nat k)) 0)
  end.

(** [Number.isFinite]. *)
Definition is_finite (x : number) : bool :=
  match x with
  | S754_zero _ | S754_finite _ _ _ => true
  | _ => false
  end.

Definition is_zero (x : number) : bool :=
  match x with S754_zero _ => true | _ => false end.

(** The sign bit: set on [-0] too. *)
Definition signbit (x : number) : bool :=
  match x with
  | S754_zero s | S754_infinity s | S754_finite s _ _ => s
  | S754_nan => false
  end.

(** [x < y] and [x <= y] of JavaScript: false as soon as a side is NaN. *)
Definition ltb : number -> number -> bool := SFltb.
Definition leb : number -> number -> bool := SFleb.

(** *** [toFixed(2)]

    The result of [x.toFixed(2)] is a string of one of four shapes. *)
Inductive fixed : Type :=
| FixedNaN                          (* "NaN" *)
| FixedInfinity (neg : bool)        (* "Infinity", "-Infinity" *)
| FixedPoint (neg : bool) (n : N)   (* sign, the digits of n, a point before the last two *)
| FixedExp (x : number).            (* |x| >= 1e21: the digits of Number::toString *)

(** [10^21 <= m * 2^e]. *)
Definition ge_1e21 (m : positive) (e : Z) : bool :=
  if 0 <=? e then 10 ^ 21 <=? Zpos m * 2 ^ e
  else 10 ^ 21 * 2 ^ (- e) <=? Zpos m.

(** The integer [n] for which [n / 100 - m * 2^e] is as close to zero as
    possible, the larger one if there are two. *)
Definition hundredths (m : positive) (e : Z) : Z :=
  if 0 <=? e then Zpos m * 2 ^ e * 100
  else (200 * Zpos m + 2 ^ (- e)) / 2 ^ (1 - e).

Definition toFixed2 (x : number) : fixed :=
  match x with
  | S754_nan => FixedNaN
  | S754_infinity s => FixedInfinity s
  | S754_zero _ => FixedPoint false 0
  | S754_finite s m e =>
      if ge_1e21 m e then FixedExp x
      else FixedPoint s (Z.to_N (hundredths m e))
  end.

(** *** [parseFloat] on the strings [toFixed] produces *)
Definition parseFloat (f : fixed) : number :=
  match f with
  | FixedNaN => S754_nan
  | FixedInfinity s => S754_infinity s
  | FixedPoint s N0 => S754_zero s
  | FixedPoint s (Npos n) => div (S754_finite s n 0) (S754_finite false 100 0)
  | FixedExp x => x
  end.

(** [parseFloat(x.toFixed(2))], the rounding the component applies. *)
Definition round2 (x : number) : number := parseFloat (toFixed2 x).

End Num.

Import Num.

(** ** JavaScript strings *)

Definition jsstring : Type := list N.

Definition js (s : string) : jsstring :=
  map N_of_ascii (list_ascii_of_string s).

(** [String.fromCharCode(n)]: one code unit, [n] modulo 2^16. *)
Definition fromCharCode (n : N) : jsstring := [N.modulo n 65536].

(** [n.toString()] for an integer [n] (below 1e21 in absolute value). *)
Definition toString (n : Z) : jsstring :=
  js (NilEmpty.string_of_int (Z.to_int n)).

(** [a === b] on strings. *)
Definition str_eqb (a b : jsstring) : bool :=
  if list_eq_dec N.eq_dec a b then true else false.

(** ** Data model *)

Record TenantReading : Type := mkReading {
  id : jsstring;
  name : jsstring;
  previous : number;
  current : number
}.

Record CalculationResult : Type := mkResult {
  r_name : jsstring;
  r_used : number;
  r_bonus : number;
  r_finalUnits : number;
  r_bill : number;
  r_percentage : number
}.

(** An element of the [usage] array: [{ ...r, used }]. *)
Record UsageRow : Type := mkUsage {
  reading : TenantReading;
  used : number
}.

Record Toast : Type := mkToast {
  title : string;
  description : string;
  variant : string
}.

(** The component's state: the three [useState] cells, and the toasts raised
    so far, oldest first. *)
Record State : Type := mkState {
  readings : list TenantReading;
  totalUnits : number;
  totalAmount : number;
  toasts : list Toast
}.

Definition setReadings (rs : list TenantReading) (st : State) : State :=
  mkState rs (totalUnits st) (totalAmount st) (toasts st).

Definition toast (t : Toast) (st : State) : State :=
  mkState (readings st) (totalUnits st) (totalAmount st) (toasts st ++ [t]).

(** The initial state of the component. *)
Definition initialState : State :=
  mkState
    [ mkReading (js "1") (js "Tenant A") (literal 9787 2) (literal 12695 2);
      mkReading (js "2") (js "Tenant B") (literal 1553 1) (literal 1754 1) ]
    (literal 528 1)
    (ofZ 12000)
    [].

(** ** Reading store operations *)

(** [addTenant], with [now] the value [Date.now()] returns. *)
Definition addTenant (now : Z) (st : State) : State :=
  let newId := toString now in
  setReadings
    (readings st ++
       [ mkReading newId
           (js "Tenant " ++ fromCharCode (65 + N.of_nat (length (readings st))))
           zero zero ])
    st.

Definition cannotRemove : Toast :=
  mkToast "Cannot remove tenant" "At least one tenant is required." "destructive".

Definition removeTenant (i : jsstring) (st : State) : State :=
  if (1 <? length (readings st))%nat then
    setReadings (filter (fun r => negb (str_eqb (id r) i)) (readings st)) st
  else
    toast cannotRemove st.

(** A field of [TenantReading] together with a value of the field's type:
    the well-typed calls [updateReading(id, field, value)]. *)
Inductive FieldValue : Type :=
| SetId (v : jsstring)
| SetName (v : jsstring)
| SetPrevious (v : number)
| SetCurrent (v : number).

(** [{ ...r, [field]: value }]. *)
Definition setField (fv : FieldValue) (r : TenantReading) : TenantReading :=
  match fv with
  | SetId v => mkReading v (name r) (previous r) (current r)
  | SetName v => mkReading (id r) v (previous r) (current r)
  | SetPrevious v => mkReading (id r) (name r) v (current r)
  | SetCurrent v => mkReading (id r) (name r) (previous r) v
  end.

Definition updateReading (i : jsstring) (fv : FieldValue) (st : State) : State :=
  setReadings
    (map (fun r => if str_eqb (id r) i then setField fv r else r) (readings st))
    st.

(** ** The allocation engine *)

Definition unitPrice (st : State) : number :=
  div (totalAmount st) (totalUnits st).

Definition usage (st : State) : list UsageRow :=
  map (fun r => mkUsage r (round2 (sub (current r) (previous r)))) (readings st).

Definition totalUsed (st : State) : number :=
  fold_left (fun acc r => add acc (used r)) (usage st) zero.

Definition unaccounted (st : State) : number :=
  round2 (sub (totalUnits st) (totalUsed st)).

Definition bonusPerTenant (st : State) : number :=
  round2 (div (unaccounted st) (ofZ (Z.of_nat (length (usage st))))).

(** The three locals of the callback that builds a result. *)
Definition finalUnits (st : State) (r : UsageRow) : number :=
  add (used r) (bonusPerTenant st).

Definition share (st : State) (r : UsageRow) : number :=
  div (finalUnits st r) (totalUnits st).

Definition bill (st : State) (r : UsageRow) : number :=
  mul (share st r) (totalAmount st).

Definition results (st : State) : list CalculationResult :=
  map (fun r =>
         mkResult
           (name (reading r))
           (used r)
           (bonusPerTenant st)
           (round2 (finalUnits st r))
           (round2 (bill st r))
           (round2 (mul (share st r) (ofZ 100))))
      (usage st).

(** ** The real value of a number *)

(** [2^e]. *)
Definition bpow (e : Z) : R :=
  match e with
  | Zneg p => (/ IZR (Z.pow_pos 2 p))%R
  | _ => IZR (2 ^ e)
  end.

(** The real number a finite Number denotes; [0] for both zeros (and, by
    convention, for NaN and the infinities, which [is_finite] excludes). *)
Definition F2R (x : number) : R :=
  match x with
  | S754_finite s m e => (IZR (cond_Zopp s (Zpos m)) * bpow e)%R
  | _ => 0%R
  end.

Definition Rsum (l : list R) : R := fold_right Rplus 0%R l.

(** The sum over all tenants of the final units [used + bonus]. *)
Definition sumFinalUnits (st : State) : R :=
  Rsum (map F2R (map (finalUnits st) (usage st))).

(** The sum over all tenants of the final units of the result table. *)
Definition sumShownUnits (st : State) : R :=
  Rsum (map F2R (map r_finalUnits (results st))).

(** The sum over all tenants of the bill amounts of the result table. *)
Definition sumBills (st : State) : R :=
  Rsum (map F2R (map r_bill (results st))).

(** The number of tenants. *)
Definition tenants (st : State) : nat := length (readings st).

(** Pairwise distinct identities. *)
Definition uniqueIds (st : State) : Prop := NoDup (map id (readings st)).

(** A store of [n] fresh tenants, all readings 0, under the given totals. *)
Definition idleState (n : nat) (units amount : number) : State :=
  mkState
    (map (fun k => mkReading (toString (Z.of_nat k)) (js "Tenant") zero zero) (seq 1 n))
    units amount [].

(** The component's state once the total units field has been cleared: the
    handler stores [parseFloat("") || 0], which is 0. *)
Definition clearedUnits : State :=
  mkState (readings initialState) zero (totalAmount initialState) [].

Definition noResult : CalculationResult := mkResult [] zero zero zero zero zero.



(** ** Canonical numbers, signs and magnitudes *)

(** What [binary_round_aux] returns for a mantissa [m] and an exponent [e]
    once the shifts are done. *)
Definition pack (sx : bool) (m e : Z) : spec_float :=
  match m with
  | Z0 => S754_zero sx
  | Zpos p => if e <=? emax - prec then S754_finite sx p e else S754_infinity sx
  | Zneg _ => S754_nan
  end.

(** The sign as a real factor. *)
Definition Rsgn (s : bool) : R := if s then (-1)%R else 1%R.

(** A finite number in canonical form: what every binary64 value is. *)
Definition canonical (x : number) : bool :=
  is_finite x && valid_binary prec emax x.

(** The Number [parseFloat] returns on the digits of [n] hundredths. *)
Definition cents (s : bool) (n : Z) : number :=
  parseFloat (FixedPoint s (Z.to_N n)).

(** A canonical number below [2^K] in absolute value. *)
Definition small (K : Z) (x : number) : bool :=
  canonical x &&
  match x with
  | S754_finite _ m e => (Zpos (digits2_pos m) + e <=? K)%Z
  | _ => true
  end.

(** [x] is [-0], a negative number or [-Infinity]; or their positive
    counterparts. *)
Definition signed (s : bool) (x : number) : Prop :=
  x = S754_zero s \/ x = S754_infinity s \/ exists m e, x = S754_finite s m e.

(** ** The allocation algorithm in the words of the specification

    Steps 1 to 5 of the algorithm; the sum of step 2 is taken from left to
    right, starting from 0. *)

Module Spec.

(** 1. usage = current - previous, rounded to 2 decimal places. *)
Definition usage (r : TenantReading) : number :=
  round2 (sub (current r) (previous r)).

(** 2. Total metered usage = sum of all rounded per-tenant usages. *)
Definition totalMetered (rs : list TenantReading) : number :=
  fold_left add (map usage rs) zero.

(** 3. Unaccounted units = total units purchased - total metered usage,
    rounded to 2 decimals. *)
Definition unaccountedUnits (rs : list TenantReading) (units : number) : number :=
  round2 (sub units (totalMetered rs)).

(** 4. Bonus per tenant = unaccounted units / N, rounded to 2 decimals. *)
Definition bonus (rs : list TenantReading) (units : number) : number :=
  round2 (div (unaccountedUnits rs units) (ofZ (Z.of_nat (length rs)))).

(** 5. Final units per tenant = usage + bonus. *)
Definition finalUnits (rs : list TenantReading) (units : number)
    (r : TenantReading) : number :=
  add (usage r) (bonus rs units).

End Spec.

(** Three tenants who report 10 units in all against 9.99 purchased. *)
Definition overReported : State :=
  mkState
    [ mkReading (js "1") (js "Tenant A") zero (ofZ 5);
      mkReading (js "2") (js "Tenant B") zero (ofZ 5);
      mkReading (js "3") (js "Tenant C") zero zero ]
    (literal 999 2) (ofZ 12000) [].

(** ** The page: what the inputs and the buttons are wired to *)

(** [x || 0] on a number [x]: NaN and both zeros are falsy. *)
Definition orZero (x : number) : number :=
  match x with
  | S754_nan | S754_zero _ => zero
  | _ => x
  end.

(** The setters of the two bill cells. *)
Definition setTotalUnits (v : number) (st : State) : State :=
  mkState (readings st) v (totalAmount st) (toasts st).

Definition setTotalAmount (v : number) (st : State) : State :=
  mkState (readings st) (totalUnits st) v (toasts st).

(** The [onChange] handlers of the two bill fields and of the three fields
    of a row; [parsed] is [parseFloat(e.target.value)], [v] is
    [e.target.value] and [i] is the row's [reading.id]. *)
Definition onTotalUnitsChange (parsed : number) (st : State) : State :=
  setTotalUnits (orZero parsed) st.

Definition onTotalAmountChange (parsed : number) (st : State) : State :=
  setTotalAmount (orZero parsed) st.

Definition onNameChange (i v : jsstring) (st : State) : State :=
  updateReading i (SetName v) st.

Definition onPreviousChange (i : jsstring) (parsed : number) (st : State) : State :=
  updateReading i (SetPrevious (orZero parsed)) st.

Definition onCurrentChange (i : jsstring) (parsed : number) (st : State) : State :=
  updateReading i (SetCurrent (orZero parsed)) st.

(** The remove button of a row: [disabled={readings.length === 1}]. *)
Definition removeDisabled (st : State) : bool :=
  (length (readings st) =? 1)%nat.

(** A click on it; a disabled button fires no click. *)
Definition onRemoveClick (i : jsstring) (st : State) : State :=
  if removeDisabled st then st else removeTenant i st.

(** What a user can do to the store and the bill parameters. *)
Inductive Event : Type :=
| AddClick (now : Z)
| RemoveClick (i : jsstring)
| NameChange (i v : jsstring)
| PreviousChange (i : jsstring) (parsed : number)
| CurrentChange (i : jsstring) (parsed : number)
| TotalUnitsChange (parsed : number)
| TotalAmountChange (parsed : number).

Definition handle (e : Event) (st : State) : State :=
  match e with
  | AddClick now => addTenant now st
  | RemoveClick i => onRemoveClick i st
  | NameChange i v => onNameChange i v st
  | PreviousChange i parsed => onPreviousChange i parsed st
  | CurrentChange i parsed => onCurrentChange i parsed st
  | TotalUnitsChange parsed => onTotalUnitsChange parsed st
  | TotalAmountChange parsed => onTotalAmountChange parsed st
  end.

(** The state after a sequence of events, the first one first. *)
Definition run (evs : list Event) (st : State) : State :=
  fold_left (fun s e => handle e s) evs st.

(** The clock values the [AddClick] events of a sequence saw. *)
Definition clockOf (e : Event) : list Z :=
  match e with AddClick t => [t] | _ => [] end.

Definition clock (evs : list Event) : list Z := flat_map clockOf evs.

(** Neither NaN nor [-0]. *)
Definition entered (x : number) : bool :=
  match x with
  | S754_nan | S754_zero true => false
  | _ => true
  end.

Definition allEntered (st : State) : bool :=
  entered (totalUnits st) && entered (totalAmount st) &&
  forallb (fun r => entered (previous r) && entered (current r)) (readings st).

(** What holds of the page's state after any sequence of events whose clock
    values differ: the store is not empty, its identities are pairwise
    distinct, no toast was raised, and every number in it was entered. *)
Definition pageInvariant (st : State) : Prop :=
  (1 <= tenants st)%nat /\ uniqueIds st /\ toasts st = [] /\ allEntered st = true.

(** Every identity in the store is the decimal string of 1, of 2 or of one
    of the clock values [seen]. *)
Definition idsAmong (seen : list Z) (st : State) : Prop :=
  forall x, In x (map id (readings st)) ->
    exists n, In n (1 :: 2 :: seen) /\ x = toString n.

(** ** Reading the store *)

(** The first tenant of the store with the identity [i]. *)
Definition lookup (i : jsstring) (st : State) : option TenantReading :=
  find (fun r => str_eqb (id r) i) (readings st).

(** The updates the page makes: of a name or of a reading, never of an
    identity. *)
Definition keepsId (fv : FieldValue) : bool :=
  match fv with SetId _ => false | _ => true end.

Definition sameField (a b : FieldValue) : bool :=
  match a, b with
  | SetId _, SetId _ | SetName _, SetName _
  | SetPrevious _, SetPrevious _ | SetCurrent _, SetCurrent _ => true
  | _, _ => false
  end.

(** ** Reading the result table *)

(** The hundredths [x.toFixed(2)] shows, with their sign: 3089 for 30.89;
    by convention 0 when it shows NaN, an infinity or an exponent. *)
Definition shown (x : number) : Z :=
  match toFixed2 x with
  | FixedPoint s n => cond_Zopp s (Z.of_N n)
  | _ => 0
  end.

(** The two meter readings of a tenant, and the five figures of a result. *)
Definition meter (r : TenantReading) : number * number :=
  (previous r, current r).

Definition figures (r : CalculationResult) : number * number * number * number * number :=
  (r_used r, r_bonus r, r_finalUnits r, r_bill r, r_percentage r).

(** The sum over all tenants of the percentages of the result table. *)
Definition sumPercentages (st : State) : R :=
  Rsum (map F2R (map r_percentage (results st))).

(** The hundredths the used units of the result table print with, added up. *)
Definition sumShownUsed (st : State) : Z :=
  fold_right Z.add 0 (map (fun r => shown (r_used r)) (results st)).

(** [!(x < 0)]: NaN, a zero, a positive number or Infinity. *)
Definition notBelowZero (x : number) : bool := negb (ltb x zero).

(** ** The Excel export *)




(** ** Tactics *)

(** Evaluation of [F2R] on a number given by its sign, mantissa and exponent. *)
Ltac F2R_eval :=
  unfold F2R, bpow, cond_Zopp;
  repeat match goal with
    | |- context [Z.pow_pos ?a ?b] =>
        let v := eval vm_compute in (Z.pow_pos a b) in
        change (Z.pow_pos a b) with v
    | |- context [Z.pow ?a ?b] =>
        let v := eval vm_compute in (Z.pow a b) in
        change (Z.pow a b) with v
    | |- context [Z.opp (Zpos ?a)] => change (Z.opp (Zpos a)) with (Zneg a)
    end.

Ltac Rabs_case := unfold Rabs; destruct Rcase_abs; lra.

(** * The reading store *)

Section Strings.

Lemma str_eqb_true (a b : jsstring) : str_eqb a b = true <-> a = b.
Proof.
  unfold str_eqb. destruct (list_eq_dec N.eq_dec a b); split; congruence.
Qed.

Lemma js_inj (s t : string) : js s = js t -> s = t.
Proof.
  unfold js. intros H.
  rewrite <- (string_of_list_ascii_of_string s), <- (string_of_list_ascii_of_string t).
  f_equal.
  revert H. generalize (list_ascii_of_string s) (list_ascii_of_string t).
  induction l as [|a l IH]; intros [|b l'] H; simpl in H; try discriminate; auto.
  injection H as Hab Hl.
  rewrite (IH _ Hl). f_equal.
  rewrite <- (ascii_N_embedding a), <- (ascii_N_embedding b). now rewrite Hab.
Qed.

(** Two integers print to the same string only if they are equal. *)
Lemma toString_inj (a b : Z) : toString a = toString b -> a = b.
Proof.
  unfold toString. intros H. apply js_inj in H.
  apply (f_equal NilEmpty.int_of_string) in H.
  rewrite !NilEmpty.isi in H. injection H as H.
  rewrite <- (DecimalZ.of_to a), <- (DecimalZ.of_to b). now rewrite H.
Qed.

End Strings.

Section StoreLists.

Variable i : jsstring.

Lemma filter_unknown_id (l : list TenantReading) :
  ~ In i (map id l) -> filter (fun r => negb (str_eqb (id r) i)) l = l.
Proof.
  induction l as [|r l IH]; simpl; intros Hn; [reflexivity|].
  destruct (str_eqb (id r) i) eqn:E.
  - apply str_eqb_true in E. tauto.
  - simpl. f_equal. apply IH. tauto.
Qed.

Lemma map_unknown_id (f : TenantReading -> TenantReading) (l : list TenantReading) :
  ~ In i (map id l) ->
  map (fun r => if str_eqb (id r) i then f r else r) l = l.
Proof.
  induction l as [|r l IH]; simpl; intros Hn; [reflexivity|].
  destruct (str_eqb (id r) i) eqn:E.
  - apply str_eqb_true in E. tauto.
  - f_equal. apply IH. tauto.
Qed.

(** With pairwise distinct identities the filter drops at most one tenant. *)
Lemma filter_drops_at_most_one (l : list TenantReading) :
  NoDup (map id l) -> (length l <= S (length (filter (fun r => negb (str_eqb (id r) i)) l)))%nat.
Proof.
  induction l as [|r l IH]; simpl; intros Hd; [lia|].
  inversion Hd as [|? ? Hnotin Hd']; subst.
  destruct (str_eqb (id r) i) eqn:E; simpl.
  - apply str_eqb_true in E.
    rewrite filter_unknown_id; [lia | rewrite <- E; assumption].
  - specialize (IH Hd'). lia.
Qed.

End StoreLists.

(** C7. On a store that holds exactly one tenant, [removeTenant] is refused:
    the "Cannot remove tenant" toast is raised, and the readings, both bill
    parameters and the earlier toasts are what they were. *)
Theorem removeTenant_sole_refused (st : State) (i : jsstring) :
  tenants st = 1%nat ->
  removeTenant i st = toast cannotRemove st /\
  readings (removeTenant i st) = readings st /\
  totalUnits (removeTenant i st) = totalUnits st /\
  totalAmount (removeTenant i st) = totalAmount st /\
  toasts (removeTenant i st) = toasts st ++ [cannotRemove].
Proof.
  unfold tenants, removeTenant. intros H. rewrite H. simpl. auto.
Qed.

Lemma removeTenant_sole_refused_witness :
  tenants (removeTenant (js "2") initialState) = 1%nat /\
  readings (removeTenant (js "1") (removeTenant (js "2") initialState))
  = readings (removeTenant (js "2") initialState).
Proof.
  split; [reflexivity|].
  apply (removeTenant_sole_refused (removeTenant (js "2") initialState) (js "1")).
  reflexivity.
Defined.

(** C8. The store can be emptied.  Two tenants added at the same clock value
    share an identity; once they are the only two left, the length guard of
    [removeTenant] lets the removal through and the remove buttons are
    enabled, the filter takes out both, and the store is empty without the
    "Cannot remove tenant" toast having been raised. *)
Lemma store_emptied_by_remove :
  let t := 1700000000000 in
  let st := removeTenant (js "2") (removeTenant (js "1")
              (addTenant t (addTenant t initialState))) in
  (1 <= tenants st)%nat /\ tenants (removeTenant (toString t) st) = 0%nat /\
  map id (readings st) = [toString t; toString t] /\
  removeDisabled st = false /\
  readings (removeTenant (toString t) st) = [] /\
  toasts (removeTenant (toString t) st) = [].
Proof. vm_compute. split; [lia | repeat split; reflexivity]. Qed.

(** The length guard keeps one tenant in the store as long as the
    identities are pairwise distinct: from a store with at least one
    tenant, [addTenant] and [updateReading] lead to a store with at least
    one tenant, and so does [removeTenant] when no two tenants share an
    identity. *)
Lemma store_never_empty (st : State) (now : Z) (i : jsstring) (fv : FieldValue) :
  (1 <= tenants st)%nat ->
  (1 <= tenants (addTenant now st))%nat /\
  (1 <= tenants (updateReading i fv st))%nat /\
  (uniqueIds st -> (1 <= tenants (removeTenant i st))%nat).
Proof.
  unfold tenants, uniqueIds. intros H. repeat split.
  - unfold addTenant. simpl. rewrite length_app. simpl. lia.
  - unfold updateReading. simpl. now rewrite length_map.
  - intros Hd. unfold removeTenant.
    destruct (1 <? length (readings st))%nat eqn:E; simpl; [|assumption].
    apply Nat.ltb_lt in E.
    pose proof (filter_drops_at_most_one i (readings st) Hd). lia.
Qed.



(** C10. An identity that matches no tenant: [updateReading] returns the
    state it was given, and [removeTenant] leaves the readings and the bill
    parameters as they were; with more than one tenant it too returns the
    state it was given. *)
Theorem unknown_id_noop (st : State) (i : jsstring) (fv : FieldValue) :
  ~ In i (map id (readings st)) ->
  updateReading i fv st = st /\
  readings (removeTenant i st) = readings st /\
  totalUnits (removeTenant i st) = totalUnits st /\
  totalAmount (removeTenant i st) = totalAmount st /\
  ((1 < tenants st)%nat -> removeTenant i st = st).
Proof.
  intros Hn. destruct st as [rs tu ta ts]. unfold tenants. simpl in *.
  unfold updateReading, removeTenant, setReadings; simpl.
  rewrite (map_unknown_id i (setField fv) rs Hn).
  split; [reflexivity|].
  destruct (1 <? length rs)%nat eqn:E; simpl.
  - rewrite (filter_unknown_id i rs Hn). repeat split; reflexivity.
  - apply Nat.ltb_ge in E. repeat split; try reflexivity. lia.
Qed.

Lemma unknown_id_noop_witness :
  updateReading (js "7") (SetCurrent zero) initialState = initialState /\
  removeTenant (js "7") initialState = initialState.
Proof.
  assert (Hn : ~ In (js "7") (map id (readings initialState))).
  { vm_compute. intuition discriminate. }
  destruct (unknown_id_noop initialState (js "7") (SetCurrent zero) Hn)
    as (Hu & _ & _ & _ & Hr).
  split; [exact Hu | apply Hr; vm_compute; lia].
Defined.


(** * Binary64 arithmetic: what rounding does *)

Section Digits.

Lemma digits2_pos_size (p : positive) : digits2_pos p = Pos.size p.
Proof. induction p; simpl; congruence. Qed.

Lemma Zdigits2_log2 (m : Z) : 0 < m -> Zdigits2 m = Z.log2 m + 1.
Proof.
  destruct m as [|p|p]; try lia. intros _.
  destruct p; simpl; rewrite ?digits2_pos_size; lia.
Qed.

Lemma Zdigits2_bounds (m : Z) :
  0 < m -> 2 ^ (Zdigits2 m - 1) <= m < 2 ^ Zdigits2 m.
Proof.
  intros H. rewrite Zdigits2_log2 by assumption.
  replace (Z.log2 m + 1 - 1) with (Z.log2 m) by lia.
  apply Z.log2_spec. assumption.
Qed.

Lemma Zdigits2_div_pow2 (m k : Z) :
  0 <= k -> 0 < m / 2 ^ k -> Zdigits2 (m / 2 ^ k) = Zdigits2 m - k.
Proof.
  intros Hk Hq.
  assert (Hm : 0 < m).
  { destruct (Z.lt_trichotomy m 0) as [H|[H|H]]; try assumption.
    - assert (m / 2 ^ k < 0) by (apply Z.div_lt_upper_bound; lia). lia.
    - subst. rewrite Z.div_0_l in Hq; lia. }
  rewrite !Zdigits2_log2 by assumption.
  rewrite <- Z.shiftr_div_pow2 in * by assumption.
  rewrite Z.log2_shiftr by assumption.
  assert (k <= Z.log2 m).
  { apply Z.log2_le_pow2; [assumption|].
    rewrite Z.shiftr_div_pow2 in Hq by assumption.
    destruct (Z.le_gt_cases (2 ^ k) m) as [H|H]; [assumption|].
    rewrite Z.div_small in Hq; lia. }
  lia.
Qed.

End Digits.

Section ShiftRight.

Lemma shr_1_m (mrs : shr_record) :
  0 <= shr_m mrs -> shr_m (shr_1 mrs) = shr_m mrs / 2.
Proof.
  destruct mrs as [m r s]. simpl. intros H.
  destruct m as [|[p|p|]|p]; try lia; simpl;
    try reflexivity.
  - rewrite Pos2Z.inj_xI. apply Z.div_unique with 1; lia.
  - rewrite Pos2Z.inj_xO. apply Z.div_unique with 0; lia.
Qed.

Lemma iter_shr_1_m (p : positive) (mrs : shr_record) :
  0 <= shr_m mrs ->
  shr_m (SpecFloat.iter_pos shr_1 p mrs) = shr_m mrs / 2 ^ Zpos p.
Proof.
  revert mrs. induction p as [p IH|p IH|]; intros mrs H; simpl SpecFloat.iter_pos.
  - assert (H1 : 0 <= shr_m (shr_1 mrs)) by (rewrite shr_1_m by assumption; apply Z.div_pos; lia).
    assert (H2 : 0 <= shr_m (SpecFloat.iter_pos shr_1 p (shr_1 mrs)))
      by (rewrite IH by assumption; apply Z.div_pos; lia).
    rewrite IH, IH, shr_1_m by assumption.
    rewrite !Z.div_div by lia. f_equal.
    rewrite Pos2Z.inj_xI.
    replace (2 * Zpos p + 1) with (1 + Zpos p + Zpos p) by lia.
    rewrite !Z.pow_add_r by lia. change (2 ^ 1) with 2. lia.
  - assert (H2 : 0 <= shr_m (SpecFloat.iter_pos shr_1 p mrs))
      by (rewrite IH by assumption; apply Z.div_pos; lia).
    rewrite IH, IH by assumption.
    rewrite !Z.div_div by lia. f_equal.
    rewrite Pos2Z.inj_xO. rewrite <- Z.pow_add_r by lia. f_equal. lia.
  - rewrite shr_1_m by assumption. reflexivity.
Qed.

End ShiftRight.

Section Rounding.

Lemma fexp_eq (e : Z) : fexp prec emax e = Z.max (e - 53) (-1074).
Proof. reflexivity. Qed.

Lemma shr_spec (mrs : shr_record) (e n : Z) :
  0 <= shr_m mrs ->
  shr_m (fst (shr mrs e n)) = shr_m mrs / 2 ^ Z.max 0 n /\
  snd (shr mrs e n) = e + Z.max 0 n.
Proof.
  intros H. destruct n as [|p|p]; simpl.
  - rewrite Z.div_1_r. split; [reflexivity | lia].
  - split; [|reflexivity]. now apply iter_shr_1_m.
  - rewrite Z.div_1_r. split; [reflexivity | lia].
Qed.

Lemma shr_fexp_spec (m e : Z) (l : location) :
  0 <= m ->
  shr_m (fst (shr_fexp prec emax m e l))
  = m / 2 ^ Z.max 0 (fexp prec emax (Zdigits2 m + e) - e) /\
  snd (shr_fexp prec emax m e l)
  = e + Z.max 0 (fexp prec emax (Zdigits2 m + e) - e).
Proof.
  intros H. unfold shr_fexp.
  assert (Hm : shr_m (shr_record_of_loc m l) = m) by (destruct l as [|[]]; reflexivity).
  rewrite <- Hm at 3. apply shr_spec. now rewrite Hm.
Qed.

Lemma round_nearest_even_range (m : Z) (l : location) :
  m <= round_nearest_even m l <= m + 1.
Proof. destruct l as [|[]]; simpl; try destruct (Z.even m); lia. Qed.

Lemma second_shift (m1 m2 E D : Z) :
  0 <= m1 -> m1 <= m2 <= m1 + 1 -> 0 < m2 ->
  (m1 = 0 -> E = -1074) ->
  (0 < m1 -> Zdigits2 m1 + E = D) ->
  (0 < m1 -> fexp prec emax D = E) ->
  fexp prec emax (Zdigits2 m2 + E) = E \/
  (fexp prec emax (Zdigits2 m2 + E) = E + 1 /\ 2 * (m2 / 2) = m2 /\
   0 < m2 / 2 /\ Zdigits2 (m2 / 2) = Zdigits2 m2 - 1).
Proof.
  intros H1 H12 H2 Hz HD HE.
  destruct (Z.eq_dec m1 0) as [Z1|N1].
  - left. assert (m2 = 1) by lia. subst m2. rewrite (Hz Z1). reflexivity.
  - assert (P1 : 0 < m1) by lia. specialize (HD P1). specialize (HE P1).
    destruct (Z.eq_dec m2 m1) as [->|Hne]; [left; rewrite HD; exact HE|].
    assert (Hs : m2 = Z.succ m1) by lia.
    rewrite fexp_eq in *.
    rewrite (Zdigits2_log2 m2) by assumption.
    rewrite (Zdigits2_log2 m1) in HD by assumption.
    destruct (Z.log2_succ_or m1) as [Hl|Hl]; rewrite <- Hs in Hl.
    + destruct (Z.log2_eq_succ_is_pow2 m1) as (b & Hb); [now rewrite <- Hs|].
      rewrite <- Hs in Hb.
      assert (Hb0 : 0 <= b).
      { destruct (Z.le_gt_cases 0 b); [assumption|]. rewrite Z.pow_neg_r in Hb; lia. }
      assert (Hlb : Z.log2 m2 = b) by (rewrite Hb; now apply Z.log2_pow2).
      pose proof (Z.log2_nonneg m1).
      destruct (Z.le_gt_cases (D - 52) (-1074)) as [Hs1|Hs1]; [left; lia|].
      right. split; [lia|].
      assert (Hb1 : 1 <= b) by lia.
      assert (Hhalf : m2 / 2 = 2 ^ (b - 1)).
      { rewrite Hb. replace b with (1 + (b - 1)) at 1 by lia.
        rewrite Z.pow_add_r by lia. change (2 ^ 1) with 2.
        rewrite Z.mul_comm, Z.div_mul by lia. reflexivity. }
      assert (Hpos : 0 < 2 ^ (b - 1)) by (apply Z.pow_pos_nonneg; lia).
      rewrite Hhalf. split; [|split; [assumption|]].
      * rewrite Hb. replace b with (1 + (b - 1)) at 2 by lia.
        rewrite Z.pow_add_r by lia. reflexivity.
      * rewrite Zdigits2_log2 by assumption. rewrite Z.log2_pow2 by lia. lia.
    + left. lia.
Qed.

Lemma binary_round_aux_int (sx : bool) (mx ex : Z) (lx : location) :
  0 <= mx ->
  ex <= fexp prec emax (Zdigits2 mx + ex) ->
  let E := fexp prec emax (Zdigits2 mx + ex) in
  exists m2 m3 e3 : Z,
    binary_round_aux prec emax sx mx ex lx = pack sx m3 e3 /\
    mx / 2 ^ (E - ex) <= m2 <= mx / 2 ^ (E - ex) + 1 /\
    0 <= m3 /\ E <= e3 <= E + 1 /\ m3 * 2 ^ (e3 - E) = m2 /\
    (0 < m3 -> fexp prec emax (Zdigits2 m3 + e3) = e3).
Proof.
  intros Hmx Hfine E.
  assert (HEdef : fexp prec emax (Zdigits2 mx + ex) = E) by reflexivity.
  assert (HEmax : E = Z.max (Zdigits2 mx + ex - 53) (-1074)) by reflexivity.
  rewrite HEdef in Hfine. clearbody E.
  unfold binary_round_aux.
  destruct (shr_fexp_spec mx ex lx Hmx) as [Hm1 He1].
  destruct (shr_fexp prec emax mx ex lx) as [mrs' e'] eqn:S1.
  simpl in Hm1, He1. rewrite HEdef in Hm1, He1.
  rewrite Z.max_r in Hm1, He1 by lia.
  replace (ex + (E - ex)) with E in He1 by lia. subst e'.
  set (m1 := mx / 2 ^ (E - ex)) in *.
  assert (P2k : 0 < 2 ^ (E - ex)) by (apply Z.pow_pos_nonneg; lia).
  assert (Hm1pos : 0 <= m1) by (apply Z.div_pos; lia).
  set (m2 := round_nearest_even (shr_m mrs') (loc_of_shr_record mrs')).
  assert (H12 : m1 <= m2 <= m1 + 1).
  { unfold m2. rewrite Hm1. apply round_nearest_even_range. }
  assert (Hm2 : 0 <= m2) by lia.
  destruct (shr_fexp_spec m2 E loc_Exact Hm2) as [Hm3 He3].
  destruct (shr_fexp prec emax m2 E loc_Exact) as [mrs'' e''] eqn:S2.
  simpl in Hm3, He3.
  assert (HEmin : -1074 <= E) by lia.
  assert (Hz : m1 = 0 -> E = -1074).
  { intros Z1.
    destruct (Z.eq_dec mx 0) as [->|Nz]; [change (Zdigits2 0) with 0 in *; lia|].
    assert (Pmx : 0 < mx) by lia.
    assert (mx < 2 ^ (E - ex)).
    { destruct (Z.le_gt_cases (2 ^ (E - ex)) mx) as [Hle|]; [|assumption].
      assert (1 <= m1); [|lia].
      unfold m1. apply Z.div_le_lower_bound; lia. }
    pose proof (Zdigits2_bounds mx Pmx) as [Hlo _].
    assert (Zdigits2 mx - 1 < E - ex).
    { apply (Z.pow_lt_mono_r_iff 2); lia. }
    lia. }
  assert (HD : 0 < m1 -> Zdigits2 m1 + E = Zdigits2 mx + ex).
  { intros P1. unfold m1. rewrite Zdigits2_div_pow2; [lia | lia | exact P1]. }
  exists m2.
  destruct (Z.eq_dec m2 0) as [Z2|N2].
  - exists 0, E. rewrite Hm3, Z2. rewrite Z.div_0_l by (apply Z.pow_nonzero; lia).
    simpl. repeat split; try lia.
  - assert (P2 : 0 < m2) by lia.
    destruct (second_shift m1 m2 E (Zdigits2 mx + ex) Hm1pos H12 P2 Hz HD (fun _ => HEdef))
      as [Hc|(Hc & Heven & Hhalf & Hdig)].
    + rewrite Hc in Hm3, He3. rewrite Z.sub_diag in Hm3, He3.
      change (Z.max 0 0) with 0 in Hm3, He3. change (2 ^ 0) with 1 in Hm3.
      rewrite Z.div_1_r in Hm3. rewrite Z.add_0_r in He3. subst e''.
      exists m2, E. rewrite Hm3.
      split; [destruct m2; try lia; reflexivity|].
      rewrite Z.sub_diag. simpl. repeat split; try lia.
    + rewrite Hc in Hm3, He3. replace (E + 1 - E) with 1 in Hm3, He3 by lia.
      change (Z.max 0 1) with 1 in Hm3, He3. change (2 ^ 1) with 2 in Hm3. subst e''.
      exists (m2 / 2), (E + 1). rewrite Hm3.
      split; [destruct (m2 / 2); try lia; reflexivity|].
      replace (E + 1 - E) with 1 by lia. change (2 ^ 1) with 2.
      repeat split; try lia.
      all: try (intros _; rewrite Hdig;
                replace (Zdigits2 m2 - 1 + (E + 1)) with (Zdigits2 m2 + E) by lia; exact Hc).
Qed.

End Rounding.

Section Powers.

Local Open Scope R_scope.

Lemma bpow_powerRZ (e : Z) : bpow e = powerRZ 2 e.
Proof.
  destruct e as [|p|p]; simpl.
  - reflexivity.
  - rewrite pow_IZR, positive_nat_Z. reflexivity.
  - rewrite pow_IZR, positive_nat_Z. reflexivity.
Qed.

Lemma bpow_add (a b : Z) : bpow (a + b) = bpow a * bpow b.
Proof. rewrite !bpow_powerRZ. apply powerRZ_add. lra. Qed.

Lemma bpow_gt_0 (e : Z) : 0 < bpow e.
Proof. rewrite bpow_powerRZ. apply powerRZ_lt. lra. Qed.

Lemma bpow_IZR (e : Z) : (0 <= e)%Z -> bpow e = IZR (2 ^ e).
Proof. destruct e; try reflexivity. lia. Qed.

Lemma bpow_ge_1 (e : Z) : (0 <= e)%Z -> 1 <= bpow e.
Proof.
  intros H. rewrite bpow_IZR by assumption. apply IZR_le.
  assert (0 < 2 ^ e)%Z by (apply Z.pow_pos_nonneg; lia). lia.
Qed.

Lemma bpow_le (a b : Z) : (a <= b)%Z -> bpow a <= bpow b.
Proof.
  intros H. replace b with (a + (b - a))%Z by lia. rewrite bpow_add.
  pose proof (bpow_gt_0 a). pose proof (bpow_ge_1 (b - a) ltac:(lia)). nra.
Qed.

Lemma bpow_lt (a b : Z) : (a < b)%Z -> bpow a < bpow b.
Proof.
  intros H. replace b with (a + 1 + (b - a - 1))%Z by lia. rewrite !bpow_add.
  pose proof (bpow_gt_0 a). pose proof (bpow_ge_1 (b - a - 1) ltac:(lia)).
  change (bpow 1) with 2. nra.
Qed.

Lemma bpow_lt_inv (a b : Z) : bpow a < bpow b -> (a < b)%Z.
Proof.
  intros H. destruct (Z.lt_ge_cases a b) as [|Hge]; [assumption|].
  apply bpow_le in Hge. lra.
Qed.

End Powers.

Section RoundingError.

Local Open Scope R_scope.

Lemma F2R_finite (s : bool) (m : positive) (e : Z) :
  F2R (S754_finite s m e) = Rsgn s * (IZR (Zpos m) * bpow e).
Proof.
  unfold F2R, Rsgn. destruct s; simpl cond_Zopp.
  - change (Zneg m) with (- Zpos m)%Z. rewrite opp_IZR. ring.
  - ring.
Qed.

Lemma Rabs_Rsgn (s : bool) (a b : R) : Rabs (Rsgn s * a - Rsgn s * b) = Rabs (a - b).
Proof.
  destruct s; unfold Rsgn.
  - replace (-1 * a - -1 * b) with (- (a - b)) by ring. apply Rabs_Ropp.
  - f_equal. ring.
Qed.

(** The mantissa [mx] at exponent [ex] lies below the exact value [x] by
    less than one unit; [binary_round_aux] then returns a canonical number
    of the sign asked for, within one unit in the last place of [x]. *)
Lemma binary_round_aux_real (sx : bool) (mx ex : Z) (lx : location) (x : R) :
  (0 <= mx)%Z ->
  (ex <= fexp prec emax (Zdigits2 mx + ex))%Z ->
  IZR mx * bpow ex <= x <= IZR (mx + 1) * bpow ex ->
  x < bpow 1023 ->
  let r := binary_round_aux prec emax sx mx ex lx in
  canonical r = true /\ signbit r = sx /\
  Rabs (F2R r - Rsgn sx * x) <= x * bpow (-52) + bpow (-1074).
Proof.
  intros Hmx Hfine Hx Hov r.
  destruct (binary_round_aux_int sx mx ex lx Hmx Hfine)
    as (m2 & m3 & e3 & Hr & H12 & Hm3 & He3 & Hval & Hcan).
  fold r in Hr.
  set (E := fexp prec emax (Zdigits2 mx + ex)) in *.
  assert (HEmax : E = Z.max (Zdigits2 mx + ex - 53) (-1074)) by reflexivity.
  clearbody E.
  set (m1 := (mx / 2 ^ (E - ex))%Z) in *.
  assert (P2k : (0 < 2 ^ (E - ex))%Z) by (apply Z.pow_pos_nonneg; lia).
  assert (Hlo : (m1 * 2 ^ (E - ex) <= mx)%Z).
  { unfold m1. rewrite Z.mul_comm. apply Z.mul_div_le. lia. }
  assert (Hhi : (mx + 1 <= (m1 + 1) * 2 ^ (E - ex))%Z).
  { pose proof (Z.mul_succ_div_gt mx (2 ^ (E - ex)) P2k). fold m1 in H. lia. }
  assert (HbE : bpow E = IZR (2 ^ (E - ex)) * bpow ex).
  { rewrite <- bpow_IZR by lia. rewrite <- bpow_add. f_equal. lia. }
  pose proof (bpow_gt_0 ex) as Pex. pose proof (bpow_gt_0 E) as PE.
  assert (Hxlo : IZR m1 * bpow E <= x).
  { apply IZR_le in Hlo. rewrite mult_IZR in Hlo. rewrite HbE.
    apply Rle_trans with (IZR mx * bpow ex); [|apply Hx].
    rewrite <- Rmult_assoc. apply Rmult_le_compat_r; lra. }
  assert (Hxhi : x <= IZR (m1 + 1) * bpow E).
  { apply IZR_le in Hhi. rewrite mult_IZR in Hhi. rewrite HbE.
    apply Rle_trans with (IZR (mx + 1) * bpow ex); [apply Hx|].
    rewrite <- Rmult_assoc. apply Rmult_le_compat_r; lra. }
  assert (Hx0 : 0 <= x).
  { apply IZR_le in Hmx. nra. }
  assert (Hy : IZR m3 * bpow e3 = IZR m2 * bpow E).
  { rewrite <- Hval. rewrite mult_IZR.
    replace e3 with ((e3 - E) + E)%Z at 1 by lia. rewrite bpow_add.
    rewrite (bpow_IZR (e3 - E)) by lia. ring. }
  assert (Herr : Rabs (IZR m2 * bpow E - x) <= bpow E).
  { destruct H12 as [Ha Hb]. apply IZR_le in Ha, Hb. rewrite plus_IZR in *.
    apply Rabs_le. nra. }
  assert (Hulp : bpow E <= x * bpow (-52) + bpow (-1074)).
  { pose proof (bpow_gt_0 (-52)).
    destruct (Z.eq_dec E (-1074)) as [->|HE]; [nra|].
    assert (Pmx : (0 < mx)%Z).
    { destruct (Z.eq_dec mx 0) as [Z0|]; [|lia].
      rewrite Z0 in HEmax. change (Zdigits2 0) with 0%Z in HEmax. lia. }
    pose proof (Zdigits2_bounds mx Pmx) as [Hd _].
    apply IZR_le in Hd. rewrite <- bpow_IZR in Hd
      by (pose proof (Zdigits2_log2 mx Pmx); pose proof (Z.log2_nonneg mx); lia).
    replace E with ((Zdigits2 mx - 1) + ex + (-52))%Z by lia.
    rewrite !bpow_add.
    pose proof (bpow_gt_0 (Zdigits2 mx - 1)). pose proof (bpow_gt_0 (-1074)).
    assert (bpow (Zdigits2 mx - 1) * bpow ex <= x) by nra.
    nra. }
  assert (HE970 : (E <= 970)%Z).
  { destruct (Z.eq_dec mx 0) as [Z0|Nz].
    - rewrite Z0 in HEmax. change (Zdigits2 0) with 0%Z in HEmax. lia.
    - assert (Pmx : (0 < mx)%Z) by lia.
      pose proof (Zdigits2_bounds mx Pmx) as [Hd _].
      apply IZR_le in Hd. rewrite <- bpow_IZR in Hd
        by (pose proof (Zdigits2_log2 mx Pmx); pose proof (Z.log2_nonneg mx); lia).
      assert (bpow (Zdigits2 mx - 1 + ex) < bpow 1023).
      { rewrite bpow_add. nra. }
      apply bpow_lt_inv in H. lia. }
  rewrite Hr. unfold pack.
  destruct m3 as [|p|p]; [| |lia].
  - split; [reflexivity|]. split; [reflexivity|].
    simpl F2R. rewrite Rminus_0_l, Rabs_Ropp.
    assert (m2 = 0%Z) by lia. subst m2. rewrite Rmult_0_l in Herr.
    rewrite Rminus_0_l, Rabs_Ropp in Herr.
    destruct sx; unfold Rsgn.
    + replace (-1 * x) with (- x) by ring. rewrite Rabs_Ropp. lra.
    + rewrite Rmult_1_l. lra.
  - assert (Hle : (e3 <=? emax - prec)%Z = true) by (apply Z.leb_le; unfold emax, prec; lia).
    rewrite Hle. split; [|split; [reflexivity|]].
    + unfold canonical. cbn [is_finite valid_binary andb].
      unfold SpecFloat.bounded, canonical_mantissa.
      rewrite Hle. specialize (Hcan ltac:(lia)). cbn [Zdigits2] in Hcan.
      rewrite Hcan, Z.eqb_refl. reflexivity.
    + rewrite F2R_finite, Hy, Rabs_Rsgn. lra.
Qed.

End RoundingError.

Section Operations.

Local Open Scope R_scope.

Lemma iter_xO (m d : positive) :
  Zpos (Pos.iter xO m d) = (Zpos m * 2 ^ Zpos d)%Z.
Proof.
  induction d as [|d IH] using Pos.peano_ind.
  - simpl. lia.
  - rewrite Pos.iter_succ, Pos2Z.inj_xO, IH, Pos2Z.inj_succ, Z.pow_succ_r by lia. lia.
Qed.

Lemma shl_align_spec (mx : positive) (ex ex' : Z) :
  snd (shl_align mx ex ex') = Z.min ex ex' /\
  Zpos (fst (shl_align mx ex ex')) = (Zpos mx * 2 ^ (ex - Z.min ex ex'))%Z.
Proof.
  unfold shl_align. destruct (ex' - ex)%Z as [|d|d] eqn:Hd; cbn [fst snd].
  - replace (Z.min ex ex') with ex by lia. rewrite Z.sub_diag. split; lia.
  - replace (Z.min ex ex') with ex by lia. rewrite Z.sub_diag. split; lia.
  - replace (Z.min ex ex') with ex' by lia. split; [reflexivity|].
    rewrite iter_xO. replace (ex - ex')%Z with (Zpos d) by lia. reflexivity.
Qed.

Lemma Zdigits2_mul_pow2 (m k : Z) :
  (0 < m)%Z -> (0 <= k)%Z -> Zdigits2 (m * 2 ^ k) = (Zdigits2 m + k)%Z.
Proof.
  intros Hm Hk.
  assert (0 < m * 2 ^ k)%Z by (apply Z.mul_pos_pos; [|apply Z.pow_pos_nonneg]; lia).
  rewrite !Zdigits2_log2 by assumption. rewrite Z.log2_mul_pow2 by lia. lia.
Qed.

(** [binary_round]: the canonical number nearest to [mx * 2^ex]. *)
Lemma binary_round_real (sx : bool) (mx : positive) (ex : Z) :
  IZR (Zpos mx) * bpow ex < bpow 1023 ->
  let r := binary_round prec emax sx mx ex in
  canonical r = true /\ signbit r = sx /\
  Rabs (F2R r - Rsgn sx * (IZR (Zpos mx) * bpow ex))
  <= IZR (Zpos mx) * bpow ex * bpow (-52) + bpow (-1074).
Proof.
  intros Hov. unfold binary_round.
  destruct (shl_align_spec mx ex (fexp prec emax (Zpos (digits2_pos mx) + ex))) as [He Hm].
  destruct (shl_align mx ex (fexp prec emax (Zpos (digits2_pos mx) + ex))) as [mz ez].
  cbn [fst snd] in He, Hm.
  set (F := fexp prec emax (Zpos (digits2_pos mx) + ex)) in *.
  assert (Hval : IZR (Zpos mz) * bpow ez = IZR (Zpos mx) * bpow ex).
  { rewrite Hm, mult_IZR. rewrite <- bpow_IZR by lia.
    rewrite Rmult_assoc, <- bpow_add. f_equal. f_equal. lia. }
  rewrite <- Hval in *.
  apply binary_round_aux_real.
  - lia.
  - rewrite Hm. rewrite Zdigits2_mul_pow2 by lia.
    change (Zdigits2 (Zpos mx)) with (Zpos (digits2_pos mx)).
    replace (Zpos (digits2_pos mx) + (ex - Z.min ex F) + ez)%Z
      with (Zpos (digits2_pos mx) + ex)%Z by lia.
    fold F. lia.
  - rewrite plus_IZR. pose proof (bpow_gt_0 ez). split; [lra|nra].
  - assumption.
Qed.

(** When [mx * 2^ex] is itself a binary64 value, [binary_round] returns it. *)
Lemma binary_round_aux_exact (sx : bool) (mx ex : Z) :
  fexp prec emax (Zdigits2 mx + ex) = ex ->
  binary_round_aux prec emax sx mx ex loc_Exact = pack sx mx ex.
Proof.
  intros H. unfold binary_round_aux, shr_fexp. rewrite H, Z.sub_diag.
  cbn [shr shr_record_of_loc loc_of_shr_record round_nearest_even shr_m].
  rewrite H, Z.sub_diag. reflexivity.
Qed.

Lemma binary_round_exact (sx : bool) (mx : positive) (ex : Z) :
  (fexp prec emax (Zpos (digits2_pos mx) + ex) <= ex)%Z ->
  (Zpos (digits2_pos mx) + ex <= 1024)%Z ->
  let r := binary_round prec emax sx mx ex in
  canonical r = true /\ signbit r = sx /\
  F2R r = Rsgn sx * (IZR (Zpos mx) * bpow ex).
Proof.
  intros Hrep Hov. unfold binary_round.
  destruct (shl_align_spec mx ex (fexp prec emax (Zpos (digits2_pos mx) + ex))) as [He Hm].
  destruct (shl_align mx ex (fexp prec emax (Zpos (digits2_pos mx) + ex))) as [mz ez].
  cbn [fst snd] in He, Hm.
  set (F := fexp prec emax (Zpos (digits2_pos mx) + ex)) in *.
  assert (HF : F = Z.max (Zpos (digits2_pos mx) + ex - 53) (-1074)) by reflexivity.
  assert (Hez : ez = F) by lia.
  assert (Hval : IZR (Zpos mz) * bpow ez = IZR (Zpos mx) * bpow ex).
  { rewrite Hm, mult_IZR. rewrite <- bpow_IZR by lia.
    rewrite Rmult_assoc, <- bpow_add. f_equal. f_equal. lia. }
  assert (Hcan : fexp prec emax (Zdigits2 (Zpos mz) + ez) = ez).
  { rewrite Hm. rewrite Zdigits2_mul_pow2 by lia.
    change (Zdigits2 (Zpos mx)) with (Zpos (digits2_pos mx)).
    replace (Zpos (digits2_pos mx) + (ex - Z.min ex F) + ez)%Z
      with (Zpos (digits2_pos mx) + ex)%Z by lia.
    fold F. lia. }
  rewrite binary_round_aux_exact by assumption.
  unfold pack.
  assert (Hle : (ez <=? emax - prec)%Z = true) by (apply Z.leb_le; unfold emax, prec; lia).
  rewrite Hle. split; [|split; [reflexivity|]].
  - unfold canonical. cbn [is_finite valid_binary andb].
    unfold SpecFloat.bounded, canonical_mantissa. rewrite Hle.
    cbn [Zdigits2] in Hcan. rewrite Hcan, Z.eqb_refl. reflexivity.
  - rewrite F2R_finite, Hval. reflexivity.
Qed.

End Operations.

Section AddSub.

Local Open Scope R_scope.

Lemma canonical_finite (x : number) : canonical x = true -> is_finite x = true.
Proof. unfold canonical. intros H. apply andb_true_iff in H. tauto. Qed.

Lemma F2R_cond_Zopp (s : bool) (m : positive) :
  IZR (cond_Zopp s (Zpos m)) = Rsgn s * IZR (Zpos m).
Proof.
  destruct s; unfold Rsgn; simpl cond_Zopp.
  - change (Zneg m) with (- Zpos m)%Z. rewrite opp_IZR. ring.
  - ring.
Qed.

Lemma aligned_value (s : bool) (m : positive) (e ez : Z) :
  (ez <= e)%Z ->
  IZR (cond_Zopp s (Zpos (fst (shl_align m e ez)))) * bpow ez
  = F2R (S754_finite s m e).
Proof.
  intros H. destruct (shl_align_spec m e ez) as [_ Hm].
  rewrite F2R_cond_Zopp, Hm, F2R_finite, mult_IZR.
  replace (Z.min e ez) with ez by lia.
  rewrite <- bpow_IZR by lia.
  rewrite !Rmult_assoc, <- bpow_add. do 3 f_equal. lia.
Qed.

Lemma binary_normalize_real (M ez : Z) :
  Rabs (IZR M * bpow ez) < bpow 1023 ->
  let r := binary_normalize prec emax M ez false in
  canonical r = true /\
  Rabs (F2R r - IZR M * bpow ez)
  <= Rabs (IZR M * bpow ez) * bpow (-52) + bpow (-1074).
Proof.
  intros Hov. pose proof (bpow_gt_0 ez) as Pe.
  pose proof (bpow_gt_0 (-52)). pose proof (bpow_gt_0 (-1074)).
  destruct M as [|m|m]; cbn [binary_normalize].
  - split; [reflexivity|]. simpl F2R. rewrite Rmult_0_l, Rminus_0_r, Rabs_R0. lra.
  - assert (Pm : 0 < IZR (Zpos m)) by (apply IZR_lt; lia).
    assert (Pv : 0 < IZR (Zpos m) * bpow ez) by nra.
    rewrite (Rabs_pos_eq (IZR (Zpos m) * bpow ez)) in * by lra.
    destruct (binary_round_real false m ez Hov) as (Hc & _ & He).
    split; [exact Hc|]. unfold Rsgn in He. rewrite Rmult_1_l in He. exact He.
  - assert (Pm : 0 < IZR (Zpos m)) by (apply IZR_lt; lia).
    assert (Pv : 0 < IZR (Zpos m) * bpow ez) by nra.
    change (Zneg m) with (- Zpos m)%Z in *. rewrite opp_IZR in *.
    replace (- IZR (Zpos m) * bpow ez) with (- (IZR (Zpos m) * bpow ez)) in * by ring.
    rewrite (Rabs_Ropp (IZR (Zpos m) * bpow ez)) in *.
    rewrite (Rabs_pos_eq (IZR (Zpos m) * bpow ez)) in * by lra.
    destruct (binary_round_real true m ez Hov) as (Hc & _ & He).
    split; [exact Hc|]. unfold Rsgn in He.
    replace (-1 * (IZR (Zpos m) * bpow ez)) with (- (IZR (Zpos m) * bpow ez)) in He by ring.
    exact He.
Qed.

(** [x + y]: within one unit in the last place of the exact sum. *)
Lemma add_real (x y : number) :
  canonical x = true -> canonical y = true ->
  Rabs (F2R x + F2R y) < bpow 1023 ->
  canonical (add x y) = true /\
  Rabs (F2R (add x y) - (F2R x + F2R y))
  <= Rabs (F2R x + F2R y) * bpow (-52) + bpow (-1074).
Proof.
  intros Hx Hy Hov.
  pose proof (bpow_gt_0 (-52)). pose proof (bpow_gt_0 (-1074)).
  assert (Hexact : forall r : number, F2R r = F2R x + F2R y ->
            Rabs (F2R r - (F2R x + F2R y))
            <= Rabs (F2R x + F2R y) * bpow (-52) + bpow (-1074)).
  { intros r ->. rewrite Rminus_diag, Rabs_R0.
    pose proof (Rabs_pos (F2R x + F2R y)). nra. }
  destruct x as [sx|sx| |sx mx ex]; try discriminate;
  destruct y as [sy|sy| |sy my ey]; try discriminate.
  - split; [destruct sx, sy; reflexivity|].
    apply Hexact. destruct sx, sy; simpl; lra.
  - split; [exact Hy|]. apply Hexact. simpl F2R at 2. unfold add, SFadd. lra.
  - split; [exact Hx|]. apply Hexact. simpl F2R at 3. unfold add, SFadd. lra.
  - unfold add, SFadd.
    set (ez := Z.min ex ey).
    rewrite <- (aligned_value sx mx ex ez), <- (aligned_value sy my ey ez) in * by lia.
    rewrite <- Rmult_plus_distr_r, <- plus_IZR in *.
    apply binary_normalize_real. exact Hov.
Qed.

Lemma opp_canonical (y : number) : canonical (SFopp y) = canonical y.
Proof. destruct y; reflexivity. Qed.

Lemma F2R_opp (y : number) : F2R (SFopp y) = - F2R y.
Proof.
  destruct y as [s|s| |s m e]; simpl F2R; try lra.
  destruct s; simpl cond_Zopp.
  - change (Zneg m) with (- Zpos m)%Z. rewrite opp_IZR. ring.
  - change (Zneg m) with (- Zpos m)%Z. rewrite opp_IZR. ring.
Qed.

Lemma sub_add_opp (x y : number) : sub x y = add x (SFopp y).
Proof.
  unfold sub, add.
  destruct x as [sx|sx| |sx mx ex]; destruct y as [sy|sy| |sy my ey];
    try reflexivity; destruct sx, sy; reflexivity.
Qed.

(** [x - y]: within one unit in the last place of the exact difference. *)
Lemma sub_real (x y : number) :
  canonical x = true -> canonical y = true ->
  Rabs (F2R x - F2R y) < bpow 1023 ->
  canonical (sub x y) = true /\
  Rabs (F2R (sub x y) - (F2R x - F2R y))
  <= Rabs (F2R x - F2R y) * bpow (-52) + bpow (-1074).
Proof.
  intros Hx Hy Hov. rewrite sub_add_opp.
  replace (F2R x - F2R y) with (F2R x + F2R (SFopp y)) in * by (rewrite F2R_opp; ring).
  apply add_real; [assumption | now rewrite opp_canonical | assumption].
Qed.

End AddSub.

Section DivMul.

Local Open Scope R_scope.

Lemma Rabs_bounds (x a : R) : Rabs x <= a -> - a <= x <= a.
Proof. unfold Rabs. destruct (Rcase_abs x); lra. Qed.

Lemma Rdiv_ge (a b c : R) : 0 < c -> a * c <= b -> a <= b / c.
Proof.
  intros Hc H. apply Rmult_le_reg_r with c; [lra|].
  unfold Rdiv. rewrite Rmult_assoc, Rinv_l by lra. lra.
Qed.

Lemma Rdiv_le (a b c : R) : 0 < c -> b <= a * c -> b / c <= a.
Proof.
  intros Hc H. apply Rmult_le_reg_r with c; [lra|].
  unfold Rdiv. rewrite Rmult_assoc, Rinv_l by lra. lra.
Qed.

Lemma Rsgn_xorb (a b : bool) : Rsgn (xorb a b) = Rsgn a * Rsgn b.
Proof. destruct a, b; unfold Rsgn; simpl; ring. Qed.

Lemma Zdigits2_ge (m k : Z) : (0 <= k)%Z -> (2 ^ k <= m)%Z -> (k + 1 <= Zdigits2 m)%Z.
Proof.
  intros Hk H.
  assert (0 < m)%Z by (assert (0 < 2 ^ k)%Z by (apply Z.pow_pos_nonneg; lia); lia).
  rewrite Zdigits2_log2 by assumption.
  apply Z.log2_le_pow2 in H; lia.
Qed.

Lemma div_core_spec (mx my : positive) (ex ey : Z) :
  exists (q e' : Z) (l : location),
    SFdiv_core_binary prec emax (Zpos mx) ex (Zpos my) ey = (q, e', l) /\
    (0 <= q)%Z /\ (e' <= ex - ey)%Z /\
    (q * Zpos my <= Zpos mx * 2 ^ (ex - ey - e') < (q + 1) * Zpos my)%Z /\
    (e' <= fexp prec emax (Zdigits2 q + e'))%Z.
Proof.
  unfold SFdiv_core_binary.
  set (d1 := Zdigits2 (Zpos mx)). set (d2 := Zdigits2 (Zpos my)).
  set (e' := Z.min (fexp prec emax (d1 + ex - (d2 + ey))) (ex - ey)).
  set (s := (ex - ey - e')%Z).
  assert (Hs : (0 <= s)%Z) by (unfold s, e'; lia).
  set (m' := match s with
             | Zpos _ => Z.shiftl (Zpos mx) s
             | Z0 => Zpos mx
             | Zneg _ => Z0
             end).
  assert (Hm' : m' = (Zpos mx * 2 ^ s)%Z).
  { unfold m'. destruct s as [|p|p] eqn:Es; [simpl; lia | | lia].
    rewrite Z.shiftl_mul_pow2 by lia. reflexivity. }
  pose proof (Z_div_mod m' (Zpos my) ltac:(lia)) as Hdm.
  destruct (Z.div_eucl m' (Zpos my)) as [q r].
  destruct Hdm as [Heq Hr].
  exists q, e', (new_location (Zpos my) r). split; [reflexivity|].
  assert (P2s : (0 < 2 ^ s)%Z) by (apply Z.pow_pos_nonneg; lia).
  assert (Hq0 : (0 <= q)%Z) by nia.
  split; [exact Hq0|]. split; [unfold e'; lia|].
  fold s. rewrite <- Hm'. split; [nia|].
  rewrite fexp_eq.
  destruct (Z.le_gt_cases e' (-1074)) as [|Hbig]; [lia|].
  assert (He53 : (e' <= d1 + ex - (d2 + ey) - 53)%Z).
  { unfold e' in *. rewrite fexp_eq in *. lia. }
  pose proof (Zdigits2_bounds (Zpos mx) ltac:(lia)) as [Hd1 _]. fold d1 in Hd1.
  pose proof (Zdigits2_bounds (Zpos my) ltac:(lia)) as [_ Hd2]. fold d2 in Hd2.
  assert (Pd1 : (1 <= d1)%Z) by (unfold d1; simpl; lia).
  assert (Pd2 : (1 <= d2)%Z) by (unfold d2; simpl; lia).
  assert (Hk : (52 <= d1 - 1 + s - d2)%Z) by (unfold s; lia).
  assert (Hq52 : (2 ^ (d1 - 1 + s - d2) <= q)%Z).
  { assert (Hpow : (2 ^ (d1 - 1 + s - d2) * 2 ^ d2 = 2 ^ (d1 - 1) * 2 ^ s)%Z).
    { rewrite <- !Z.pow_add_r by lia. f_equal. lia. }
    assert (P : (0 < 2 ^ (d1 - 1 + s - d2))%Z) by (apply Z.pow_pos_nonneg; lia).
    assert (Hlt : (2 ^ (d1 - 1 + s - d2) * Zpos my < (q + 1) * Zpos my)%Z) by nia.
    apply Z.mul_lt_mono_pos_r in Hlt; lia. }
  pose proof (Zdigits2_ge q (d1 - 1 + s - d2) ltac:(lia) Hq52). lia.
Qed.

Lemma finite_cases (x : number) :
  is_finite x = true ->
  (exists s, x = S754_zero s) \/ (exists s m e, x = S754_finite s m e).
Proof. destruct x; try discriminate; eauto. Qed.

(** [x / y]: within one unit in the last place of the exact quotient. *)
Lemma div_real (x y : number) :
  is_finite x = true -> is_finite y = true -> F2R y <> 0 ->
  Rabs (F2R x / F2R y) < bpow 1023 ->
  canonical (div x y) = true /\
  signbit (div x y) = xorb (signbit x) (signbit y) /\
  Rabs (F2R (div x y) - F2R x / F2R y)
  <= Rabs (F2R x / F2R y) * bpow (-52) + bpow (-1074).
Proof.
  intros Hx Hy Hy0 Hov.
  pose proof (bpow_gt_0 (-52)). pose proof (bpow_gt_0 (-1074)).
  destruct y as [sy|sy| |sy my ey]; try discriminate; [simpl in Hy0; lra|].
  destruct x as [sx|sx| |sx mx ex]; try discriminate.
  - split; [reflexivity|]. split; [reflexivity|].
    simpl F2R at 1 2 3. unfold Rdiv. rewrite !Rmult_0_l, Rminus_0_r, Rabs_R0. lra.
  - unfold div, SFdiv.
    destruct (div_core_spec mx my ex ey) as (q & e' & l & Hcore & Hq0 & He' & [Hlo Hhi] & Hfine).
    rewrite Hcore.
    set (X := (IZR (Zpos mx) * bpow ex) / (IZR (Zpos my) * bpow ey)).
    assert (Pmx : 0 < IZR (Zpos mx)) by (apply IZR_lt; lia).
    assert (Pmy : 0 < IZR (Zpos my)) by (apply IZR_lt; lia).
    pose proof (bpow_gt_0 ex) as Pex. pose proof (bpow_gt_0 ey) as Pey.
    pose proof (bpow_gt_0 e') as Pe'.
    assert (PA : 0 < IZR (Zpos mx) * bpow ex) by nra.
    assert (PB : 0 < IZR (Zpos my) * bpow ey) by nra.
    assert (PX : 0 < X) by (apply Rdiv_lt_0_compat; assumption).
    assert (Hquot : F2R (S754_finite sx mx ex) / F2R (S754_finite sy my ey)
                    = Rsgn (xorb sx sy) * X).
    { rewrite !F2R_finite. unfold X.
      destruct sx, sy; unfold Rsgn; cbn [xorb]; field; lra. }
    rewrite Hquot in *.
    assert (HabsX : Rabs (Rsgn (xorb sx sy) * X) = X).
    { destruct (xorb sx sy); unfold Rsgn.
      - replace (-1 * X) with (- X) by ring. rewrite Rabs_Ropp. apply Rabs_pos_eq. lra.
      - rewrite Rmult_1_l. apply Rabs_pos_eq. lra. }
    rewrite HabsX in *.
    assert (Hex : bpow ex = bpow (ex - ey - e') * bpow e' * bpow ey).
    { rewrite <- !bpow_add. f_equal. lia. }
    pose proof (bpow_gt_0 (ex - ey - e')) as Ps.
    apply IZR_le in Hlo. apply IZR_lt in Hhi.
    rewrite !mult_IZR, <- bpow_IZR in * by lia. rewrite plus_IZR in Hhi.
    assert (HXlo : IZR q * bpow e' <= X).
    { unfold X. apply Rdiv_ge; [lra|]. rewrite Hex.
      replace (IZR q * bpow e' * (IZR (Zpos my) * bpow ey))
        with (IZR q * IZR (Zpos my) * (bpow e' * bpow ey)) by ring.
      replace (IZR (Zpos mx) * (bpow (ex - ey - e') * bpow e' * bpow ey))
        with (IZR (Zpos mx) * bpow (ex - ey - e') * (bpow e' * bpow ey)) by ring.
      apply Rmult_le_compat_r; [nra | lra]. }
    assert (HXhi : X <= IZR (q + 1) * bpow e').
    { unfold X. apply Rdiv_le; [lra|]. rewrite Hex, plus_IZR.
      replace ((IZR q + 1) * bpow e' * (IZR (Zpos my) * bpow ey))
        with ((IZR q + 1) * IZR (Zpos my) * (bpow e' * bpow ey)) by ring.
      replace (IZR (Zpos mx) * (bpow (ex - ey - e') * bpow e' * bpow ey))
        with (IZR (Zpos mx) * bpow (ex - ey - e') * (bpow e' * bpow ey)) by ring.
      apply Rmult_le_compat_r; [nra | lra]. }
    destruct (binary_round_aux_real (xorb sx sy) q e' l X Hq0 Hfine (conj HXlo HXhi) Hov)
      as (Hc & Hs & Herr).
    split; [exact Hc|]. split; [exact Hs|]. exact Herr.
Qed.

Lemma canonical_finite_inv (s : bool) (m : positive) (e : Z) :
  canonical (S754_finite s m e) = true ->
  fexp prec emax (Zpos (digits2_pos m) + e) = e /\ (e <= 971)%Z.
Proof.
  unfold canonical. cbn [is_finite valid_binary andb].
  unfold SpecFloat.bounded, canonical_mantissa. intros H.
  apply andb_true_iff in H. destruct H as [H1 H2].
  apply Z.eqb_eq in H1. apply Z.leb_le in H2. unfold emax, prec in H2. lia.
Qed.

(** [x * y]: within one unit in the last place of the exact product. *)
Lemma mul_real (x y : number) :
  canonical x = true -> canonical y = true ->
  Rabs (F2R x * F2R y) < bpow 1023 ->
  canonical (mul x y) = true /\
  signbit (mul x y) = xorb (signbit x) (signbit y) /\
  Rabs (F2R (mul x y) - F2R x * F2R y)
  <= Rabs (F2R x * F2R y) * bpow (-52) + bpow (-1074).
Proof.
  intros Hx Hy Hov.
  pose proof (bpow_gt_0 (-52)). pose proof (bpow_gt_0 (-1074)).
  assert (Hzero : forall s : bool, F2R x * F2R y = 0 ->
            Rabs (F2R (S754_zero s) - F2R x * F2R y)
            <= Rabs (F2R x * F2R y) * bpow (-52) + bpow (-1074)).
  { intros s ->. simpl F2R. rewrite Rminus_diag, Rabs_R0. lra. }
  destruct x as [sx|sx| |sx mx ex]; try discriminate;
  destruct y as [sy|sy| |sy my ey]; try discriminate;
    try (split; [reflexivity|]; split; [reflexivity|];
         apply Hzero; simpl F2R; ring).
  unfold mul, SFmul.
  destruct (canonical_finite_inv _ _ _ Hx) as [Hcx _].
  destruct (canonical_finite_inv _ _ _ Hy) as [Hcy _].
  set (X := IZR (Zpos (mx * my)) * bpow (ex + ey)).
  assert (PX : 0 < X).
  { unfold X. pose proof (bpow_gt_0 (ex + ey)).
    assert (0 < IZR (Zpos (mx * my))) by (apply IZR_lt; lia). nra. }
  assert (Hprod : F2R (S754_finite sx mx ex) * F2R (S754_finite sy my ey)
                  = Rsgn (xorb sx sy) * X).
  { rewrite !F2R_finite, Rsgn_xorb. unfold X.
    rewrite Pos2Z.inj_mul, mult_IZR, bpow_add. ring. }
  rewrite Hprod in *.
  assert (HabsX : Rabs (Rsgn (xorb sx sy) * X) = X).
  { destruct (xorb sx sy); unfold Rsgn.
    - replace (-1 * X) with (- X) by ring. rewrite Rabs_Ropp. apply Rabs_pos_eq. lra.
    - rewrite Rmult_1_l. apply Rabs_pos_eq. lra. }
  rewrite HabsX in *.
  apply binary_round_aux_real.
  - lia.
  - rewrite fexp_eq in *.
    pose proof (Zdigits2_bounds (Zpos mx) ltac:(lia)) as [Hdx _].
    pose proof (Zdigits2_bounds (Zpos my) ltac:(lia)) as [Hdy _].
    cbn [Zdigits2] in Hdx, Hdy.
    assert (Hge : (2 ^ (Zpos (digits2_pos mx) - 1 + (Zpos (digits2_pos my) - 1))
                   <= Zpos (mx * my))%Z).
    { rewrite Z.pow_add_r by lia. rewrite Pos2Z.inj_mul.
      apply Z.mul_le_mono_nonneg; try lia; apply Z.pow_nonneg; lia. }
    apply Zdigits2_ge in Hge; [|lia]. lia.
  - unfold X. rewrite plus_IZR.
    pose proof (bpow_gt_0 (ex + ey)). split; lra.
  - exact Hov.
Qed.

End DivMul.

(** ** [toFixed(2)] and [parseFloat] *)

Section ToFixed.

Local Open Scope R_scope.

(** [hundredths m e] is [100 * m * 2^e] rounded to the nearest integer, the
    larger one on a tie. *)
Lemma hundredths_spec (m : positive) (e : Z) :
  (0 <= hundredths m e)%Z /\
  IZR (hundredths m e) <= 100 * (IZR (Zpos m) * bpow e) + / 2
  < IZR (hundredths m e) + 1.
Proof.
  unfold hundredths. destruct (0 <=? e)%Z eqn:He.
  - apply Z.leb_le in He.
    assert (0 < 2 ^ e)%Z by (apply Z.pow_pos_nonneg; lia).
    split; [nia|].
    rewrite !mult_IZR, <- bpow_IZR by assumption. lra.
  - apply Z.leb_gt in He.
    set (k := (- e)%Z). assert (Hk : (0 < k)%Z) by (unfold k; lia).
    replace (1 - e)%Z with (k + 1)%Z by (unfold k; lia).
    assert (P : (0 < 2 ^ (k + 1))%Z) by (apply Z.pow_pos_nonneg; lia).
    assert (Pk : (0 < 2 ^ k)%Z) by (apply Z.pow_pos_nonneg; lia).
    assert (H2 : (2 ^ (k + 1) = 2 * 2 ^ k)%Z) by (rewrite Z.pow_add_r by lia; lia).
    set (a := (200 * Zpos m + 2 ^ k)%Z).
    pose proof (Z.mul_div_le a (2 ^ (k + 1)) P) as Hlo.
    pose proof (Z.mul_succ_div_gt a (2 ^ (k + 1)) P) as Hhi.
    set (n := (a / 2 ^ (k + 1))%Z) in *.
    assert (Hn0 : (0 <= n)%Z) by (apply Z.div_pos; unfold a; lia).
    split; [exact Hn0|].
    assert (Hb : bpow e * IZR (2 ^ k) = 1).
    { rewrite <- bpow_IZR by lia. rewrite <- bpow_add.
      replace (e + k)%Z with 0%Z by (unfold k; lia). reflexivity. }
    assert (PR : 0 < IZR (2 ^ k)) by (apply IZR_lt; assumption).
    assert (Hbe : bpow e = / IZR (2 ^ k)).
    { apply Rmult_eq_reg_r with (IZR (2 ^ k)); [|lra].
      rewrite Hb. field. lra. }
    rewrite H2 in Hlo, Hhi. unfold a in Hlo, Hhi.
    apply IZR_le in Hlo. apply IZR_lt in Hhi.
    unfold Z.succ in Hhi.
    repeat (rewrite mult_IZR in Hlo || rewrite plus_IZR in Hlo).
    repeat (rewrite mult_IZR in Hhi || rewrite plus_IZR in Hhi).
    rewrite Hbe.
    assert (Hval : 100 * (IZR (Zpos m) * / IZR (2 ^ k)) + / 2
                   = (200 * IZR (Zpos m) + IZR (2 ^ k)) / (2 * IZR (2 ^ k))).
    { field. lra. }
    rewrite Hval. split.
    + apply Rdiv_ge; [lra|]. lra.
    + apply Rmult_lt_reg_r with (2 * IZR (2 ^ k)); [lra|].
      unfold Rdiv. rewrite Rmult_assoc, Rinv_l by lra. lra.
Qed.

Lemma IZR_1e21 : IZR (10 ^ 21) = 10 ^ 21.
Proof. rewrite pow_IZR. reflexivity. Qed.

Lemma ge_1e21_false (m : positive) (e : Z) :
  IZR (Zpos m) * bpow e < 10 ^ 21 -> ge_1e21 m e = false.
Proof.
  intros H. unfold ge_1e21. destruct (0 <=? e)%Z eqn:He.
  - apply Z.leb_le in He. apply Z.leb_gt. apply lt_IZR.
    rewrite mult_IZR, <- bpow_IZR by assumption.
    rewrite IZR_1e21.
    exact H.
  - apply Z.leb_gt in He. apply Z.leb_gt. apply lt_IZR.
    rewrite mult_IZR, <- bpow_IZR by lia.
    rewrite IZR_1e21.
    pose proof (bpow_gt_0 (- e)).
    assert (Hb : bpow e * bpow (- e) = 1).
    { rewrite <- bpow_add. replace (e + - e)%Z with 0%Z by lia. reflexivity. }
    assert (IZR (Zpos m) * (bpow e * bpow (- e)) < 10 ^ 21 * bpow (- e)) by nra.
    rewrite Hb in H1. lra.
Qed.

Lemma ge_1e21_false_inv (m : positive) (e : Z) :
  ge_1e21 m e = false -> IZR (Zpos m) * bpow e < 10 ^ 21.
Proof.
  unfold ge_1e21. destruct (0 <=? e)%Z eqn:He; intros H; apply Z.leb_gt in H.
  - apply Z.leb_le in He. apply IZR_lt in H.
    rewrite mult_IZR, <- bpow_IZR, IZR_1e21 in H by assumption. exact H.
  - apply Z.leb_gt in He. apply IZR_lt in H.
    rewrite mult_IZR, <- bpow_IZR, IZR_1e21 in H by lia.
    pose proof (bpow_gt_0 e) as Pe.
    assert (Hb : bpow (- e) * bpow e = 1).
    { rewrite <- bpow_add. replace (- e + e)%Z with 0%Z by lia. reflexivity. }
    assert (IZR (Zpos m) * bpow e < 10 ^ 21 * (bpow (- e) * bpow e)) by nra.
    rewrite Hb in H0. lra.
Qed.

Lemma cents_real (s : bool) (n : Z) :
  (0 <= n)%Z -> IZR n < bpow 1000 ->
  canonical (cents s n) = true /\
  (n <> 0%Z -> signbit (cents s n) = s /\ cents s n <> S754_zero s) /\
  Rabs (F2R (cents s n) - Rsgn s * (IZR n / 100))
  <= IZR n / 100 * bpow (-52) + bpow (-1074).
Proof.
  intros Hn Hov. unfold cents, parseFloat.
  pose proof (bpow_gt_0 (-52)). pose proof (bpow_gt_0 (-1074)).
  destruct n as [|p|p]; [| |lia]; cbn [Z.to_N].
  - split; [reflexivity|]. split; [congruence|].
    simpl F2R. unfold Rdiv. rewrite !Rmult_0_l, Rmult_0_r, Rminus_0_r, Rabs_R0. lra.
  - assert (Pp : 0 < IZR (Zpos p)) by (apply IZR_lt; lia).
    assert (F1 : F2R (S754_finite s p 0) = Rsgn s * IZR (Zpos p)).
    { rewrite F2R_finite. change (bpow 0) with 1. ring. }
    assert (F2 : F2R (S754_finite false 100 0) = 100).
    { rewrite F2R_finite. change (bpow 0) with 1. unfold Rsgn. ring. }
    assert (Hq : F2R (S754_finite s p 0) / F2R (S754_finite false 100 0)
                 = Rsgn s * (IZR (Zpos p) / 100)).
    { rewrite F1, F2. field. }
    assert (Habs : Rabs (Rsgn s * (IZR (Zpos p) / 100)) = IZR (Zpos p) / 100).
    { destruct s; unfold Rsgn.
      - replace (-1 * (IZR (Zpos p) / 100)) with (- (IZR (Zpos p) / 100)) by ring.
        rewrite Rabs_Ropp. apply Rabs_pos_eq. lra.
      - rewrite Rmult_1_l. apply Rabs_pos_eq. lra. }
    destruct (div_real (S754_finite s p 0) (S754_finite false 100 0))
      as (Hc & Hs & He); try reflexivity.
    + rewrite F2. lra.
    + rewrite Hq, Habs. pose proof (bpow_lt 1000 1023 ltac:(lia)). lra.
    + rewrite Hq, Habs in He. split; [exact Hc|]. split; [|exact He].
      intros _. split; [rewrite Hs; simpl; now destruct s|].
      intros Hz. rewrite Hz in He. simpl F2R in He.
      rewrite Rminus_0_l, Rabs_Ropp, Habs in He.
      pose proof (bpow_lt (-52) (-1) ltac:(lia)) as B1.
      pose proof (bpow_lt (-1074) (-8) ltac:(lia)) as B2.
      change (bpow (-1)) with (/ 2) in B1.
      assert (bpow (-8) = / 256) by (unfold bpow; simpl; lra).
      assert (1 <= IZR (Zpos p)) by (apply IZR_le; lia).
      nra.
Qed.

Lemma Rabs_triang3 (a b c : R) : Rabs (a - c) <= Rabs (a - b) + Rabs (b - c).
Proof. replace (a - c) with ((a - b) + (b - c)) by ring. apply Rabs_triang. Qed.

Lemma round2_finite (s : bool) (m : positive) (e : Z) :
  ge_1e21 m e = false ->
  round2 (S754_finite s m e) = cents s (hundredths m e).
Proof. intros H. unfold round2, toFixed2, cents. now rewrite H. Qed.

Lemma hundredths_near (m : positive) (e : Z) :
  Rabs (IZR (hundredths m e) / 100 - IZR (Zpos m) * bpow e) <= / 200.
Proof.
  destruct (hundredths_spec m e) as [_ [Hlo Hhi]].
  apply Rabs_le. lra.
Qed.

Lemma hundredths_unique (m : positive) (e n : Z) :
  Rabs (100 * (IZR (Zpos m) * bpow e) - IZR n) < / 2 ->
  hundredths m e = n.
Proof.
  intros H. destruct (hundredths_spec m e) as [_ [Hlo Hhi]].
  apply Rabs_def2 in H. destruct H as [H1 H2].
  assert (IZR (hundredths m e) < IZR (n + 1)) by (rewrite plus_IZR; lra).
  assert (IZR n < IZR (hundredths m e + 1)) by (rewrite plus_IZR; lra).
  apply lt_IZR in H, H0. lia.
Qed.

(** [round2] on a canonical number: a canonical number again, at most half
    a hundredth and one unit in the last place away. *)
Lemma round2_real (x : number) :
  canonical x = true -> Rabs (F2R x) <= bpow 900 ->
  canonical (round2 x) = true /\
  Rabs (F2R (round2 x) - F2R x)
  <= / 200 + (Rabs (F2R x) + / 200) * bpow (-52) + bpow (-1074).
Proof.
  intros Hc Hm.
  pose proof (bpow_gt_0 (-52)) as Pu. pose proof (bpow_gt_0 (-1074)) as Pt.
  pose proof (Rabs_pos (F2R x)) as Pa.
  destruct x as [s|s| |s m e]; try discriminate.
  - split; [reflexivity|]. simpl F2R. rewrite Rminus_diag, Rabs_R0. nra.
  - destruct (ge_1e21 m e) eqn:Hbig.
    + assert (E : round2 (S754_finite s m e) = S754_finite s m e).
      { unfold round2, toFixed2. rewrite Hbig. reflexivity. }
      rewrite E. split; [exact Hc|]. rewrite Rminus_diag, Rabs_R0. nra.
    + rewrite round2_finite by assumption.
      set (v := IZR (Zpos m) * bpow e).
      assert (Pv : 0 < v).
      { unfold v. pose proof (bpow_gt_0 e).
        assert (0 < IZR (Zpos m)) by (apply IZR_lt; lia). nra. }
      assert (Hx : F2R (S754_finite s m e) = Rsgn s * v) by apply F2R_finite.
      assert (Habs : Rabs (F2R (S754_finite s m e)) = v).
      { rewrite Hx. destruct s; unfold Rsgn.
        - replace (-1 * v) with (- v) by ring. rewrite Rabs_Ropp. apply Rabs_pos_eq. lra.
        - rewrite Rmult_1_l. apply Rabs_pos_eq. lra. }
      rewrite Habs in *.
      destruct (hundredths_spec m e) as [Hn0 [Hlo Hhi]]. fold v in Hlo, Hhi.
      pose proof (hundredths_near m e) as Hnear. fold v in Hnear.
      set (n := hundredths m e) in *.
      assert (Hnb : IZR n < bpow 1000).
      { pose proof (bpow_lt 900 1000 ltac:(lia)).
        pose proof (bpow_ge_1 900 ltac:(lia)).
        assert (bpow 1000 = bpow 900 * bpow 100) by (rewrite <- bpow_add; reflexivity).
        assert (128 <= bpow 100).
        { replace 128 with (bpow 7) by (unfold bpow; simpl; lra).
          apply bpow_le. lia. }
        nra. }
      destruct (cents_real s n Hn0 Hnb) as (Hcc & _ & Herr).
      split; [exact Hcc|]. rewrite Hx.
      eapply Rle_trans; [apply (Rabs_triang3 _ (Rsgn s * (IZR n / 100)))|].
      rewrite Rabs_Rsgn.
      assert (IZR n / 100 <= v + / 200) by (apply Rabs_bounds in Hnear; lra).
      nra.
Qed.

(** A nonzero number within half a hundredth of [n] hundredths prints as
    them, so [round2] parses them back. *)
Lemma round2_cents (s : bool) (m : positive) (e n : Z) :
  IZR (Zpos m) * bpow e < 10 ^ 21 ->
  Rabs (100 * (IZR (Zpos m) * bpow e) - IZR n) < / 2 ->
  round2 (S754_finite s m e) = cents s n.
Proof.
  intros Hsmall Hn.
  rewrite round2_finite by now apply ge_1e21_false.
  f_equal. now apply hundredths_unique.
Qed.

End ToFixed.

Section Magnitudes.

Local Open Scope R_scope.

Lemma Rabs_F2R_finite (s : bool) (m : positive) (e : Z) :
  Rabs (F2R (S754_finite s m e)) = IZR (Zpos m) * bpow e.
Proof.
  rewrite F2R_finite.
  assert (0 < IZR (Zpos m) * bpow e).
  { pose proof (bpow_gt_0 e). assert (0 < IZR (Zpos m)) by (apply IZR_lt; lia). nra. }
  destruct s; unfold Rsgn.
  - replace (-1 * (IZR (Zpos m) * bpow e)) with (- (IZR (Zpos m) * bpow e)) by ring.
    rewrite Rabs_Ropp. apply Rabs_pos_eq. lra.
  - rewrite Rmult_1_l. apply Rabs_pos_eq. lra.
Qed.

Lemma small_real (K : Z) (x : number) :
  small K x = true -> canonical x = true /\ Rabs (F2R x) <= bpow K.
Proof.
  unfold small. intros H. apply andb_true_iff in H. destruct H as [Hc Hk].
  split; [exact Hc|].
  pose proof (bpow_gt_0 K).
  destruct x as [s|s| |s m e]; try discriminate.
  - simpl F2R. rewrite Rabs_R0. lra.
  - apply Z.leb_le in Hk. rewrite Rabs_F2R_finite.
    pose proof (Zdigits2_bounds (Zpos m) ltac:(lia)) as [_ Hd]. cbn [Zdigits2] in Hd.
    apply IZR_lt in Hd. rewrite <- bpow_IZR in Hd by lia.
    pose proof (bpow_le _ _ Hk) as Hle. rewrite bpow_add in Hle.
    pose proof (bpow_gt_0 e). nra.
Qed.

Lemma bpow_m15 : bpow (-15) = / 32768.
Proof. unfold bpow. simpl. lra. Qed.

Lemma bpow_m52 : bpow (-52) = / 4503599627370496.
Proof. unfold bpow. simpl. lra. Qed.

Lemma bpow_tiny : bpow (-1074) <= / 1267650600228229401496703205376.
Proof.
  apply Rle_trans with (bpow (-100)); [apply bpow_le; lia|].
  unfold bpow. simpl. lra.
Qed.

(** One unit in the last place of a number below [2^36] is below [2^-15]. *)
Lemma ulp36 (X : R) :
  Rabs X <= bpow 36 -> Rabs X * bpow (-52) + bpow (-1074) <= bpow (-15).
Proof.
  intros H. pose proof (Rabs_pos X). pose proof bpow_tiny.
  rewrite bpow_m52, bpow_m15.
  assert (bpow 36 = 68719476736) by (unfold bpow; simpl; lra).
  lra.
Qed.

Lemma add36 (x y : number) :
  canonical x = true -> canonical y = true ->
  Rabs (F2R x + F2R y) <= bpow 36 ->
  canonical (add x y) = true /\
  Rabs (F2R (add x y) - (F2R x + F2R y)) <= bpow (-15).
Proof.
  intros Hx Hy Hm.
  destruct (add_real x y Hx Hy) as [Hc He].
  - pose proof (bpow_lt 36 1023 ltac:(lia)). lra.
  - split; [exact Hc|]. pose proof (ulp36 _ Hm). lra.
Qed.

Lemma sub36 (x y : number) :
  canonical x = true -> canonical y = true ->
  Rabs (F2R x - F2R y) <= bpow 36 ->
  canonical (sub x y) = true /\
  Rabs (F2R (sub x y) - (F2R x - F2R y)) <= bpow (-15).
Proof.
  intros Hx Hy Hm.
  destruct (sub_real x y Hx Hy) as [Hc He].
  - pose proof (bpow_lt 36 1023 ltac:(lia)). lra.
  - split; [exact Hc|]. pose proof (ulp36 _ Hm). lra.
Qed.

Lemma div36 (x y : number) :
  is_finite x = true -> is_finite y = true -> F2R y <> 0 ->
  Rabs (F2R x / F2R y) <= bpow 36 ->
  canonical (div x y) = true /\
  signbit (div x y) = xorb (signbit x) (signbit y) /\
  Rabs (F2R (div x y) - F2R x / F2R y) <= bpow (-15).
Proof.
  intros Hx Hy Hy0 Hm.
  destruct (div_real x y Hx Hy Hy0) as (Hc & Hs & He).
  - pose proof (bpow_lt 36 1023 ltac:(lia)). lra.
  - split; [exact Hc|]. split; [exact Hs|]. pose proof (ulp36 _ Hm). lra.
Qed.

Lemma round2_36 (x : number) :
  canonical x = true -> Rabs (F2R x) <= bpow 36 ->
  canonical (round2 x) = true /\
  Rabs (F2R (round2 x) - F2R x) <= / 200 + bpow (-15).
Proof.
  intros Hx Hm.
  destruct (round2_real x Hx) as [Hc He].
  - pose proof (bpow_le 36 900 ltac:(lia)). lra.
  - split; [exact Hc|].
    pose proof (Rabs_pos (F2R x)). pose proof bpow_tiny.
    rewrite bpow_m52 in He. rewrite bpow_m15.
    assert (bpow 36 = 68719476736) by (unfold bpow; simpl; lra).
    lra.
Qed.

(** The Number value of a tenant count is the count itself. *)
Lemma ofZ_count (n : nat) :
  (1 <= n)%nat -> (Z.of_nat n < 2 ^ 53)%Z ->
  canonical (ofZ (Z.of_nat n)) = true /\
  signbit (ofZ (Z.of_nat n)) = false /\
  F2R (ofZ (Z.of_nat n)) = INR n.
Proof.
  intros H1 H2. rewrite INR_IZR_INZ.
  destruct (Z.of_nat n) as [|p|p] eqn:E; try lia.
  unfold ofZ. cbn [binary_normalize].
  assert (Hd : (Zpos (digits2_pos p) <= 53)%Z).
  { change (Zpos (digits2_pos p)) with (Zdigits2 (Zpos p)).
    rewrite Zdigits2_log2 by lia.
    assert (Z.log2 (Zpos p) < 53)%Z by (apply Z.log2_lt_pow2; lia). lia. }
  destruct (binary_round_exact false p 0) as (Hc & Hs & Hv).
  - rewrite fexp_eq. lia.
  - lia.
  - split; [exact Hc|]. split; [exact Hs|]. rewrite Hv.
    unfold Rsgn. change (bpow 0) with 1. ring.
Qed.

End Magnitudes.

(** * The engine on numbers of moderate size *)

Section EngineLists.

Variable st : State.

Lemma usage_used : map used (usage st) = map Spec.usage (readings st).
Proof. unfold usage. rewrite map_map. reflexivity. Qed.

Lemma totalUsed_fold :
  totalUsed st = fold_left add (map Spec.usage (readings st)) zero.
Proof.
  unfold totalUsed. rewrite <- usage_used.
  generalize zero. induction (usage st) as [|u l IH]; intros acc; simpl;
    [reflexivity | apply IH].
Qed.

Lemma bonus_count :
  bonusPerTenant st
  = round2 (div (unaccounted st) (ofZ (Z.of_nat (tenants st)))).
Proof. unfold bonusPerTenant, usage, tenants. now rewrite length_map. Qed.

Lemma finalUnits_map :
  map (finalUnits st) (usage st)
  = map (fun u => add u (bonusPerTenant st)) (map Spec.usage (readings st)).
Proof. unfold usage. rewrite !map_map. reflexivity. Qed.

Lemma bills_map :
  map r_bill (results st)
  = map (fun u => round2 (mul (div (add u (bonusPerTenant st)) (totalUnits st))
                            (totalAmount st)))
      (map Spec.usage (readings st)).
Proof. unfold results, usage. rewrite !map_map. reflexivity. Qed.

End EngineLists.

Section Sums.

Local Open Scope R_scope.

Lemma Rsum_bound (C : R) (l : list R) :
  Forall (fun x => Rabs x <= C) l -> Rabs (Rsum l) <= INR (length l) * C.
Proof.
  induction 1 as [|x l Hx Hl IH]; cbn [Rsum fold_right length].
  - simpl. rewrite Rabs_R0. lra.
  - rewrite S_INR. fold (Rsum l).
    eapply Rle_trans; [apply Rabs_triang|]. lra.
Qed.

Lemma Rsum_pointwise {A : Type} (g h : A -> R) (c : R) (l : list A) :
  (forall x, In x l -> Rabs (g x - h x) <= c) ->
  Rabs (Rsum (map g l) - Rsum (map h l)) <= INR (length l) * c.
Proof.
  induction l as [|x l IH]; intros H; cbn [map Rsum fold_right length].
  - simpl. rewrite Rminus_diag, Rabs_R0. lra.
  - rewrite S_INR. fold (Rsum (map g l)). fold (Rsum (map h l)).
    replace (g x + Rsum (map g l) - (h x + Rsum (map h l)))
      with ((g x - h x) + (Rsum (map g l) - Rsum (map h l))) by ring.
    eapply Rle_trans; [apply Rabs_triang|].
    pose proof (H x (or_introl eq_refl)).
    pose proof (IH (fun y Hy => H y (or_intror Hy))). lra.
Qed.

Lemma Rsum_shift {A : Type} (g : A -> R) (b : R) (l : list A) :
  Rsum (map (fun x => g x + b) l) = Rsum (map g l) + INR (length l) * b.
Proof.
  induction l as [|x l IH]; cbn [map Rsum fold_right length].
  - simpl. ring.
  - rewrite S_INR. fold (Rsum (map g l)). fold (Rsum (map (fun x => g x + b) l)).
    rewrite IH. ring.
Qed.

Lemma Rsum_scale {A : Type} (g : A -> R) (k : R) (l : list A) :
  Rsum (map (fun x => k * g x) l) = k * Rsum (map g l).
Proof.
  induction l as [|x l IH]; cbn [map Rsum fold_right].
  - ring.
  - fold (Rsum (map g l)). fold (Rsum (map (fun x => k * g x) l)).
    rewrite IH. ring.
Qed.

(** The running total of [reduce]: canonical, and within [2^-15] per term of
    the exact sum, as long as everything stays below [2^36]. *)
Lemma fold_add_real (C : R) (l : list number) (acc : number) :
  0 <= C ->
  canonical acc = true ->
  Forall (fun u => canonical u = true /\ Rabs (F2R u) <= C) l ->
  Rabs (F2R acc) + INR (length l) * (C + bpow (-15)) <= bpow 36 ->
  canonical (fold_left add l acc) = true /\
  Rabs (F2R (fold_left add l acc) - (F2R acc + Rsum (map F2R l)))
  <= INR (length l) * bpow (-15).
Proof.
  intros HC. revert acc.
  pose proof (bpow_gt_0 (-15)) as Pe.
  induction l as [|u l IH]; intros acc Hacc Hl Hm; cbn [fold_left map Rsum fold_right length] in *.
  - split; [exact Hacc|]. simpl INR. rewrite Rmult_0_l, Rplus_0_r, Rminus_diag, Rabs_R0. lra.
  - fold (Rsum (map F2R l)). rewrite S_INR in *.
    inversion Hl as [|? ? [Hu Hub] Hl']; subst.
    pose proof (pos_INR (length l)) as Pn.
    pose proof (Rabs_pos (F2R acc)) as Pa.
    destruct (add36 acc u Hacc Hu) as [Hc1 He1].
    { eapply Rle_trans; [apply Rabs_triang|]. nra. }
    destruct (IH (add acc u) Hc1 Hl') as [Hc2 He2].
    { apply Rabs_bounds in He1.
      assert (Rabs (F2R (add acc u)) <= Rabs (F2R acc) + C + bpow (-15)).
      { apply Rabs_le. apply Rabs_bounds in Hub.
        pose proof (Rabs_bounds (F2R acc) _ (Rle_refl _)). lra. }
      nra. }
    split; [exact Hc2|].
    replace (F2R (fold_left add l (add acc u)) - (F2R acc + (F2R u + Rsum (map F2R l))))
      with ((F2R (fold_left add l (add acc u)) - (F2R (add acc u) + Rsum (map F2R l)))
            + (F2R (add acc u) - (F2R acc + F2R u))) by ring.
    eapply Rle_trans; [apply Rabs_triang|]. lra.
Qed.

End Sums.

Section Idempotence.

Local Open Scope R_scope.

Lemma canonical_cases (x : number) :
  canonical x = true ->
  (exists s, x = S754_zero s) \/ (exists s m e, x = S754_finite s m e).
Proof. intros H. apply finite_cases. now apply canonical_finite. Qed.

Lemma bpow_36 : bpow 36 = 68719476736.
Proof. unfold bpow. simpl. lra. Qed.

(** With a single tenant the bonus is the unaccounted units themselves:
    dividing by 1 and rounding to 2 decimals again changes nothing. *)
Lemma round2_div_one (d : number) :
  canonical d = true -> Rabs (F2R d) <= bpow 36 ->
  F2R (round2 (div (round2 d) (ofZ 1))) = F2R (round2 d).
Proof.
  intros Hd Hm.
  assert (Hone : ofZ 1 = S754_finite false 4503599627370496 (-52)) by reflexivity.
  assert (Fone : F2R (ofZ 1) = 1).
  { rewrite Hone, F2R_finite. unfold Rsgn, bpow. simpl. lra. }
  assert (Hzero : forall s, F2R (round2 (div (S754_zero s) (ofZ 1))) = 0).
  { intros s. rewrite Hone. reflexivity. }
  destruct d as [s|s| |s m e]; try discriminate.
  - change (round2 (S754_zero s)) with (S754_zero false). apply Hzero.
  - rewrite Rabs_F2R_finite in Hm. rewrite bpow_36 in Hm.
    set (v := IZR (Zpos m) * bpow e) in *.
    assert (Hbig : ge_1e21 m e = false).
    { apply ge_1e21_false. fold v. lra. }
    rewrite round2_finite by assumption.
    destruct (hundredths_spec m e) as [Hn0 [Hlo Hhi]]. fold v in Hlo, Hhi.
    set (n := hundredths m e) in *.
    destruct (Z.eq_dec n 0) as [->|Hnz].
    { change (cents s 0) with (S754_zero s). rewrite Hzero. reflexivity. }
    assert (Hn1 : 1 <= IZR n) by (apply IZR_le; lia).
    assert (Hnb : IZR n < bpow 1000).
    { pose proof (bpow_le 44 1000 ltac:(lia)).
      assert (bpow 44 = 17592186044416) by (unfold bpow; simpl; lra). lra. }
    destruct (cents_real s n Hn0 Hnb) as (Hca & Hsa & Hea).
    destruct (Hsa Hnz) as [Hsign Hnzero].
    set (a := cents s n) in *.
    pose proof bpow_tiny as Ht. pose proof (bpow_gt_0 (-1074)) as Pt.
    rewrite bpow_m52 in Hea.
    assert (Ha : exists ma ea, a = S754_finite s ma ea).
    { destruct (canonical_cases a Hca) as [[s' E]|(s' & ma & ea & E)].
      - rewrite E in Hsign. simpl in Hsign. subst s'. contradiction.
      - rewrite E in Hsign. simpl in Hsign. subst s'. eauto. }
    destruct Ha as (ma & ea & Ea).
    set (va := IZR (Zpos ma) * bpow ea).
    assert (Pva : 0 < va).
    { unfold va. pose proof (bpow_gt_0 ea).
      assert (0 < IZR (Zpos ma)) by (apply IZR_lt; lia). nra. }
    assert (Fa : F2R a = Rsgn s * va) by (rewrite Ea; apply F2R_finite).
    rewrite Fa, Rabs_Rsgn in Hea. apply Rabs_bounds in Hea.
    destruct (div_real a (ofZ 1)) as (Hcq & Hsq & Heq).
    { now apply canonical_finite. }
    { rewrite Hone. reflexivity. }
    { rewrite Fone. lra. }
    { rewrite Fone, Fa. unfold Rdiv. rewrite Rinv_1, Rmult_1_r.
      replace (Rsgn s * va) with (Rsgn s * va - Rsgn s * 0) by ring.
      rewrite Rabs_Rsgn, Rminus_0_r, Rabs_pos_eq by lra.
      pose proof (bpow_le 40 1023 ltac:(lia)).
      assert (bpow 40 = 1099511627776) by (unfold bpow; simpl; lra). lra. }
    set (q := div a (ofZ 1)) in *.
    rewrite Fone, Fa in Heq. unfold Rdiv in Heq. rewrite Rinv_1, Rmult_1_r in Heq.
    replace (Rabs (Rsgn s * va)) with va in Heq
      by (replace (Rsgn s * va) with (Rsgn s * va - Rsgn s * 0) by ring;
          rewrite Rabs_Rsgn, Rminus_0_r, Rabs_pos_eq by lra; reflexivity).
    rewrite bpow_m52 in Heq.
    rewrite Hsign, Hone in Hsq. simpl in Hsq. rewrite xorb_false_r in Hsq.
    assert (Hq : exists mq eq, q = S754_finite s mq eq).
    { destruct (canonical_cases q Hcq) as [[s' E]|(s' & mq & eq & E)].
      - exfalso. rewrite E in Heq. simpl F2R in Heq.
        rewrite Rminus_0_l, Rabs_Ropp in Heq.
        replace (Rsgn s * va) with (Rsgn s * va - Rsgn s * 0) in Heq by ring.
        rewrite Rabs_Rsgn, Rminus_0_r, Rabs_pos_eq in Heq by lra. lra.
      - rewrite E in Hsq. simpl in Hsq. subst s'. eauto. }
    destruct Hq as (mq & eq & Eq).
    rewrite Eq. rewrite Eq in Heq. rewrite F2R_finite, Rabs_Rsgn in Heq.
    apply Rabs_bounds in Heq.
    rewrite (round2_cents s mq eq n).
    + reflexivity.
    + assert (10 ^ 21 = 1000000000000000000000) by lra. lra.
    + apply Rabs_def1; lra.
Qed.

(** [round2] lands next to a whole number of hundredths. *)
Lemma round2_hundredth (x : number) :
  canonical x = true -> Rabs (F2R x) <= bpow 36 ->
  exists k : Z, Rabs (F2R (round2 x) - IZR k / 100) <= bpow (-15).
Proof.
  intros Hc Hm.
  pose proof bpow_tiny as Ht. pose proof (bpow_gt_0 (-1074)) as Pt.
  destruct x as [s|s| |s m e]; try discriminate.
  - exists 0%Z. change (round2 (S754_zero s)) with (S754_zero false).
    simpl F2R. unfold Rdiv. rewrite Rmult_0_l, Rminus_diag, Rabs_R0, bpow_m15. lra.
  - rewrite Rabs_F2R_finite, bpow_36 in Hm.
    set (v := IZR (Zpos m) * bpow e) in *.
    rewrite round2_finite by (apply ge_1e21_false; fold v; lra).
    destruct (hundredths_spec m e) as [Hn0 [Hlo Hhi]]. fold v in Hlo, Hhi.
    set (n := hundredths m e) in *.
    assert (Hnb : IZR n < bpow 1000).
    { pose proof (bpow_le 44 1000 ltac:(lia)).
      assert (bpow 44 = 17592186044416) by (unfold bpow; simpl; lra). lra. }
    destruct (cents_real s n Hn0 Hnb) as (_ & _ & He).
    rewrite bpow_m52 in He.
    exists (if s then (- n)%Z else n).
    replace (IZR (if s then (- n)%Z else n) / 100) with (Rsgn s * (IZR n / 100))
      by (destruct s; unfold Rsgn; rewrite ?opp_IZR; field).
    rewrite bpow_m15. lra.
Qed.

(** A number within a quarter of a hundredth of [k] hundredths is rounded
    by [round2] to the number nearest to them. *)
Lemma round2_snap (x : number) (k : Z) :
  canonical x = true -> Rabs (F2R x) <= bpow 36 ->
  Rabs (F2R x - IZR k / 100) <= / 400 ->
  Rabs (F2R (round2 x) - IZR k / 100) <= bpow (-15).
Proof.
  intros Hc Hm Hk.
  pose proof bpow_tiny as Ht. pose proof (bpow_gt_0 (-1074)) as Pt.
  apply Rabs_bounds in Hk.
  destruct x as [s|s| |s m e]; try discriminate.
  - simpl F2R in Hk.
    assert (k = 0%Z).
    { assert (IZR (-1) < IZR k) by lra. assert (IZR k < IZR 1) by lra.
      apply lt_IZR in H, H0. lia. }
    subst k. change (round2 (S754_zero s)) with (S754_zero false).
    simpl F2R. unfold Rdiv. rewrite Rmult_0_l, Rminus_diag, Rabs_R0, bpow_m15. lra.
  - rewrite Rabs_F2R_finite, bpow_36 in Hm. rewrite F2R_finite in Hk.
    set (v := IZR (Zpos m) * bpow e) in *.
    assert (Pv : 0 < v).
    { unfold v. pose proof (bpow_gt_0 e).
      assert (0 < IZR (Zpos m)) by (apply IZR_lt; lia). nra. }
    set (n := if s then (- k)%Z else k).
    assert (Hkn : IZR k / 100 = Rsgn s * (IZR n / 100))
      by (unfold n; destruct s; unfold Rsgn; rewrite ?opp_IZR; field).
    rewrite Hkn in *.
    assert (Hvn : - / 400 <= v - IZR n / 100 <= / 400)
      by (destruct s; unfold Rsgn in Hk; lra).
    assert (Hn0 : (0 <= n)%Z).
    { assert (IZR (-1) < IZR n) by lra. apply lt_IZR in H. lia. }
    rewrite (round2_cents s m e n).
    + assert (Hnb : IZR n < bpow 1000).
      { pose proof (bpow_le 44 1000 ltac:(lia)).
        assert (bpow 44 = 17592186044416) by (unfold bpow; simpl; lra). lra. }
      destruct (cents_real s n Hn0 Hnb) as (_ & _ & He).
      rewrite bpow_m52 in He. rewrite bpow_m15. lra.
    + fold v. assert (10 ^ 21 = 1000000000000000000000) by lra. lra.
    + fold v. apply Rabs_def1; lra.
Qed.

End Idempotence.

Section Reconcile.

Local Open Scope R_scope.

Variable st : State.
Variable K : Z.

Hypothesis Htenants : (1 <= tenants st)%nat.
Hypothesis HK : (0 <= K)%Z.
Hypothesis Hsize : (Z.of_nat (tenants st) * 2 ^ K <= 2 ^ 32)%Z.
Hypothesis Hunits : small K (totalUnits st) = true.
Hypothesis Hreadings :
  forall r, In r (readings st) ->
    small K (previous r) = true /\ small K (current r) = true.

Let N : R := INR (tenants st).
Let B : R := bpow K.
Let eta : R := / 32768.
Let us : list number := map Spec.usage (readings st).
Let b : number := bonusPerTenant st.

Lemma N_ge_1 : 1 <= N.
Proof. unfold N. replace 1 with (INR 1) by reflexivity. now apply le_INR. Qed.

Lemma B_ge_1 : 1 <= B.
Proof. unfold B. now apply bpow_ge_1. Qed.

Lemma NB_le : N * B <= 4294967296.
Proof.
  unfold N, B. rewrite INR_IZR_INZ, bpow_IZR by assumption.
  rewrite <- mult_IZR. apply IZR_le in Hsize.
  change (2 ^ 32)%Z with 4294967296%Z in Hsize. exact Hsize.
Qed.

Lemma N_count : (Z.of_nat (tenants st) < 2 ^ 53)%Z.
Proof.
  assert (0 < 2 ^ K)%Z by (apply Z.pow_pos_nonneg; lia).
  assert (Z.of_nat (tenants st) <= Z.of_nat (tenants st) * 2 ^ K)%Z by nia.
  change (2 ^ 32)%Z with 4294967296%Z in Hsize.
  change (2 ^ 53)%Z with 9007199254740992%Z. lia.
Qed.

Lemma used_ok (u : number) :
  In u us -> canonical u = true /\ Rabs (F2R u) <= 2 * B + 1.
Proof.
  unfold us. intros Hu. apply in_map_iff in Hu. destruct Hu as (r & <- & Hr).
  destruct (Hreadings r Hr) as [Hp Hc].
  apply small_real in Hp, Hc. destruct Hp as [Hp1 Hp2]. destruct Hc as [Hc1 Hc2].
  fold B in Hp2, Hc2.
  pose proof B_ge_1. pose proof N_ge_1. pose proof NB_le.
  apply Rabs_bounds in Hp2, Hc2.
  unfold Spec.usage.
  destruct (sub36 (current r) (previous r) Hc1 Hp1) as [Hd1 Hd2].
  { rewrite bpow_36. apply Rabs_le. nra. }
  rewrite bpow_m15 in Hd2. apply Rabs_bounds in Hd2.
  destruct (round2_36 (sub (current r) (previous r)) Hd1) as [Hu1 Hu2].
  { rewrite bpow_36. apply Rabs_le. nra. }
  rewrite bpow_m15 in Hu2. apply Rabs_bounds in Hu2.
  split; [exact Hu1|]. apply Rabs_le. lra.
Qed.

Lemma length_us : INR (length us) = N.
Proof. unfold us, N, tenants. now rewrite length_map. Qed.

Lemma total_ok :
  canonical (totalUsed st) = true /\
  Rabs (F2R (totalUsed st) - Rsum (map F2R us)) <= N * eta /\
  Rabs (F2R (totalUsed st)) <= N * (2 * B + 2).
Proof.
  pose proof B_ge_1. pose proof N_ge_1. pose proof NB_le.
  rewrite totalUsed_fold. fold us.
  assert (HF : Forall (fun u => canonical u = true /\ Rabs (F2R u) <= 2 * B + 1) us).
  { apply Forall_forall. exact used_ok. }
  destruct (fold_add_real (2 * B + 1) us zero) as [Hc He]; try assumption.
  - lra.
  - reflexivity.
  - rewrite length_us, bpow_m15, bpow_36. simpl F2R. rewrite Rabs_R0. nra.
  - rewrite length_us, bpow_m15 in He. simpl F2R in He. rewrite Rplus_0_l in He.
    split; [exact Hc|]. split; [exact He|].
    assert (Hs : Rabs (Rsum (map F2R us)) <= N * (2 * B + 1)).
    { rewrite <- length_us, <- (length_map F2R us). apply Rsum_bound.
      apply Forall_forall. intros x Hx. apply in_map_iff in Hx.
      destruct Hx as (u & <- & Hu). now apply used_ok. }
    apply Rabs_bounds in He, Hs. apply Rabs_le. unfold eta in He. nra.
Qed.

Lemma unaccounted_ok :
  canonical (sub (totalUnits st) (totalUsed st)) = true /\
  Rabs (F2R (sub (totalUnits st) (totalUsed st)) - (F2R (totalUnits st) - F2R (totalUsed st))) <= eta /\
  Rabs (F2R (sub (totalUnits st) (totalUsed st))) <= 5 * (N * B) + 1 /\
  canonical (unaccounted st) = true /\
  Rabs (F2R (unaccounted st) - F2R (sub (totalUnits st) (totalUsed st))) <= / 200 + eta /\
  Rabs (F2R (unaccounted st)) <= 5 * (N * B) + 2.
Proof.
  pose proof B_ge_1. pose proof N_ge_1. pose proof NB_le.
  destruct total_ok as (HcU & _ & HmU).
  destruct (small_real _ _ Hunits) as [HcT HmT]. fold B in HmT.
  apply Rabs_bounds in HmU, HmT.
  destruct (sub36 (totalUnits st) (totalUsed st) HcT HcU) as [Hd1 Hd2].
  { rewrite bpow_36. apply Rabs_le. nra. }
  rewrite bpow_m15 in Hd2. fold eta in Hd2.
  assert (Hd3 : Rabs (F2R (sub (totalUnits st) (totalUsed st))) <= 5 * (N * B) + 1).
  { apply Rabs_bounds in Hd2. apply Rabs_le. unfold eta in Hd2. nra. }
  unfold unaccounted.
  destruct (round2_36 (sub (totalUnits st) (totalUsed st)) Hd1) as [Ha1 Ha2].
  { rewrite bpow_36. lra. }
  rewrite bpow_m15 in Ha2. fold eta in Ha2.
  repeat split; try assumption.
  apply Rabs_bounds in Ha2, Hd3. apply Rabs_le. unfold eta in Ha2. lra.
Qed.

Lemma bonus_ok :
  canonical b = true /\
  Rabs (F2R b - F2R (unaccounted st) / N) <= / 200 + 2 * eta /\
  Rabs (F2R b) <= 5 * (N * B) + 3.
Proof.
  pose proof B_ge_1. pose proof N_ge_1 as HN1. pose proof NB_le.
  destruct unaccounted_ok as (_ & _ & _ & Ha1 & _ & Ha3).
  destruct (ofZ_count (tenants st) Htenants N_count) as (Hy1 & _ & Hy2).
  fold N in Hy2.
  assert (Hquot : Rabs (F2R (unaccounted st) / N) <= Rabs (F2R (unaccounted st))).
  { unfold Rdiv. rewrite Rabs_mult.
    rewrite (Rabs_pos_eq (/ N)) by (left; apply Rinv_0_lt_compat; lra).
    pose proof (Rabs_pos (F2R (unaccounted st))).
    assert (/ N <= 1) by (rewrite <- Rinv_1; apply Rinv_le_contravar; lra).
    nra. }
  unfold b. rewrite bonus_count.
  destruct (div36 (unaccounted st) (ofZ (Z.of_nat (tenants st)))) as (Hq1 & _ & Hq2).
  { now apply canonical_finite. }
  { now apply canonical_finite. }
  { rewrite Hy2. lra. }
  { rewrite Hy2, bpow_36. lra. }
  rewrite Hy2, bpow_m15 in Hq2. fold eta in Hq2.
  set (q := div (unaccounted st) (ofZ (Z.of_nat (tenants st)))) in *.
  assert (Hq3 : Rabs (F2R q) <= 5 * (N * B) + 3 - / 100).
  { assert (Hquot' : Rabs (F2R (unaccounted st) / N) <= 5 * (N * B) + 2) by lra.
    apply Rabs_bounds in Hq2, Hquot'. apply Rabs_le. unfold eta in Hq2. lra. }
  destruct (round2_36 q Hq1) as [Hb1 Hb2].
  { rewrite bpow_36. lra. }
  rewrite bpow_m15 in Hb2. fold eta in Hb2.
  split; [exact Hb1|]. split.
  - eapply Rle_trans; [apply (Rabs_triang3 _ (F2R q))|]. lra.
  - apply Rabs_bounds in Hb2, Hq3. apply Rabs_le. unfold eta in Hb2. lra.
Qed.

Lemma final_ok (u : number) :
  In u us ->
  canonical (add u b) = true /\
  Rabs (F2R (add u b) - (F2R u + F2R b)) <= eta /\
  Rabs (F2R (add u b)) <= 8 * (N * B) + 5.
Proof.
  intros Hu.
  pose proof B_ge_1. pose proof N_ge_1. pose proof NB_le.
  destruct (used_ok u Hu) as [Hu1 Hu2].
  destruct bonus_ok as (Hb1 & _ & Hb3).
  apply Rabs_bounds in Hu2, Hb3.
  destruct (add36 u b Hu1 Hb1) as [Hf1 Hf2].
  { rewrite bpow_36. apply Rabs_le. nra. }
  rewrite bpow_m15 in Hf2. fold eta in Hf2.
  split; [exact Hf1|]. split; [exact Hf2|].
  apply Rabs_bounds in Hf2. apply Rabs_le. unfold eta in Hf2. nra.
Qed.

Lemma sumFinalUnits_eq :
  sumFinalUnits st = Rsum (map (fun u => F2R (add u b)) us).
Proof.
  unfold sumFinalUnits. rewrite finalUnits_map, map_map. reflexivity.
Qed.

Lemma sum_final_split :
  Rabs (sumFinalUnits st - (Rsum (map F2R us) + N * F2R b)) <= N * eta.
Proof.
  rewrite sumFinalUnits_eq, <- length_us.
  rewrite <- (Rsum_shift F2R (F2R b) us).
  apply Rsum_pointwise. intros u Hu. now apply final_ok.
Qed.

(** With one tenant the bonus has the value of the unaccounted units. *)
Lemma bonus_single : tenants st = 1%nat -> F2R b = F2R (unaccounted st).
Proof.
  intros H1. unfold b. rewrite bonus_count, H1. unfold unaccounted.
  destruct unaccounted_ok as (Hd1 & _ & Hd3 & _).
  apply round2_div_one; [exact Hd1|].
  pose proof NB_le. rewrite bpow_36. lra.
Qed.

(** The heart of the reconciliation: the final units add up to the total
    units within [N/100 - N/8192]. *)
Lemma final_units_core :
  Rabs (sumFinalUnits st - F2R (totalUnits st)) <= N / 100 - N / 8192.
Proof.
  pose proof N_ge_1 as HN1.
  destruct total_ok as (_ & HU & _).
  destruct unaccounted_ok as (_ & Hd & _ & _ & Ha & _).
  destruct bonus_ok as (_ & Hb & _).
  pose proof sum_final_split as Hs.
  set (SF := sumFinalUnits st) in *. set (SU := Rsum (map F2R us)) in *.
  set (T := F2R (totalUnits st)) in *. set (U := F2R (totalUsed st)) in *.
  set (d := F2R (sub (totalUnits st) (totalUsed st))) in *.
  set (a := F2R (unaccounted st)) in *. set (vb := F2R b) in *.
  apply Rabs_bounds in HU, Hd, Ha, Hs.
  unfold eta in *.
  destruct (Nat.eq_dec (tenants st) 1) as [E1|Ne1].
  - pose proof (bonus_single E1) as Hba. fold vb a in Hba.
    assert (HN : N = 1) by (unfold N; rewrite E1; reflexivity).
    rewrite HN in *. apply Rabs_le. lra.
  - assert (HN2 : 2 <= N).
    { unfold N. replace 2 with (INR 2) by (simpl; lra). apply le_INR. lia. }
    apply Rabs_bounds in Hb.
    assert (Hb' : - (N * (/ 200 + 2 * / 32768)) <= N * vb - a <= N * (/ 200 + 2 * / 32768)).
    { replace (N * vb - a) with (N * (vb - a / N)) by (field; lra).
      split; nra. }
    apply Rabs_le. lra.
Qed.

(** The final units of the result table: [usage + bonus] to 2 decimals. *)
Lemma shown_ok (u : number) :
  In u us ->
  canonical (round2 (add u b)) = true /\
  Rabs (F2R (round2 (add u b)) - (F2R u + F2R b)) <= 3 * eta.
Proof.
  intros Hu.
  pose proof NB_le as HNB.
  destruct (final_ok u Hu) as (Hf1 & Hf2 & Hf3).
  destruct (round2_36 (add u b) Hf1) as [Hc _]; [rewrite bpow_36; lra|].
  split; [exact Hc|].
  assert (Hku : exists k, Rabs (F2R u - IZR k / 100) <= eta).
  { unfold us in Hu. apply in_map_iff in Hu. destruct Hu as (r & <- & Hr).
    destruct (Hreadings r Hr) as [Hp Hcur].
    apply small_real in Hp, Hcur. destruct Hp as [Hp1 Hp2]. destruct Hcur as [Hc1 Hc2].
    fold B in Hp2, Hc2. pose proof B_ge_1. pose proof N_ge_1.
    apply Rabs_bounds in Hp2, Hc2.
    destruct (sub36 (current r) (previous r) Hc1 Hp1) as [Hd1 Hd2].
    { rewrite bpow_36. apply Rabs_le. nra. }
    rewrite bpow_m15 in Hd2. apply Rabs_bounds in Hd2.
    unfold Spec.usage. unfold eta. rewrite <- bpow_m15.
    apply round2_hundredth; [exact Hd1|].
    rewrite bpow_36. apply Rabs_le. nra. }
  assert (Hkb : exists k, Rabs (F2R b - IZR k / 100) <= eta).
  { unfold b. rewrite bonus_count.
    destruct unaccounted_ok as (_ & _ & _ & Ha1 & _ & Ha3).
    destruct (ofZ_count (tenants st) Htenants N_count) as (Hy1 & _ & Hy2).
    fold N in Hy2. pose proof N_ge_1 as HN1.
    assert (Hquot : Rabs (F2R (unaccounted st) / N) <= Rabs (F2R (unaccounted st))).
    { unfold Rdiv. rewrite Rabs_mult.
      rewrite (Rabs_pos_eq (/ N)) by (left; apply Rinv_0_lt_compat; lra).
      pose proof (Rabs_pos (F2R (unaccounted st))).
      assert (/ N <= 1) by (rewrite <- Rinv_1; apply Rinv_le_contravar; lra).
      nra. }
    destruct (div36 (unaccounted st) (ofZ (Z.of_nat (tenants st)))) as (Hq1 & _ & Hq2).
    { now apply canonical_finite. }
    { now apply canonical_finite. }
    { rewrite Hy2. lra. }
    { rewrite Hy2, bpow_36. lra. }
    rewrite Hy2, bpow_m15 in Hq2.
    unfold eta. rewrite <- bpow_m15.
    apply round2_hundredth; [exact Hq1|].
    assert (Hquot' : Rabs (F2R (unaccounted st) / N) <= 5 * (N * B) + 2) by lra.
    apply Rabs_bounds in Hq2, Hquot'. rewrite bpow_36. apply Rabs_le. lra. }
  destruct Hku as (ku & Hku). destruct Hkb as (kb & Hkb).
  unfold eta in *. apply Rabs_bounds in Hf2, Hku, Hkb.
  assert (Hsnap : Rabs (F2R (round2 (add u b)) - IZR (ku + kb) / 100) <= bpow (-15)).
  { apply round2_snap; [exact Hf1 | rewrite bpow_36; lra |].
    rewrite plus_IZR. apply Rabs_le. lra. }
  rewrite bpow_m15, plus_IZR in Hsnap. apply Rabs_bounds in Hsnap.
  apply Rabs_le. lra.
Qed.

Lemma sumShownUnits_eq :
  sumShownUnits st = Rsum (map (fun u => F2R (round2 (add u b))) us).
Proof.
  unfold sumShownUnits, results, usage, us. rewrite !map_map. reflexivity.
Qed.

(** The same reconciliation for the final units as the table shows them. *)
Lemma shown_units_core :
  Rabs (sumShownUnits st - F2R (totalUnits st)) <= N / 100.
Proof.
  pose proof N_ge_1 as HN1.
  destruct total_ok as (_ & HU & _).
  destruct unaccounted_ok as (_ & Hd & _ & _ & Ha & _).
  destruct bonus_ok as (_ & Hb & _).
  assert (Hs : Rabs (sumShownUnits st - (Rsum (map F2R us) + N * F2R b)) <= N * (3 * eta)).
  { rewrite sumShownUnits_eq, <- length_us.
    rewrite <- (Rsum_shift F2R (F2R b) us).
    apply Rsum_pointwise. intros u Hu. now apply shown_ok. }
  set (SF := sumShownUnits st) in *. set (SU := Rsum (map F2R us)) in *.
  set (T := F2R (totalUnits st)) in *. set (U := F2R (totalUsed st)) in *.
  set (d := F2R (sub (totalUnits st) (totalUsed st))) in *.
  set (a := F2R (unaccounted st)) in *. set (vb := F2R b) in *.
  apply Rabs_bounds in HU, Hd, Ha, Hs.
  unfold eta in *.
  destruct (Nat.eq_dec (tenants st) 1) as [E1|Ne1].
  - pose proof (bonus_single E1) as Hba. fold vb a in Hba.
    assert (HN : N = 1) by (unfold N; rewrite E1; reflexivity).
    rewrite HN in *. apply Rabs_le. lra.
  - assert (HN2 : 2 <= N).
    { unfold N. replace 2 with (INR 2) by (simpl; lra). apply le_INR. lia. }
    apply Rabs_bounds in Hb.
    assert (Hb' : - (N * (/ 200 + 2 * / 32768)) <= N * vb - a <= N * (/ 200 + 2 * / 32768)).
    { replace (N * vb - a) with (N * (vb - a / N)) by (field; lra).
      split; nra. }
    apply Rabs_le. lra.
Qed.

Hypothesis Hamount : small K (totalAmount st) = true.
Hypothesis Hunits1 : / 100 <= F2R (totalUnits st).

Let T : R := F2R (totalUnits st).
Let A : R := F2R (totalAmount st).
Let P : R := Rabs A / T.

Lemma P_nonneg : 0 <= P.
Proof.
  unfold P, Rdiv. apply Rmult_le_pos; [apply Rabs_pos|].
  left. apply Rinv_0_lt_compat. unfold T. lra.
Qed.

Lemma amount_le : Rabs A <= 4294967296.
Proof.
  destruct (small_real _ _ Hamount) as [_ Hm]. fold A in Hm.
  pose proof NB_le as HNB.
  pose proof N_ge_1 as HN1. pose proof B_ge_1 as HB1.
  fold B in Hm. nra.
Qed.

Lemma bill_ok (u : number) :
  In u us ->
  let f := add u b in
  let bl := round2 (mul (div f (totalUnits st)) (totalAmount st)) in
  canonical bl = true /\
  Rabs (F2R bl - A / T * F2R f) <= / 200 + P / 16384 + / 1099511627776.
Proof.
  intros Hu f bl.
  destruct (final_ok u Hu) as (Hf1 & _ & Hf3).
  fold f in Hf1, Hf3.
  pose proof NB_le as HNB.
  pose proof P_nonneg as HP. pose proof amount_le as HA.
  destruct (small_real _ _ Hunits) as [HcT _].
  destruct (small_real _ _ Hamount) as [HcA _].
  assert (HT1 : / 100 <= T) by exact Hunits1.
  assert (HF : Rabs (F2R f) <= 68719476736) by lra.
  pose proof (Rabs_pos (F2R f)) as PF. pose proof (Rabs_pos A) as PA.
  set (X0 := Rabs (F2R f) / T).
  assert (HX0 : 0 <= X0 <= 100 * Rabs (F2R f)).
  { unfold X0, Rdiv.
    assert (0 < / T <= 100).
    { split; [apply Rinv_0_lt_compat; lra|].
      replace 100 with (/ / 100) by field. apply Rinv_le_contravar; lra. }
    nra. }
  assert (Habsq : Rabs (F2R f / T) = X0).
  { unfold X0, Rdiv. rewrite Rabs_mult. f_equal.
    apply Rabs_pos_eq. left. apply Rinv_0_lt_compat. lra. }
  pose proof bpow_tiny as Ht. pose proof (bpow_gt_0 (-1074)) as Pt.
  set (tiny := bpow (-1074)) in *.
  (* the share *)
  destruct (div_real f (totalUnits st)) as (Hs1 & _ & Hs2).
  { now apply canonical_finite. }
  { now apply canonical_finite. }
  { fold T. lra. }
  { fold T. rewrite Habsq. pose proof (bpow_le 44 1023 ltac:(lia)).
    assert (bpow 44 = 17592186044416) by (unfold bpow; simpl; lra). lra. }
  fold T in Hs2. rewrite Habsq, bpow_m52 in Hs2. fold tiny in Hs2.
  set (s := div f (totalUnits st)) in *.
  assert (HS : Rabs (F2R s) <= X0 + X0 * / 4503599627370496 + tiny).
  { apply Rabs_bounds in Hs2. rewrite <- Habsq in *.
    pose proof (Rabs_bounds (F2R f / T) _ (Rle_refl _)).
    apply Rabs_le. lra. }
  set (W := X0 * Rabs A).
  set (c := Rabs A * tiny).
  assert (HW : 0 <= W <= 68719476736 * P).
  { unfold W, X0, P. unfold Rdiv.
    replace (Rabs (F2R f) * / T * Rabs A) with (Rabs (F2R f) * (Rabs A * / T)) by ring.
    assert (0 <= Rabs A * / T).
    { apply Rmult_le_pos; [lra|]. left. apply Rinv_0_lt_compat. lra. }
    nra. }
  assert (Hc : 0 <= c <= / 295147905179352825856).
  { unfold c. nra. }
  assert (HSA : Rabs (F2R s) * Rabs A <= W + W * / 4503599627370496 + c).
  { unfold W, c. nra. }
  assert (HSA0 : 0 <= Rabs (F2R s) * Rabs A).
  { apply Rmult_le_pos; [apply Rabs_pos | lra]. }
  (* the bill before rounding *)
  destruct (mul_real s (totalAmount st) Hs1 HcA) as (Hm1 & _ & Hm2).
  { fold A. rewrite Rabs_mult.
    pose proof (bpow_le 80 1023 ltac:(lia)).
    assert (bpow 80 = 1208925819614629174706176) by (unfold bpow; simpl; lra).
    nra. }
  fold A in Hm2. rewrite Rabs_mult, bpow_m52 in Hm2. fold tiny in Hm2.
  set (m := mul s (totalAmount st)) in *.
  assert (HM : Rabs (F2R m)
               <= Rabs (F2R s) * Rabs A
                  + Rabs (F2R s) * Rabs A * / 4503599627370496 + tiny).
  { apply Rabs_bounds in Hm2.
    assert (Rabs (F2R s * A) = Rabs (F2R s) * Rabs A) by apply Rabs_mult.
    pose proof (Rabs_bounds (F2R s * A) _ (Rle_refl _)).
    apply Rabs_le. lra. }
  (* the bill *)
  destruct (round2_real m Hm1) as [Hb1 Hb2].
  { pose proof (bpow_le 80 900 ltac:(lia)).
    assert (bpow 80 = 1208925819614629174706176) by (unfold bpow; simpl; lra).
    nra. }
  rewrite bpow_m52 in Hb2. fold tiny in Hb2. fold bl in Hb1, Hb2.
  split; [exact Hb1|].
  assert (Hsa : Rabs (F2R s * A - A / T * F2R f) <= W * / 4503599627370496 + c).
  { replace (F2R s * A - A / T * F2R f) with ((F2R s - F2R f / T) * A) by (field; lra).
    rewrite Rabs_mult. unfold W, c.
    pose proof (Rabs_pos (F2R s - F2R f / T)). nra. }
  replace (F2R bl - A / T * F2R f)
    with ((F2R bl - F2R m) + ((F2R m - F2R s * A) + (F2R s * A - A / T * F2R f))) by ring.
  eapply Rle_trans; [apply Rabs_triang|].
  eapply Rle_trans; [apply Rplus_le_compat_l, Rabs_triang|].
  lra.
Qed.

Lemma sumBills_eq :
  sumBills st
  = Rsum (map (fun u => F2R (round2 (mul (div (add u b) (totalUnits st)) (totalAmount st)))) us).
Proof. unfold sumBills. rewrite bills_map, map_map. reflexivity. Qed.

Lemma bills_core :
  Rabs (sumBills st - A) <= N / 100 * (1 + P).
Proof.
  pose proof N_ge_1 as HN1.
  pose proof P_nonneg as HP.
  pose proof final_units_core as Hcore. fold T in Hcore.
  assert (Hsum : Rabs (sumBills st - A / T * sumFinalUnits st)
                 <= N * (/ 200 + P / 16384 + / 1099511627776)).
  { rewrite sumBills_eq, sumFinalUnits_eq.
    rewrite <- Rsum_scale.
    rewrite <- length_us.
    apply Rsum_pointwise. intros u Hu. now apply bill_ok. }
  assert (HT1 : / 100 <= T) by exact Hunits1.
  assert (Hprice : Rabs (A / T * sumFinalUnits st - A)
                   <= P * (N / 100 - N / 8192)).
  { replace (A / T * sumFinalUnits st - A) with (A / T * (sumFinalUnits st - T))
      by (field; lra).
    rewrite Rabs_mult.
    replace (Rabs (A / T)) with P.
    - apply Rmult_le_compat_l; assumption.
    - unfold P, Rdiv. rewrite Rabs_mult. f_equal. symmetry.
      apply Rabs_pos_eq. left. apply Rinv_0_lt_compat. lra. }
  replace (sumBills st - A)
    with ((sumBills st - A / T * sumFinalUnits st) + (A / T * sumFinalUnits st - A)) by ring.
  eapply Rle_trans; [apply Rabs_triang|].
  assert (0 <= N * P) by nra.
  nra.
Qed.

End Reconcile.

(** * Signs *)

Section Signs.

Lemma binary_round_aux_signed (sx : bool) (mx ex : Z) (lx : location) :
  0 <= mx -> signed sx (binary_round_aux prec emax sx mx ex lx).
Proof.
  intros Hmx. unfold binary_round_aux.
  destruct (shr_fexp_spec mx ex lx Hmx) as [Hm1 _].
  destruct (shr_fexp prec emax mx ex lx) as [mrs' e'].
  cbn [fst] in Hm1.
  assert (H1 : 0 <= shr_m mrs').
  { rewrite Hm1. apply Z.div_pos; [assumption|]. apply Z.pow_pos_nonneg; lia. }
  pose proof (round_nearest_even_range (shr_m mrs') (loc_of_shr_record mrs')) as H2.
  set (m2 := round_nearest_even (shr_m mrs') (loc_of_shr_record mrs')) in *.
  assert (Hm2 : 0 <= m2) by lia.
  destruct (shr_fexp_spec m2 e' loc_Exact Hm2) as [Hm3 _].
  destruct (shr_fexp prec emax m2 e' loc_Exact) as [mrs'' e''].
  cbn [fst] in Hm3.
  assert (H3 : 0 <= shr_m mrs'').
  { rewrite Hm3. apply Z.div_pos; [assumption|]. apply Z.pow_pos_nonneg; lia. }
  destruct (shr_m mrs'') as [|p|p]; [left; reflexivity | | lia].
  destruct (e'' <=? emax - prec); right; [right; eauto | left; reflexivity].
Qed.

Lemma div_signed (s : bool) (x y : number) :
  signed s x -> (exists m e, y = S754_finite false m e) ->
  signed s (div x y).
Proof.
  intros Hx (my & ey & ->).
  destruct Hx as [->|[->|(mx & ex & ->)]].
  - left. simpl. now rewrite xorb_false_r.
  - right. left. simpl. now rewrite xorb_false_r.
  - unfold div, SFdiv.
    destruct (div_core_spec mx my ex ey) as (q & e' & l & Hcore & Hq0 & _).
    rewrite Hcore. rewrite xorb_false_r. now apply binary_round_aux_signed.
Qed.

Lemma round2_signed_neg (x : number) :
  signed true x -> leb (round2 x) zero = true.
Proof.
  intros [->|[->|(m & e & ->)]]; try reflexivity.
  unfold round2, toFixed2. destruct (ge_1e21 m e); [reflexivity|].
  cbn [parseFloat]. destruct (Z.to_N (hundredths m e)) as [|n]; [reflexivity|].
  destruct (div_signed true (S754_finite true n 0) (S754_finite false 100 0))
    as [->|[->|(m' & e' & ->)]]; try reflexivity.
  - right. right. eauto.
  - eauto.
Qed.

(** On a negative argument [round2] gives a negative number, unless the
    argument prints as 0.00, when it gives zero. *)
Lemma round2_signed_neg_cases (x : number) :
  signed true x ->
  ltb (round2 x) zero = true \/
  (is_zero (round2 x) = true /\ exists s, toFixed2 x = FixedPoint s 0).
Proof.
  intros [->|[->|(m & e & ->)]].
  - right. split; [reflexivity|]. exists false. reflexivity.
  - left. reflexivity.
  - destruct (ge_1e21 m e) eqn:Hbig.
    + left. unfold round2, toFixed2. rewrite Hbig. reflexivity.
    + destruct (hundredths_spec m e) as [Hn0 [Hlo _]].
      apply ge_1e21_false_inv in Hbig as Hv.
      destruct (Z.eq_dec (hundredths m e) 0) as [Hz|Hnz].
      * right. unfold round2, toFixed2.
        rewrite (ge_1e21_false m e Hv), Hz.
        split; [reflexivity|]. exists true. reflexivity.
      * left. rewrite round2_finite by now apply ge_1e21_false.
        assert (Hnb : (IZR (hundredths m e) < bpow 1000)%R).
        { pose proof (bpow_le 80 1000 ltac:(lia)).
          assert (bpow 80 = 1208925819614629174706176)%R by (unfold bpow; simpl; lra).
          assert (10 ^ 21 = 1000000000000000000000)%R by lra. lra. }
        destruct (cents_real true (hundredths m e) Hn0 Hnb) as (Hc & Hs & _).
        destruct (Hs Hnz) as [Hsign Hne].
        destruct (canonical_cases _ Hc) as [[s' E]|(s' & m' & e' & E)];
          rewrite E in *; simpl in Hsign; subst s'.
        -- contradiction.
        -- reflexivity.
Qed.

Lemma ltb_zero_signed (x : number) : ltb x zero = true -> signed true x.
Proof.
  destruct x as [s|s| |s m e]; try discriminate.
  - destruct s; try discriminate. intros _. right. left. reflexivity.
  - destruct s; try discriminate. intros _. right. right. eauto.
Qed.

Lemma ofZ_count_finite (n : nat) :
  (1 <= n)%nat -> (Z.of_nat n < 2 ^ 53)%Z ->
  exists m e, ofZ (Z.of_nat n) = S754_finite false m e.
Proof.
  intros H1 H2.
  destruct (ofZ_count n H1 H2) as (Hc & Hs & Hv).
  destruct (canonical_cases _ Hc) as [[s E]|(s & m & e & E)].
  - rewrite E in Hv. simpl in Hv.
    assert (1 <= INR n)%R by (replace 1%R with (INR 1) by reflexivity; now apply le_INR).
    lra.
  - rewrite E in Hs. simpl in Hs. subst s. eauto.
Qed.

End Signs.

(** * The allocation engine *)

Section ResultTable.

Variable st : State.

Lemma results_length : length (results st) = tenants st.
Proof. unfold results, usage, tenants. now rewrite !length_map. Qed.

Lemma in_results (r : CalculationResult) :
  In r (results st) ->
  exists u, In u (usage st) /\
    r = mkResult (name (reading u)) (used u) (bonusPerTenant st)
          (round2 (finalUnits st u)) (round2 (bill st u))
          (round2 (mul (share st u) (ofZ 100))).
Proof.
  unfold results. intros H. apply in_map_iff in H.
  destruct H as (u & <- & Hu). now exists u.
Qed.

End ResultTable.

(** C6. In one computation every tenant's result carries the same bonus: the
    value [bonusPerTenant], the unaccounted units divided by the number of
    tenants and rounded to 2 decimals, in which no tenant's usage occurs
    apart from the total. *)
Theorem bonus_identical (st : State) (r1 r2 : CalculationResult) :
  (1 <= tenants st)%nat ->
  In r1 (results st) -> In r2 (results st) ->
  r_bonus r1 = r_bonus r2 /\
  r_bonus r1 = round2 (div (unaccounted st) (ofZ (Z.of_nat (tenants st)))).
Proof.
  intros _ H1 H2.
  apply in_results in H1. destruct H1 as (u1 & _ & ->).
  apply in_results in H2. destruct H2 as (u2 & _ & ->).
  split; [reflexivity|]. simpl.
  unfold bonusPerTenant, usage, tenants. now rewrite length_map.
Qed.

Lemma bonus_identical_witness :
  r_bonus (nth 0 (results initialState) (mkResult [] zero zero zero zero zero))
  = r_bonus (nth 1 (results initialState) (mkResult [] zero zero zero zero zero)).
Proof.
  apply (bonus_identical initialState).
  - vm_compute. lia.
  - vm_compute. left. reflexivity.
  - vm_compute. right. left. reflexivity.
Defined.

(** ** Total units purchased = 0 *)

Section DivisionByZero.

Lemma div_by_zero_not_finite (x : number) (s : bool) :
  is_finite (div x (S754_zero s)) = false.
Proof. destruct x; reflexivity. Qed.

Lemma mul_not_finite (x y : number) :
  is_finite x = false -> is_finite (mul x y) = false.
Proof. destruct x; try discriminate; destruct y; reflexivity. Qed.

Lemma round2_not_finite (x : number) :
  is_finite x = false -> is_finite (round2 x) = false.
Proof. destruct x; try discriminate; reflexivity. Qed.

End DivisionByZero.

(** C4, as stated, fails: with total units 0 and the initial readings, the
    bill and the percentage of the first row of the result table are not
    finite numbers. *)
Lemma zero_units_reach_table :
  totalUnits clearedUnits = zero /\
  ~ (forall r, In r (results clearedUnits) ->
       is_finite (r_bill r) = true /\ is_finite (r_percentage r) = true).
Proof.
  split; [reflexivity|]. intros H.
  destruct (H (nth 0 (results clearedUnits) noResult)) as [Hb _].
  - vm_compute. left. reflexivity.
  - vm_compute in Hb. discriminate.
Qed.

(** C4, amended.  When total units purchased is 0 (either zero of binary64)
    the computation still returns one result per tenant, and nothing in it
    replaces the undefined values: the unit price, and the bill and the
    percentage of every row of the result table, are Infinity, -Infinity or
    NaN. *)
Theorem zero_units_degenerate (st : State) (s : bool) :
  totalUnits st = S754_zero s ->
  length (results st) = tenants st /\
  is_finite (unitPrice st) = false /\
  forall r, In r (results st) ->
    is_finite (r_bill r) = false /\ is_finite (r_percentage r) = false.
Proof.
  intros Hz. split; [apply results_length|]. split.
  - unfold unitPrice. rewrite Hz. apply div_by_zero_not_finite.
  - intros r Hr. apply in_results in Hr. destruct Hr as (u & _ & ->). simpl.
    assert (Hs : is_finite (share st u) = false).
    { unfold share. rewrite Hz. apply div_by_zero_not_finite. }
    split; apply round2_not_finite.
    + unfold bill. now apply mul_not_finite.
    + now apply mul_not_finite.
Qed.

Lemma zero_units_degenerate_witness :
  length (results clearedUnits) = 2%nat /\
  is_finite (unitPrice clearedUnits) = false.
Proof.
  destruct (zero_units_degenerate clearedUnits false) as (Hl & Hu & _).
  - reflexivity.
  - split; [exact Hl | exact Hu].
Defined.

(** ** The worked example *)

(** C5, as stated, fails on the two bills: the table holds 7020.45 and
    4979.55, each more than 0.4 away from the 7020.9 and 4979.1 that the
    specification gives. *)
Lemma example_bills_off :
  let rA := nth 0 (results initialState) noResult in
  let rB := nth 1 (results initialState) noResult in
  (Rabs (F2R (r_bill rA) - 7020.9) > 0.4)%R /\
  (Rabs (F2R (r_bill rB) - 4979.1) > 0.4)%R.
Proof.
  assert (EA : r_bill (nth 0 (results initialState) noResult)
               = S754_finite false 7719066407220019 (-40)) by (vm_compute; reflexivity).
  assert (EB : r_bill (nth 1 (results initialState) noResult)
               = S754_finite false 5475073126091981 (-40)) by (vm_compute; reflexivity).
  cbv zeta. rewrite EA, EB. F2R_eval. split; Rabs_case.
Qed.

(** C5, amended.  On the initial state (total units 52.8, total amount 12000,
    A: 97.87 to 126.95, B: 155.3 to 175.4): usage A = 29.08, usage B = 20.1,
    total used = 49.18, unaccounted = 3.62, bonus = 1.81 in both rows, final
    units A = 30.89, final units B = 21.91, the unit price prints as 227.27,
    bill A = 7020.45 and bill B = 4979.55, shares 58.5 and 41.5 per cent. *)
Theorem worked_example :
  results initialState =
    [ mkResult (js "Tenant A") (literal 2908 2) (literal 181 2) (literal 3089 2)
        (literal 702045 2) (literal 585 1);
      mkResult (js "Tenant B") (literal 201 1) (literal 181 2) (literal 2191 2)
        (literal 497955 2) (literal 415 1) ] /\
  totalUsed initialState = literal 4918 2 /\
  unaccounted initialState = literal 362 2 /\
  bonusPerTenant initialState = literal 181 2 /\
  toFixed2 (unitPrice initialState) = FixedPoint false 22727.
Proof. vm_compute. repeat split; reflexivity. Qed.

(** ** Reconciliation of the totals *)

(** C2, as stated, fails: three idle tenants under 1e17 purchased units get
    33333333333333332 units each, 4 units short of the total in sum, whether
    the final units are taken as [used + bonus] or as the table shows them. *)
Lemma final_units_off_by_four :
  let st := idleState 3 (ofZ (10 ^ 17)) (ofZ 12000) in
  (1 <= tenants st)%nat /\
  ~ (Rabs (sumFinalUnits st - F2R (totalUnits st)) <= 0.01 * INR (tenants st))%R /\
  ~ (Rabs (sumShownUnits st - F2R (totalUnits st)) <= 0.01 * INR (tenants st))%R.
Proof.
  cbv zeta. split; [vm_compute; lia|].
  unfold sumFinalUnits, sumShownUnits.
  assert (E : map (finalUnits (idleState 3 (ofZ (10 ^ 17)) (ofZ 12000)))
                (usage (idleState 3 (ofZ (10 ^ 17)) (ofZ 12000)))
              = let x := S754_finite false 8333333333333333 2 in [x; x; x])
    by (vm_compute; reflexivity).
  assert (E' : map r_finalUnits (results (idleState 3 (ofZ (10 ^ 17)) (ofZ 12000)))
              = let x := S754_finite false 8333333333333333 2 in [x; x; x])
    by (vm_compute; reflexivity).
  rewrite E, E'.
  assert (T : totalUnits (idleState 3 (ofZ (10 ^ 17)) (ofZ 12000))
              = S754_finite false 6250000000000000 4) by (vm_compute; reflexivity).
  rewrite T.
  change (tenants _) with 3%nat.
  cbv zeta. unfold Rsum, map, fold_right, INR. F2R_eval.
  split; intros H; revert H; Rabs_case.
Qed.

(** C3, as stated, fails: three idle tenants under 10 purchased units billed
    12000 get a bonus of 3.33 units and a bill of 3996 each, 11988 in sum. *)
Lemma bills_off_by_twelve :
  let st := idleState 3 (ofZ 10) (ofZ 12000) in
  (1 <= tenants st)%nat /\
  sumBills st = 11988%R /\ F2R (totalAmount st) = 12000%R /\
  ~ (Rabs (sumBills st - F2R (totalAmount st)) <= 0.01 * INR (tenants st))%R.
Proof.
  cbv zeta. split; [vm_compute; lia|].
  unfold sumBills.
  assert (E : map r_bill (results (idleState 3 (ofZ 10) (ofZ 12000)))
              = let x := S754_finite false 8787296929185792 (-41) in [x; x; x])
    by (vm_compute; reflexivity).
  rewrite E.
  assert (T : totalAmount (idleState 3 (ofZ 10) (ofZ 12000))
              = S754_finite false 6597069766656000 (-39)) by (vm_compute; reflexivity).
  rewrite T.
  change (tenants _) with 3%nat.
  cbv zeta. unfold Rsum, map, fold_right, INR. F2R_eval.
  split; [lra|]. split; [lra|]. intros H. revert H. Rabs_case.
Qed.

(** C2, amended.  For a store of N >= 1 tenants whose readings, like the
    total units purchased, are binary64 numbers below 2^K in absolute value,
    with N * 2^K <= 2^32: every tenant's final units (usage + bonus) are a
    finite number, and their sum equals the total units purchased within
    0.01 * N; so does the sum of the final units the result table shows. *)
Theorem final_units_reconcile (st : State) (K : Z) :
  (1 <= tenants st)%nat ->
  (0 <= K)%Z ->
  (Z.of_nat (tenants st) * 2 ^ K <= 2 ^ 32)%Z ->
  small K (totalUnits st) = true ->
  (forall r, In r (readings st) ->
     small K (previous r) = true /\ small K (current r) = true) ->
  (forall u, In u (usage st) -> canonical (finalUnits st u) = true) /\
  (forall r, In r (results st) -> canonical (r_finalUnits r) = true) /\
  (Rabs (sumFinalUnits st - F2R (totalUnits st)) <= 0.01 * INR (tenants st))%R /\
  (Rabs (sumShownUnits st - F2R (totalUnits st)) <= 0.01 * INR (tenants st))%R.
Proof.
  intros HN HK Hsize HT HR. split; [|split; [|split]].
  - intros u Hu. unfold finalUnits.
    apply (final_ok st K HN HK Hsize HT HR).
    rewrite <- usage_used. now apply in_map.
  - intros r Hr. apply in_results in Hr. destruct Hr as (u & Hu & ->).
    cbn [r_finalUnits]. unfold finalUnits.
    apply (shown_ok st K HN HK Hsize HT HR).
    rewrite <- usage_used. now apply in_map.
  - pose proof (final_units_core st K HN HK Hsize HT HR) as H.
    pose proof (pos_INR (tenants st)). lra.
  - pose proof (shown_units_core st K HN HK Hsize HT HR) as H. lra.
Qed.

Lemma final_units_reconcile_witness :
  (Rabs (sumFinalUnits initialState - F2R (totalUnits initialState))
   <= 0.01 * INR (tenants initialState))%R /\
  (Rabs (sumShownUnits initialState - F2R (totalUnits initialState))
   <= 0.01 * INR (tenants initialState))%R.
Proof.
  apply (final_units_reconcile initialState 14).
  - vm_compute. lia.
  - lia.
  - vm_compute. discriminate.
  - vm_compute. reflexivity.
  - intros r [<-|[<-|[]]]; vm_compute; split; reflexivity.
Defined.

(** C3, amended.  Under the conditions of C2, with a total amount below 2^K
    in absolute value as well and at least 0.01 units purchased (the step of
    the input field): every bill of the result table is a finite number, and
    the bills add up to the total amount within 0.01 * N * (1 + unit price),
    that is one hundredth of a currency unit and one hundredth of a unit of
    energy per tenant. *)
Theorem bills_reconcile (st : State) (K : Z) :
  (1 <= tenants st)%nat ->
  (0 <= K)%Z ->
  (Z.of_nat (tenants st) * 2 ^ K <= 2 ^ 32)%Z ->
  small K (totalUnits st) = true ->
  (forall r, In r (readings st) ->
     small K (previous r) = true /\ small K (current r) = true) ->
  small K (totalAmount st) = true ->
  (0.01 <= F2R (totalUnits st))%R ->
  (forall r, In r (results st) -> canonical (r_bill r) = true) /\
  (Rabs (sumBills st - F2R (totalAmount st))
   <= 0.01 * INR (tenants st)
      * (1 + Rabs (F2R (totalAmount st)) / F2R (totalUnits st)))%R.
Proof.
  intros HN HK Hsize HT HR HA HT1. split.
  - intros r Hr. apply in_results in Hr. destruct Hr as (u & Hu & ->).
    cbn [r_bill]. unfold bill, share, finalUnits.
    apply (bill_ok st K HN HK Hsize HT HR HA); [lra|].
    rewrite <- usage_used. now apply in_map.
  - pose proof (bills_core st K HN HK Hsize HT HR HA ltac:(lra)) as H.
    set (p := (Rabs (F2R (totalAmount st)) / F2R (totalUnits st))%R) in *.
    nra.
Qed.

Lemma bills_reconcile_witness :
  (Rabs (sumBills initialState - F2R (totalAmount initialState))
   <= 0.01 * INR (tenants initialState)
      * (1 + Rabs (F2R (totalAmount initialState)) / F2R (totalUnits initialState)))%R.
Proof.
  apply (bills_reconcile initialState 14).
  - vm_compute. lia.
  - lia.
  - vm_compute. discriminate.
  - vm_compute. reflexivity.
  - intros r [<-|[<-|[]]]; vm_compute; split; reflexivity.
  - vm_compute. reflexivity.
  - assert (E : totalUnits initialState = S754_finite false 7430939385161318 (-47))
      by (vm_compute; reflexivity).
    rewrite E. F2R_eval. lra.
Defined.

(** ** The algorithm of the specification *)

(** C1, as stated, fails on its last sentence: against 9.99 purchased units
    three tenants report 10, the unaccounted units are -0.01, and the bonus
    of every tenant is -0.01 / 3 rounded to 2 decimals, which is zero and
    not a negative number. *)
Lemma negative_unaccounted_zero_bonus :
  ltb (unaccounted overReported) zero = true /\
  forall r, In r (results overReported) ->
    r_bonus r = S754_zero true /\ ltb (r_bonus r) zero = false.
Proof.
  split; [vm_compute; reflexivity|].
  intros r Hr. apply in_results in Hr. destruct Hr as (u & _ & ->).
  cbn [r_bonus]. vm_compute. split; reflexivity.
Qed.

(** C1, amended.  For N >= 1 tenants (an array holds fewer than 2^32) the
    engine computes what steps 1 to 5 of the specification say: each usage
    is current - previous rounded to 2 decimals, the total metered usage is
    their sum, the unaccounted units are total units - total metered usage
    rounded to 2 decimals, the bonus of every tenant is unaccounted / N
    rounded to 2 decimals, and the final units are usage + bonus, which the
    result table shows rounded to 2 decimals.  No input is rejected: there
    is one result per tenant; and when the unaccounted units are negative
    the bonus of every tenant is negative or zero, zero only if
    unaccounted / N prints as 0.00. *)
Theorem allocation_formulas (st : State) :
  (1 <= tenants st)%nat ->
  (Z.of_nat (tenants st) < 2 ^ 32)%Z ->
  let rs := readings st in
  let T := totalUnits st in
  map r_used (results st) = map Spec.usage rs /\
  totalUsed st = Spec.totalMetered rs /\
  unaccounted st = Spec.unaccountedUnits rs T /\
  map r_bonus (results st) = map (fun _ => Spec.bonus rs T) rs /\
  map (finalUnits st) (usage st) = map (Spec.finalUnits rs T) rs /\
  map r_finalUnits (results st) = map (fun r => round2 (Spec.finalUnits rs T r)) rs /\
  length (results st) = tenants st /\
  (ltb (unaccounted st) zero = true ->
   forall r, In r (results st) ->
     leb (r_bonus r) zero = true /\
     (ltb (r_bonus r) zero = true \/
      (is_zero (r_bonus r) = true /\
       exists s, toFixed2 (div (unaccounted st) (ofZ (Z.of_nat (tenants st))))
                 = FixedPoint s 0))).
Proof.
  intros HN H32 rs T.
  assert (HU : unaccounted st = Spec.unaccountedUnits rs T).
  { unfold unaccounted, Spec.unaccountedUnits, Spec.totalMetered.
    now rewrite totalUsed_fold. }
  assert (HB : bonusPerTenant st = Spec.bonus rs T).
  { rewrite bonus_count, HU. reflexivity. }
  split; [unfold results, usage; rewrite !map_map; reflexivity|].
  split; [apply totalUsed_fold|].
  split; [exact HU|].
  split; [unfold results, usage; rewrite !map_map, HB; reflexivity|].
  split.
  { unfold usage, finalUnits, Spec.finalUnits. rewrite !map_map.
    cbn [used]. rewrite HB. reflexivity. }
  split.
  { unfold results, usage, finalUnits, Spec.finalUnits. rewrite !map_map.
    cbn [used r_finalUnits]. rewrite HB. reflexivity. }
  split; [apply results_length|].
  intros Hneg r Hr. apply in_results in Hr. destruct Hr as (u & _ & ->).
  cbn [r_bonus]. rewrite bonus_count.
  assert (Hq : signed true (div (unaccounted st) (ofZ (Z.of_nat (tenants st))))).
  { apply div_signed.
    - now apply ltb_zero_signed.
    - apply ofZ_count_finite; [assumption|].
      change (2 ^ 32)%Z with 4294967296%Z in H32.
      change (2 ^ 53)%Z with 9007199254740992%Z. lia. }
  split; [now apply round2_signed_neg | now apply round2_signed_neg_cases].
Qed.

Lemma allocation_formulas_witness :
  map r_used (results overReported) = map Spec.usage (readings overReported) /\
  forall r, In r (results overReported) -> leb (r_bonus r) zero = true.
Proof.
  destruct (allocation_formulas overReported)
    as (Hu & _ & _ & _ & _ & _ & _ & Hneg).
  - vm_compute. lia.
  - vm_compute. reflexivity.
  - split; [exact Hu|]. intros r Hr. apply Hneg; [vm_compute; reflexivity | exact Hr].
Defined.

(** * The reading store: how the operations compose *)

Section StoreAlgebra.

Lemma str_eqb_false (a b : jsstring) : str_eqb a b = false <-> a <> b.
Proof.
  unfold str_eqb. destruct (list_eq_dec N.eq_dec a b); split; congruence.
Qed.

Lemma str_eqb_refl (a : jsstring) : str_eqb a a = true.
Proof. now apply str_eqb_true. Qed.

Lemma id_setField (fv : FieldValue) (r : TenantReading) :
  keepsId fv = true -> id (setField fv r) = id r.
Proof. destruct fv; try discriminate; reflexivity. Qed.

Lemma setField_twice (a b : FieldValue) (r : TenantReading) :
  sameField a b = true -> setField a (setField b r) = setField a r.
Proof. destruct a, b; try discriminate; reflexivity. Qed.

Lemma setField_comm (a b : FieldValue) (r : TenantReading) :
  sameField a b = false -> setField a (setField b r) = setField b (setField a r).
Proof. destruct a, b; try discriminate; reflexivity. Qed.

Lemma ids_updateReading (i : jsstring) (fv : FieldValue) (l : list TenantReading) :
  keepsId fv = true ->
  map id (map (fun r => if str_eqb (id r) i then setField fv r else r) l) = map id l.
Proof.
  intros Hk. rewrite map_map. apply map_ext. intros r.
  destruct (str_eqb (id r) i); [now apply id_setField | reflexivity].
Qed.

Lemma find_updateReading (i j : jsstring) (fv : FieldValue) (l : list TenantReading) :
  keepsId fv = true ->
  find (fun r => str_eqb (id r) j)
    (map (fun r => if str_eqb (id r) i then setField fv r else r) l)
  = option_map (fun r => if str_eqb (id r) i then setField fv r else r)
      (find (fun r => str_eqb (id r) j) l).
Proof.
  intros Hk. induction l as [|r l IH]; [reflexivity|].
  cbn [map find].
  assert (E : id (if str_eqb (id r) i then setField fv r else r) = id r).
  { destruct (str_eqb (id r) i); [now apply id_setField | reflexivity]. }
  rewrite E. destruct (str_eqb (id r) j); [reflexivity | exact IH].
Qed.

Lemma find_id (j : jsstring) (l : list TenantReading) (r : TenantReading) :
  find (fun r => str_eqb (id r) j) l = Some r -> id r = j /\ In r l.
Proof.
  intros H. apply find_some in H. destruct H as [Hin H].
  apply str_eqb_true in H. now split.
Qed.

Lemma find_filter_other (i j : jsstring) (l : list TenantReading) :
  j <> i ->
  find (fun r => str_eqb (id r) j) (filter (fun r => negb (str_eqb (id r) i)) l)
  = find (fun r => str_eqb (id r) j) l.
Proof.
  intros Hne. induction l as [|r l IH]; [reflexivity|].
  cbn [filter find].
  destruct (str_eqb (id r) i) eqn:Ei; cbn [negb].
  - apply str_eqb_true in Ei.
    assert (Ej : str_eqb (id r) j = false) by (apply str_eqb_false; congruence).
    rewrite Ej. exact IH.
  - cbn [find]. destruct (str_eqb (id r) j); [reflexivity | exact IH].
Qed.

Lemma find_filter_same (i : jsstring) (l : list TenantReading) :
  find (fun r => str_eqb (id r) i) (filter (fun r => negb (str_eqb (id r) i)) l) = None.
Proof.
  induction l as [|r l IH]; [reflexivity|].
  cbn [filter]. destruct (str_eqb (id r) i) eqn:Ei; cbn [negb find]; [exact IH|].
  now rewrite Ei.
Qed.

Lemma ids_filter (i : jsstring) (l : list TenantReading) :
  map id (filter (fun r => negb (str_eqb (id r) i)) l)
  = filter (fun x => negb (str_eqb x i)) (map id l).
Proof.
  induction l as [|r l IH]; [reflexivity|].
  cbn [filter map]. destruct (str_eqb (id r) i); cbn [negb map]; now rewrite IH.
Qed.

Lemma NoDup_filter_ids (i : jsstring) (l : list TenantReading) :
  NoDup (map id l) -> NoDup (map id (filter (fun r => negb (str_eqb (id r) i)) l)).
Proof. intros H. rewrite ids_filter. now apply NoDup_filter. Qed.

Lemma filter_drops_one (i : jsstring) (l : list TenantReading) :
  NoDup (map id l) -> In i (map id l) ->
  S (length (filter (fun r => negb (str_eqb (id r) i)) l)) = length l.
Proof.
  induction l as [|r l IH]; cbn [map filter length]; intros Hd Hin; [contradiction|].
  inversion Hd as [|? ? Hnotin Hd']; subst.
  destruct (str_eqb (id r) i) eqn:E; cbn [negb length].
  - apply str_eqb_true in E.
    rewrite filter_unknown_id; [reflexivity | rewrite <- E; assumption].
  - apply str_eqb_false in E. destruct Hin as [Hin|Hin]; [contradiction|].
    now rewrite IH.
Qed.

Lemma filter_app_fresh (i : jsstring) (l : list TenantReading) (t : TenantReading) :
  ~ In i (map id l) -> id t = i ->
  filter (fun r => negb (str_eqb (id r) i)) (l ++ [t]) = l.
Proof.
  intros Hn Ht. rewrite filter_app, filter_unknown_id by assumption.
  cbn [filter]. rewrite Ht, str_eqb_refl. cbn [negb]. apply app_nil_r.
Qed.

Lemma NoDup_ids_app (l : list TenantReading) (t : TenantReading) :
  NoDup (map id l) -> ~ In (id t) (map id l) -> NoDup (map id (l ++ [t])).
Proof.
  intros Hd Hn. rewrite map_app. cbn [map].
  apply NoDup_app; [assumption | repeat constructor; intros [] |].
  intros x Hx [<-|[]]. contradiction.
Qed.

End StoreAlgebra.

(** X1. Reading back after [updateReading] of a name or a reading: the
    tenant found under the identity [i] is the one found before with the
    field replaced, the tenant found under any other identity is the one
    found before, and the identities of the store are the same ones in the
    same order. *)
Theorem lookup_updateReading (st : State) (i : jsstring) (fv : FieldValue) :
  keepsId fv = true ->
  lookup i (updateReading i fv st) = option_map (setField fv) (lookup i st) /\
  (forall j, j <> i -> lookup j (updateReading i fv st) = lookup j st) /\
  map id (readings (updateReading i fv st)) = map id (readings st).
Proof.
  intros Hk. unfold lookup, updateReading, setReadings. cbn [readings].
  split; [|split].
  - rewrite find_updateReading by assumption.
    destruct (find (fun r => str_eqb (id r) i) (readings st)) as [r|] eqn:E;
      [|reflexivity].
    apply find_id in E. destruct E as [E _]. cbn [option_map].
    now rewrite E, str_eqb_refl.
  - intros j Hne. rewrite find_updateReading by assumption.
    destruct (find (fun r => str_eqb (id r) j) (readings st)) as [r|] eqn:E;
      [|reflexivity].
    apply find_id in E. destruct E as [E _]. cbn [option_map].
    assert (Ei : str_eqb (id r) i = false) by (apply str_eqb_false; congruence).
    now rewrite Ei.
  - now apply ids_updateReading.
Qed.

Lemma lookup_updateReading_witness :
  lookup (js "2") (updateReading (js "2") (SetCurrent (literal 1801 1)) initialState)
  = Some (mkReading (js "2") (js "Tenant B") (literal 1553 1) (literal 1801 1)) /\
  lookup (js "1") (updateReading (js "2") (SetCurrent (literal 1801 1)) initialState)
  = lookup (js "1") initialState.
Proof.
  destruct (lookup_updateReading initialState (js "2") (SetCurrent (literal 1801 1)))
    as (H1 & H2 & _).
  - reflexivity.
  - split; [rewrite H1; reflexivity|].
    apply H2. intros H. apply js_inj in H. discriminate.
Defined.

(** X2. Of two updates of the same field of the same tenant the later one
    wins: the state is the one the later update alone gives. *)
Theorem updateReading_overwrites (st : State) (i : jsstring) (a b : FieldValue) :
  keepsId a = true -> sameField a b = true ->
  updateReading i a (updateReading i b st) = updateReading i a st.
Proof.
  intros Ha Hs.
  assert (Hb : keepsId b = true) by (destruct a, b; try discriminate; reflexivity).
  unfold updateReading, setReadings.
  cbn [readings totalUnits totalAmount toasts]. f_equal.
  rewrite map_map. apply map_ext. intros r.
  destruct (str_eqb (id r) i) eqn:E.
  - rewrite id_setField, E by assumption. now apply setField_twice.
  - now rewrite E.
Qed.

Lemma updateReading_overwrites_witness :
  updateReading (js "1") (SetCurrent (ofZ 130))
    (updateReading (js "1") (SetCurrent (ofZ 13)) initialState)
  = updateReading (js "1") (SetCurrent (ofZ 130)) initialState.
Proof. apply updateReading_overwrites; reflexivity. Defined.

(** X3. Updates of names and readings commute when they address different
    tenants or different fields: the state does not depend on the order in
    which two such fields were edited. *)
Theorem updateReading_commutes (st : State) (i j : jsstring) (a b : FieldValue) :
  keepsId a = true -> keepsId b = true ->
  i <> j \/ sameField a b = false ->
  updateReading i a (updateReading j b st) = updateReading j b (updateReading i a st).
Proof.
  intros Ha Hb Hd. unfold updateReading, setReadings.
  cbn [readings totalUnits totalAmount toasts]. f_equal.
  rewrite !map_map. apply map_ext. intros r.
  destruct (str_eqb (id r) j) eqn:Ej, (str_eqb (id r) i) eqn:Ei;
    repeat (rewrite id_setField by assumption); rewrite ?Ei, ?Ej; try reflexivity.
  apply str_eqb_true in Ei, Ej.
  destruct Hd as [Hd|Hd]; [congruence|].
  now apply setField_comm.
Qed.

Lemma updateReading_commutes_witness :
  updateReading (js "1") (SetCurrent (ofZ 130))
    (updateReading (js "2") (SetName (js "Ada")) initialState)
  = updateReading (js "2") (SetName (js "Ada"))
      (updateReading (js "1") (SetCurrent (ofZ 130)) initialState).
Proof.
  apply updateReading_commutes; try reflexivity.
  left. intros H. apply js_inj in H. discriminate.
Defined.

(** X4. [removeTenant] on a store of more than one tenant: the readings
    become the earlier readings without the tenants of the identity [i],
    the others in their order and each once, and nothing else in the state
    changes, no toast is raised.  So afterwards no tenant is found under
    the identity [i], every other identity finds the tenant it found
    before, and the store holds exactly the earlier tenants whose identity
    is not [i]. *)
Theorem lookup_removeTenant (st : State) (i : jsstring) :
  (1 < tenants st)%nat ->
  removeTenant i st
  = setReadings (filter (fun r => negb (str_eqb (id r) i)) (readings st)) st /\
  readings (removeTenant i st)
  = filter (fun r => negb (str_eqb (id r) i)) (readings st) /\
  lookup i (removeTenant i st) = None /\
  (forall j, j <> i -> lookup j (removeTenant i st) = lookup j st) /\
  (forall r, In r (readings (removeTenant i st)) <-> In r (readings st) /\ id r <> i) /\
  totalUnits (removeTenant i st) = totalUnits st /\
  totalAmount (removeTenant i st) = totalAmount st /\
  toasts (removeTenant i st) = toasts st.
Proof.
  unfold tenants, lookup, removeTenant. intros H.
  apply Nat.ltb_lt in H. rewrite H. unfold setReadings.
  cbn [readings totalUnits totalAmount toasts].
  split; [reflexivity|]. split; [reflexivity|].
  split; [apply find_filter_same|].
  split; [intros j Hj; now apply find_filter_other|].
  split; [|repeat split; reflexivity].
  intros r. rewrite filter_In, negb_true_iff, str_eqb_false. reflexivity.
Qed.

Lemma lookup_removeTenant_witness :
  readings (removeTenant (js "1") initialState)
  = [mkReading (js "2") (js "Tenant B") (literal 1553 1) (literal 1754 1)] /\
  lookup (js "1") (removeTenant (js "1") initialState) = None /\
  lookup (js "2") (removeTenant (js "1") initialState) = lookup (js "2") initialState.
Proof.
  destruct (lookup_removeTenant initialState (js "1")) as (_ & H0 & H1 & H2 & _).
  - vm_compute. lia.
  - split; [rewrite H0; reflexivity|]. split; [exact H1|].
    apply H2. intros H. apply js_inj in H. discriminate.
Defined.

(** X5. With pairwise distinct identities, removing an identity that is in
    a store of more than one tenant takes out exactly one tenant, and the
    identities that remain are pairwise distinct. *)
Theorem removeTenant_one_fewer (st : State) (i : jsstring) :
  uniqueIds st -> (1 < tenants st)%nat -> In i (map id (readings st)) ->
  S (tenants (removeTenant i st)) = tenants st /\ uniqueIds (removeTenant i st).
Proof.
  unfold uniqueIds, tenants, removeTenant. intros Hd H Hin.
  apply Nat.ltb_lt in H. rewrite H. unfold setReadings. cbn [readings].
  split; [now apply filter_drops_one | now apply NoDup_filter_ids].
Qed.

Lemma removeTenant_one_fewer_witness :
  S (tenants (removeTenant (js "2") initialState)) = tenants initialState.
Proof.
  apply (removeTenant_one_fewer initialState (js "2")).
  - unfold uniqueIds. vm_compute. repeat constructor; simpl; intuition discriminate.
  - vm_compute. lia.
  - vm_compute. right. left. reflexivity.
Defined.

(** X6. Adding a tenant and removing it again gives the state back: on a
    store that is not empty and where no tenant has the identity the clock
    value prints to, [removeTenant] of the new identity after [addTenant]
    returns the very state [addTenant] was given. *)
Theorem add_then_remove (st : State) (now : Z) :
  (1 <= tenants st)%nat -> ~ In (toString now) (map id (readings st)) ->
  removeTenant (toString now) (addTenant now st) = st.
Proof.
  unfold tenants. intros H Hn. destruct st as [rs tu ta ts].
  cbn [readings] in *. unfold removeTenant, addTenant, setReadings.
  cbn [readings totalUnits totalAmount toasts].
  rewrite length_app. cbn [length].
  assert (E : (1 <? length rs + 1)%nat = true) by (apply Nat.ltb_lt; lia).
  rewrite E. f_equal. now apply filter_app_fresh.
Qed.

Lemma add_then_remove_witness :
  removeTenant (toString 1700000000000) (addTenant 1700000000000 initialState)
  = initialState.
Proof.
  apply add_then_remove.
  - vm_compute. lia.
  - vm_compute. intuition discriminate.
Defined.

(** X7. Pairwise distinct identities are kept by [addTenant] when the clock
    value prints to an identity that is not in the store, by [removeTenant]
    always, and by [updateReading] of a name or a reading always. *)
Theorem uniqueIds_kept (st : State) (now : Z) (i : jsstring) (fv : FieldValue) :
  uniqueIds st ->
  (~ In (toString now) (map id (readings st)) -> uniqueIds (addTenant now st)) /\
  uniqueIds (removeTenant i st) /\
  (keepsId fv = true -> uniqueIds (updateReading i fv st)).
Proof.
  unfold uniqueIds. intros Hd. split; [|split].
  - intros Hn. unfold addTenant, setReadings. cbn [readings].
    now apply NoDup_ids_app.
  - unfold removeTenant. destruct (1 <? length (readings st))%nat.
    + unfold setReadings. cbn [readings]. now apply NoDup_filter_ids.
    + exact Hd.
  - intros Hk. unfold updateReading, setReadings. cbn [readings].
    now rewrite ids_updateReading.
Qed.

Lemma uniqueIds_kept_witness :
  uniqueIds (addTenant 1700000000000 initialState) /\
  uniqueIds (removeTenant (js "1") initialState) /\
  uniqueIds (updateReading (js "1") (SetName (js "Ada")) initialState).
Proof.
  destruct (uniqueIds_kept initialState 1700000000000 (js "1") (SetName (js "Ada")))
    as (Ha & Hr & Hu).
  - unfold uniqueIds. vm_compute. repeat constructor; simpl; intuition discriminate.
  - split; [|split; [exact Hr|]].
    + apply Ha. vm_compute. intuition discriminate.
    + apply Hu. reflexivity.
Defined.

(** * The page: the store under the events a user can cause *)

Section Page.

Lemma entered_orZero (x : number) : entered (orZero x) = true.
Proof. destruct x as [[|]|[|]| |[|] m e]; reflexivity. Qed.

Lemma forallb_filter {A : Type} (p q : A -> bool) (l : list A) :
  forallb p l = true -> forallb p (filter q l) = true.
Proof.
  rewrite !forallb_forall. intros H x Hx. apply filter_In in Hx. now apply H.
Qed.

Lemma allEntered_updateReading (i : jsstring) (fv : FieldValue) (st : State) :
  match fv with
  | SetPrevious v | SetCurrent v => entered v = true
  | _ => True
  end ->
  allEntered st = true -> allEntered (updateReading i fv st) = true.
Proof.
  unfold allEntered, updateReading, setReadings.
  cbn [readings totalUnits totalAmount]. intros Hv H.
  apply andb_true_iff in H. destruct H as [H1 H2].
  rewrite H1. cbn [andb]. rewrite forallb_forall in *.
  intros r Hr. apply in_map_iff in Hr. destruct Hr as (r0 & <- & Hr0).
  specialize (H2 r0 Hr0). apply andb_true_iff in H2. destruct H2 as [Hp Hc].
  destruct (str_eqb (id r0) i); [|now rewrite Hp, Hc].
  destruct fv; cbn [setField previous current]; rewrite ?Hp, ?Hc, ?Hv; reflexivity.
Qed.

Lemma invariant_updateReading (i : jsstring) (fv : FieldValue) (seen : list Z) (st : State) :
  keepsId fv = true ->
  match fv with
  | SetPrevious v | SetCurrent v => entered v = true
  | _ => True
  end ->
  pageInvariant st -> idsAmong seen st ->
  pageInvariant (updateReading i fv st) /\ idsAmong seen (updateReading i fv st).
Proof.
  unfold pageInvariant, idsAmong, uniqueIds, tenants.
  intros Hk Hv (H1 & H2 & H3 & H4) Hids.
  assert (E : map id (readings (updateReading i fv st)) = map id (readings st)).
  { unfold updateReading, setReadings. cbn [readings]. now apply ids_updateReading. }
  rewrite E. repeat split; try assumption.
  - unfold updateReading, setReadings. cbn [readings]. now rewrite length_map.
  - now apply allEntered_updateReading.
Qed.

Lemma handle_invariant (e : Event) (seen : list Z) (st : State) :
  pageInvariant st -> idsAmong seen st ->
  (forall t, In t (clockOf e) -> ~ In t (1 :: 2 :: seen)) ->
  pageInvariant (handle e st) /\ idsAmong (clockOf e ++ seen) (handle e st).
Proof.
  intros Hinv Hids Hfresh.
  destruct e as [t|i|i v|i x|i x|x|x]; cbn [handle clockOf app].
  - (* AddClick *)
    destruct Hinv as (H1 & H2 & H3 & H4).
    assert (Hnew : ~ In (toString t) (map id (readings st))).
    { intros Hin. destruct (Hids _ Hin) as (n & Hn & E).
      apply toString_inj in E. subst n. apply (Hfresh t); [left; reflexivity | exact Hn]. }
    split; [split; [|split; [|split]]|].
    + unfold tenants, addTenant, setReadings. cbn [readings].
      rewrite length_app. cbn [length]. lia.
    + unfold uniqueIds, addTenant, setReadings. cbn [readings].
      now apply NoDup_ids_app.
    + exact H3.
    + unfold allEntered, addTenant, setReadings in *.
      cbn [readings totalUnits totalAmount].
      apply andb_true_iff in H4. destruct H4 as [H4 H5]. rewrite H4. cbn [andb].
      rewrite forallb_app, H5. reflexivity.
    + unfold idsAmong, addTenant, setReadings. cbn [readings].
      intros x Hx. rewrite map_app in Hx. apply in_app_or in Hx.
      destruct Hx as [Hx|[<-|[]]].
      * destruct (Hids x Hx) as (n & Hn & E). exists n. split; [|exact E].
        cbn [In] in *. tauto.
      * exists t. split; [|reflexivity]. cbn [In]. tauto.
  - (* RemoveClick *)
    unfold onRemoveClick, removeDisabled.
    destruct (length (readings st) =? 1)%nat eqn:E1; [now split|].
    apply Nat.eqb_neq in E1.
    destruct Hinv as (H1 & H2 & H3 & H4). unfold tenants, uniqueIds in *.
    assert (E : (1 <? length (readings st))%nat = true) by (apply Nat.ltb_lt; lia).
    unfold removeTenant. rewrite E. unfold setReadings, pageInvariant, tenants, uniqueIds.
    split; [split; [|split; [|split]]|].
    + cbn [readings].
      pose proof (filter_drops_at_most_one i (readings st) H2). lia.
    + cbn [readings]. now apply NoDup_filter_ids.
    + exact H3.
    + unfold allEntered in *. cbn [readings totalUnits totalAmount].
      apply andb_true_iff in H4. destruct H4 as [H4 H5]. rewrite H4. cbn [andb].
      now apply forallb_filter.
    + unfold idsAmong. cbn [readings]. intros x Hx. apply Hids.
      rewrite ids_filter in Hx. apply filter_In in Hx. tauto.
  - now apply invariant_updateReading.
  - apply invariant_updateReading; try assumption; [reflexivity | apply entered_orZero].
  - apply invariant_updateReading; try assumption; [reflexivity | apply entered_orZero].
  - split; [|exact Hids].
    destruct Hinv as (H1 & H2 & H3 & H4). repeat split; try assumption.
    unfold allEntered, onTotalUnitsChange, setTotalUnits in *.
    cbn [readings totalUnits totalAmount].
    rewrite entered_orZero. apply andb_true_iff in H4. destruct H4 as [H4 H5].
    apply andb_true_iff in H4. destruct H4 as [_ H4]. now rewrite H4, H5.
  - split; [|exact Hids].
    destruct Hinv as (H1 & H2 & H3 & H4). repeat split; try assumption.
    unfold allEntered, onTotalAmountChange, setTotalAmount in *.
    cbn [readings totalUnits totalAmount].
    rewrite entered_orZero. apply andb_true_iff in H4. destruct H4 as [H4 H5].
    apply andb_true_iff in H4. destruct H4 as [H4 _]. now rewrite H4, H5.
Qed.

Lemma run_invariant (evs : list Event) :
  forall (seen : list Z) (st : State),
    pageInvariant st -> idsAmong seen st ->
    NoDup (clock evs) ->
    (forall t, In t (clock evs) -> ~ In t (1 :: 2 :: seen)) ->
    pageInvariant (run evs st).
Proof.
  induction evs as [|e evs IH]; intros seen st Hinv Hids Hd Hfresh; [exact Hinv|].
  change (run (e :: evs) st) with (run evs (handle e st)).
  change (clock (e :: evs)) with (clockOf e ++ clock evs) in Hd, Hfresh.
  destruct (handle_invariant e seen st Hinv Hids) as [Hinv' Hids'].
  { intros t Ht. apply Hfresh. apply in_or_app. now left. }
  apply (IH (clockOf e ++ seen)); try assumption.
  - now apply NoDup_app_remove_l in Hd.
  - intros t Ht Hin.
    assert (Hin' : In t (1 :: 2 :: seen) \/ In t (clockOf e)).
    { cbn [In] in *. rewrite in_app_iff in Hin. tauto. }
    destruct Hin' as [Hin'|Hin'].
    + apply (Hfresh t); [apply in_or_app; now right | exact Hin'].
    + destruct e; cbn [clockOf In app] in Hin', Hd; try contradiction.
      destruct Hin' as [<-|[]]. apply NoDup_cons_iff in Hd. tauto.
Qed.

End Page.

(** X8. The page keeps its store sound.  Start from the initial state and
    let the user add tenants, click remove buttons, edit names and readings
    and edit the two bill parameters, in any order and on any identities;
    if the clock values the added tenants got are pairwise different and
    none of them is 1 or 2, then the store is never empty, the identities
    in it are pairwise distinct, no toast has been raised, and no reading
    and no bill parameter is NaN or [-0]. *)
Theorem page_invariant (evs : list Event) :
  NoDup (clock evs) ->
  (forall t, In t (clock evs) -> t <> 1 /\ t <> 2) ->
  (1 <= tenants (run evs initialState))%nat /\
  uniqueIds (run evs initialState) /\
  toasts (run evs initialState) = [] /\
  allEntered (run evs initialState) = true.
Proof.
  intros Hd Hf. apply (run_invariant evs [] initialState); try assumption.
  - split; [vm_compute; lia|]. split; [|split; [reflexivity | vm_compute; reflexivity]].
    unfold uniqueIds. vm_compute. repeat constructor; simpl; intuition discriminate.
  - intros x [<-|[<-|[]]]; [exists 1 | exists 2]; (split; [cbn [In]; tauto | reflexivity]).
  - intros t Ht [H|[H|[]]]; destruct (Hf t Ht); congruence.
Qed.

Lemma page_invariant_witness :
  let evs := [ AddClick 1700000000000; CurrentChange (js "1") S754_nan;
               RemoveClick (js "2"); TotalUnitsChange (S754_zero true);
               RemoveClick (js "1"); RemoveClick (toString 1700000000000);
               AddClick 1700000000001 ] in
  tenants (run evs initialState) = 2%nat /\
  toasts (run evs initialState) = [] /\
  allEntered (run evs initialState) = true.
Proof.
  cbv zeta. split; [vm_compute; reflexivity|].
  refine (let H := page_invariant _ _ _ in conj (proj1 (proj2 (proj2 H))) (proj2 (proj2 (proj2 H)))).
  - vm_compute. repeat constructor; simpl; intuition discriminate.
  - intros t [<-|[<-|[]]]; split; discriminate.
Defined.

(** X9. The refusal of [removeTenant] cannot be reached from a remove
    button.  On a store that is not empty a click raises no toast: with one
    tenant the button is disabled and the click changes nothing, although
    [removeTenant] itself would raise the toast; with more tenants the click
    takes out the tenants of the row's identity. *)
Theorem remove_click_never_refused (st : State) (i : jsstring) :
  (1 <= tenants st)%nat ->
  toasts (onRemoveClick i st) = toasts st /\
  (removeDisabled st = true ->
   onRemoveClick i st = st /\ removeTenant i st = toast cannotRemove st) /\
  (removeDisabled st = false ->
   onRemoveClick i st
   = setReadings (filter (fun r => negb (str_eqb (id r) i)) (readings st)) st).
Proof.
  unfold tenants, onRemoveClick, removeDisabled, removeTenant. intros H.
  destruct (length (readings st) =? 1)%nat eqn:E.
  - apply Nat.eqb_eq in E. rewrite E. cbn [Nat.ltb Nat.leb].
    split; [reflexivity|]. split; [now split | discriminate].
  - apply Nat.eqb_neq in E.
    assert (L : (1 <? length (readings st))%nat = true) by (apply Nat.ltb_lt; lia).
    rewrite L. split; [reflexivity|]. split; [discriminate | reflexivity].
Qed.

Lemma remove_click_never_refused_witness :
  toasts (onRemoveClick (js "1") (removeTenant (js "2") initialState)) = [] /\
  onRemoveClick (js "1") (removeTenant (js "2") initialState)
  = removeTenant (js "2") initialState.
Proof.
  destruct (remove_click_never_refused (removeTenant (js "2") initialState) (js "1"))
    as (H1 & H2 & _).
  - vm_compute. lia.
  - split; [exact H1|]. apply H2. reflexivity.
Defined.

(** X10. Total units can become 0 from the page.  When the parsed value of
    a bill field is NaN or a zero (the field was cleared, 0 was typed, or
    the text does not parse) the handler stores [+0] and touches nothing
    else; after such an edit of total units the unit price and every bill
    and percentage of the result table are Infinity, -Infinity or NaN. *)
Theorem total_units_cleared (st : State) (parsed : number) :
  parsed = S754_nan \/ is_zero parsed = true ->
  onTotalUnitsChange parsed st = setTotalUnits zero st /\
  onTotalAmountChange parsed st = setTotalAmount zero st /\
  totalUnits (onTotalUnitsChange parsed st) = zero /\
  readings (onTotalUnitsChange parsed st) = readings st /\
  totalAmount (onTotalUnitsChange parsed st) = totalAmount st /\
  toasts (onTotalUnitsChange parsed st) = toasts st /\
  is_finite (unitPrice (onTotalUnitsChange parsed st)) = false /\
  forall r, In r (results (onTotalUnitsChange parsed st)) ->
    is_finite (r_bill r) = false /\ is_finite (r_percentage r) = false.
Proof.
  intros Hp.
  assert (E : orZero parsed = zero).
  { destruct Hp as [->|Hp]; [reflexivity|]. destruct parsed; try discriminate; reflexivity. }
  unfold onTotalUnitsChange, onTotalAmountChange. rewrite E.
  repeat (split; [reflexivity|]). split.
  - unfold unitPrice. apply div_by_zero_not_finite.
  - intros r Hr. apply in_results in Hr. destruct Hr as (u & _ & ->).
    cbn [r_bill r_percentage].
    assert (Hs : is_finite (share (setTotalUnits zero st) u) = false).
    { unfold share. apply div_by_zero_not_finite. }
    split; apply round2_not_finite.
    + unfold bill. now apply mul_not_finite.
    + now apply mul_not_finite.
Qed.

Lemma total_units_cleared_witness :
  totalUnits (onTotalUnitsChange S754_nan initialState) = zero /\
  is_finite (unitPrice (onTotalUnitsChange S754_nan initialState)) = false.
Proof.
  destruct (total_units_cleared initialState S754_nan) as (_ & _ & H1 & _ & _ & _ & H2 & _).
  - now left.
  - split; [exact H1 | exact H2].
Defined.

(** * The figures of the result table *)

Section Shown.

Local Open Scope R_scope.

Lemma cond_Zopp_real (s : bool) (n : Z) :
  IZR (cond_Zopp s n) / 100 = Rsgn s * (IZR n / 100).
Proof. destruct s; unfold Rsgn, cond_Zopp; rewrite ?opp_IZR; field. Qed.

Lemma shown_finite (s : bool) (m : positive) (e : Z) :
  ge_1e21 m e = false ->
  shown (S754_finite s m e) = cond_Zopp s (hundredths m e).
Proof.
  intros H. unfold shown, toFixed2. rewrite H.
  destruct (hundredths_spec m e) as [Hn _]. now rewrite Z2N.id.
Qed.

Lemma bpow_44 : bpow 44 = 17592186044416.
Proof. unfold bpow. simpl. lra. Qed.

(** The number parsed from [n] hundredths, [n] not 0: it is not a zero, it
    has the sign it was given, and it prints as [n] hundredths again. *)
Lemma cents_fixed (s : bool) (n : Z) :
  (0 < n)%Z -> IZR n <= 100 * bpow 36 + 1 ->
  canonical (cents s n) = true /\
  Rabs (F2R (cents s n) - Rsgn s * (IZR n / 100)) <= bpow (-15) /\
  exists m e, cents s n = S754_finite s m e /\
              ge_1e21 m e = false /\ hundredths m e = n.
Proof.
  intros Hn Hm. rewrite bpow_36 in Hm.
  assert (Hn1 : 1 <= IZR n) by (apply IZR_le; lia).
  assert (Hnb : IZR n < bpow 1000).
  { pose proof (bpow_lt 44 1000 ltac:(lia)). rewrite bpow_44 in *. lra. }
  destruct (cents_real s n ltac:(lia) Hnb) as (Hca & Hsa & Hea).
  destruct (Hsa ltac:(lia)) as [Hsign Hnzero].
  pose proof bpow_tiny as Ht. pose proof (bpow_gt_0 (-1074)) as Pt.
  rewrite bpow_m52 in Hea.
  split; [exact Hca|]. split; [rewrite bpow_m15; lra|].
  destruct (canonical_cases _ Hca) as [[s' E]|(s' & ma & ea & E)].
  { rewrite E in Hsign. simpl in Hsign. subst s'. contradiction. }
  rewrite E in Hsign. simpl in Hsign. subst s'.
  exists ma, ea. split; [exact E|].
  rewrite E, F2R_finite, Rabs_Rsgn in Hea. apply Rabs_bounds in Hea.
  split.
  - apply ge_1e21_false.
    assert (10 ^ 21 = 1000000000000000000000) by lra. lra.
  - apply hundredths_unique. apply Rabs_def1; lra.
Qed.

Lemma shown_cents (s : bool) (n : Z) :
  (0 <= n)%Z -> IZR n <= 100 * bpow 36 + 1 ->
  shown (cents s n) = cond_Zopp s n /\
  canonical (cents s n) = true /\
  Rabs (F2R (cents s n) - IZR (cond_Zopp s n) / 100) <= bpow (-15).
Proof.
  intros Hn Hm. destruct (Z.eq_dec n 0) as [->|Hnz].
  - change (cents s 0) with (S754_zero s).
    split; [destruct s; reflexivity|]. split; [reflexivity|].
    rewrite bpow_m15. replace (cond_Zopp s 0) with 0%Z by (destruct s; reflexivity).
    simpl F2R. unfold Rdiv. rewrite Rmult_0_l, Rminus_diag, Rabs_R0. lra.
  - destruct (cents_fixed s n ltac:(lia) Hm) as (Hc & He & m & e & E & Hbig & Hh).
    split; [|split; [exact Hc|]].
    + rewrite E, shown_finite by assumption. now rewrite Hh.
    + now rewrite cond_Zopp_real.
Qed.

Lemma hundredths_36 (m : positive) (e : Z) :
  IZR (Zpos m) * bpow e <= bpow 36 ->
  ge_1e21 m e = false /\ IZR (hundredths m e) <= 100 * bpow 36 + 1.
Proof.
  intros Hm. rewrite bpow_36 in *.
  destruct (hundredths_spec m e) as [_ [Hlo _]].
  split; [|lra].
  apply ge_1e21_false. assert (10 ^ 21 = 1000000000000000000000) by lra. lra.
Qed.

(** Printing, parsing and printing again shows the hundredths of the first
    print; and what was parsed is the number nearest to them. *)
Lemma shown_round2 (x : number) :
  canonical x = true -> Rabs (F2R x) <= bpow 36 ->
  shown (round2 x) = shown x /\
  canonical (round2 x) = true /\
  Rabs (F2R (round2 x) - IZR (shown x) / 100) <= bpow (-15).
Proof.
  intros Hc Hm. destruct x as [s|s| |s m e]; try discriminate.
  - change (round2 (S754_zero s)) with (S754_zero false).
    split; [reflexivity|]. split; [reflexivity|].
    change (shown (S754_zero s)) with 0%Z. simpl F2R. rewrite bpow_m15.
    unfold Rdiv. rewrite Rmult_0_l, Rminus_diag, Rabs_R0. lra.
  - rewrite Rabs_F2R_finite in Hm.
    destruct (hundredths_36 m e Hm) as [Hbig Hn].
    destruct (hundredths_spec m e) as [Hn0 _].
    rewrite round2_finite, shown_finite by assumption.
    now apply shown_cents.
Qed.

(** A number within a quarter of a hundredth of [k] hundredths prints as
    them. *)
Lemma shown_snap (x : number) (k : Z) :
  canonical x = true -> Rabs (F2R x) <= bpow 36 ->
  Rabs (F2R x - IZR k / 100) <= / 400 ->
  shown x = k.
Proof.
  intros Hc Hm Hk. apply Rabs_bounds in Hk.
  destruct x as [s|s| |s m e]; try discriminate.
  - simpl F2R in Hk. change (shown (S754_zero s)) with 0%Z.
    assert (IZR (-1) < IZR k) by lra. assert (IZR k < IZR 1) by lra.
    apply lt_IZR in H, H0. lia.
  - rewrite Rabs_F2R_finite in Hm. destruct (hundredths_36 m e Hm) as [Hbig _].
    rewrite F2R_finite in Hk.
    set (v := IZR (Zpos m) * bpow e) in *.
    assert (Pv : 0 < v).
    { unfold v. pose proof (bpow_gt_0 e).
      assert (0 < IZR (Zpos m)) by (apply IZR_lt; lia). nra. }
    rewrite shown_finite by assumption.
    set (n := if s then (- k)%Z else k).
    assert (Hkn : IZR k / 100 = Rsgn s * (IZR n / 100))
      by (unfold n; destruct s; unfold Rsgn; rewrite ?opp_IZR; field).
    rewrite Hkn in Hk.
    assert (Hvn : - / 400 <= v - IZR n / 100 <= / 400)
      by (destruct s; unfold Rsgn in Hk; lra).
    rewrite (hundredths_unique m e n).
    + unfold n. destruct s; unfold cond_Zopp; lia.
    + fold v. apply Rabs_def1; lra.
Qed.

End Shown.

(** X11. The rounding [parseFloat(x.toFixed(2))] on a number below 2^36 in
    absolute value: the result prints with the digits [x] prints with, it
    is within 2^-15 of those hundredths, and rounding it once more gives
    the same number (only [-0], which tiny negative numbers round to,
    becomes [+0]). *)
Theorem round2_idempotent (x : number) :
  small 36 x = true ->
  shown (round2 x) = shown x /\
  (Rabs (F2R (round2 x) - IZR (shown x) / 100) <= / 32768)%R /\
  (round2 (round2 x) = round2 x \/
   round2 x = S754_zero true /\ round2 (round2 x) = zero).
Proof.
  intros Hs. apply small_real in Hs. destruct Hs as [Hc Hm].
  destruct (shown_round2 x Hc Hm) as (H1 & _ & H3).
  split; [exact H1|]. split; [now rewrite <- bpow_m15|].
  destruct x as [s|s| |s m e]; try discriminate.
  - left. reflexivity.
  - rewrite Rabs_F2R_finite in Hm.
    destruct (hundredths_36 m e Hm) as [Hbig Hn].
    destruct (hundredths_spec m e) as [Hn0 _].
    rewrite round2_finite by assumption.
    destruct (Z.eq_dec (hundredths m e) 0) as [E|Hnz].
    + rewrite E. change (cents s 0) with (S754_zero s).
      destruct s; [right; split; reflexivity | left; reflexivity].
    + left.
      destruct (cents_fixed s (hundredths m e) ltac:(lia) Hn)
        as (_ & _ & ma & ea & E & Hbig' & Hh).
      rewrite E, round2_finite by assumption. now rewrite Hh.
Qed.

Lemma round2_idempotent_witness :
  shown (round2 (sub (literal 12695 2) (literal 9787 2))) = 2908%Z /\
  round2 (round2 (sub (literal 12695 2) (literal 9787 2)))
  = round2 (sub (literal 12695 2) (literal 9787 2)).
Proof.
  destruct (round2_idempotent (sub (literal 12695 2) (literal 9787 2)))
    as (H1 & _ & [H3|[H3 _]]).
  - vm_compute. reflexivity.
  - split; [rewrite H1; vm_compute; reflexivity | exact H3].
  - vm_compute in H3. discriminate.
Defined.

Section Rows.

Local Open Scope R_scope.

(** The difference of two readings below [2^34]. *)
Lemma difference34 (p c : number) :
  small 34 p = true -> small 34 c = true ->
  canonical (sub c p) = true /\
  Rabs (F2R (sub c p)) <= bpow 36 /\
  Rabs (F2R (sub c p) - (F2R c - F2R p)) <= / 32768.
Proof.
  intros Hp Hc. apply small_real in Hp, Hc.
  destruct Hp as [Hp1 Hp2]. destruct Hc as [Hc1 Hc2].
  assert (B34 : bpow 34 = 17179869184) by (unfold bpow; simpl; lra).
  rewrite B34 in *. apply Rabs_bounds in Hp2, Hc2.
  destruct (sub36 c p Hc1 Hp1) as [Hd1 Hd2].
  { rewrite bpow_36. apply Rabs_le. lra. }
  rewrite bpow_m15 in Hd2. split; [exact Hd1|]. split; [|exact Hd2].
  apply Rabs_bounds in Hd2. rewrite bpow_36. apply Rabs_le. lra.
Qed.

Variable st : State.
Variable K : Z.

Hypothesis Htenants : (1 <= tenants st)%nat.
Hypothesis HK : (0 <= K)%Z.
Hypothesis Hsize : (Z.of_nat (tenants st) * 2 ^ K <= 2 ^ 32)%Z.
Hypothesis Hunits : small K (totalUnits st) = true.
Hypothesis Hreadings :
  forall r, In r (readings st) ->
    small K (previous r) = true /\ small K (current r) = true.

Lemma difference_ok (r : TenantReading) :
  In r (readings st) ->
  canonical (sub (current r) (previous r)) = true /\
  Rabs (F2R (sub (current r) (previous r))) <= bpow 36.
Proof.
  intros Hr. destruct (Hreadings r Hr) as [Hp Hc].
  apply small_real in Hp, Hc. destruct Hp as [Hp1 Hp2]. destruct Hc as [Hc1 Hc2].
  pose proof (B_ge_1 K HK). pose proof (N_ge_1 st Htenants).
  pose proof (NB_le st K HK Hsize).
  apply Rabs_bounds in Hp2, Hc2.
  destruct (sub36 (current r) (previous r) Hc1 Hp1) as [Hd1 Hd2].
  { rewrite bpow_36. apply Rabs_le. nra. }
  rewrite bpow_m15 in Hd2. apply Rabs_bounds in Hd2.
  split; [exact Hd1|]. rewrite bpow_36. apply Rabs_le. nra.
Qed.

Lemma used_shown (u : number) :
  In u (map Spec.usage (readings st)) ->
  Rabs (F2R u - IZR (shown u) / 100) <= / 32768.
Proof.
  intros Hu. apply in_map_iff in Hu. destruct Hu as (r & <- & Hr).
  destruct (difference_ok r Hr) as [Hd1 Hd2].
  destruct (shown_round2 _ Hd1 Hd2) as (H1 & _ & H3).
  unfold Spec.usage. rewrite H1, <- bpow_m15. exact H3.
Qed.

Lemma quotient_ok :
  canonical (div (unaccounted st) (ofZ (Z.of_nat (tenants st)))) = true /\
  Rabs (F2R (div (unaccounted st) (ofZ (Z.of_nat (tenants st))))) <= bpow 36.
Proof.
  pose proof (B_ge_1 K HK). pose proof (N_ge_1 st Htenants) as HN1.
  pose proof (NB_le st K HK Hsize).
  destruct (unaccounted_ok st K Htenants HK Hsize Hunits Hreadings)
    as (_ & _ & _ & Ha1 & _ & Ha3).
  destruct (ofZ_count (tenants st) Htenants (N_count st K Htenants HK Hsize))
    as (Hy1 & _ & Hy2).
  set (N := INR (tenants st)) in *.
  assert (Hquot : Rabs (F2R (unaccounted st) / N) <= Rabs (F2R (unaccounted st))).
  { unfold Rdiv. rewrite Rabs_mult.
    rewrite (Rabs_pos_eq (/ N)) by (left; apply Rinv_0_lt_compat; lra).
    pose proof (Rabs_pos (F2R (unaccounted st))).
    assert (/ N <= 1) by (rewrite <- Rinv_1; apply Rinv_le_contravar; lra).
    nra. }
  destruct (div36 (unaccounted st) (ofZ (Z.of_nat (tenants st)))) as (Hq1 & _ & Hq2).
  { now apply canonical_finite. }
  { now apply canonical_finite. }
  { rewrite Hy2. lra. }
  { rewrite Hy2, bpow_36. lra. }
  rewrite Hy2, bpow_m15 in Hq2. split; [exact Hq1|].
  assert (Hquot' : Rabs (F2R (unaccounted st) / N) <= 5 * (N * bpow K) + 2) by lra.
  apply Rabs_bounds in Hq2, Hquot'. rewrite bpow_36. apply Rabs_le. lra.
Qed.

Lemma bonus_shown :
  Rabs (F2R (bonusPerTenant st) - IZR (shown (bonusPerTenant st)) / 100) <= / 32768.
Proof.
  destruct quotient_ok as [Hq1 Hq2].
  destruct (shown_round2 _ Hq1 Hq2) as (H1 & _ & H3).
  rewrite bonus_count, H1, <- bpow_m15. exact H3.
Qed.

Lemma final_shown (u : number) :
  In u (map Spec.usage (readings st)) ->
  shown (round2 (add u (bonusPerTenant st)))
  = (shown u + shown (bonusPerTenant st))%Z.
Proof.
  intros Hu.
  pose proof (NB_le st K HK Hsize) as HNB.
  destruct (final_ok st K Htenants HK Hsize Hunits Hreadings u Hu) as (Hf1 & Hf2 & Hf3).
  pose proof (used_shown u Hu) as Hku. pose proof bonus_shown as Hkb.
  assert (Hf4 : Rabs (F2R (add u (bonusPerTenant st))) <= bpow 36)
    by (rewrite bpow_36; lra).
  destruct (shown_round2 _ Hf1 Hf4) as (H1 & _ & _). rewrite H1.
  apply shown_snap; [exact Hf1 | exact Hf4 |].
  rewrite plus_IZR. apply Rabs_bounds in Hf2, Hku, Hkb. apply Rabs_le. lra.
Qed.

Lemma final_rounded (u : number) :
  In u (map Spec.usage (readings st)) ->
  Rabs (F2R (round2 (add u (bonusPerTenant st))) - F2R (add u (bonusPerTenant st)))
  <= / 8192.
Proof.
  intros Hu.
  destruct (final_ok st K Htenants HK Hsize Hunits Hreadings u Hu) as (_ & Hf2 & _).
  destruct (shown_ok st K Htenants HK Hsize Hunits Hreadings u Hu) as (_ & Hs).
  apply Rabs_bounds in Hf2, Hs. apply Rabs_le. lra.
Qed.

End Rows.

Section UsedOf.

Lemma used_of_usage (st : State) (u : UsageRow) :
  In u (usage st) ->
  In (reading u) (readings st) /\
  used u = round2 (sub (current (reading u)) (previous (reading u))) /\
  In (used u) (map Spec.usage (readings st)).
Proof.
  unfold usage. intros H. apply in_map_iff in H. destruct H as (r & <- & Hr).
  cbn [reading used]. split; [exact Hr|]. split; [reflexivity|].
  now apply (in_map Spec.usage).
Qed.

End UsedOf.

(** X12. In every row of the result table the figures add up to the cent:
    the hundredths the final units print with are the hundredths of the
    used units plus the hundredths of the bonus.  (Store of N >= 1 tenants,
    readings and total units below 2^K in absolute value, N * 2^K <= 2^32.) *)
Theorem row_adds_up (st : State) (K : Z) :
  (1 <= tenants st)%nat ->
  (0 <= K)%Z ->
  (Z.of_nat (tenants st) * 2 ^ K <= 2 ^ 32)%Z ->
  small K (totalUnits st) = true ->
  (forall r, In r (readings st) ->
     small K (previous r) = true /\ small K (current r) = true) ->
  forall r, In r (results st) ->
    shown (r_finalUnits r) = shown (r_used r) + shown (r_bonus r).
Proof.
  intros HN HK Hsize HT HR r Hr.
  apply in_results in Hr. destruct Hr as (u & Hu & ->).
  cbn [r_finalUnits r_used r_bonus]. unfold finalUnits.
  apply (final_shown st K HN HK Hsize HT HR).
  now apply used_of_usage.
Qed.

Lemma row_adds_up_witness :
  let r := nth 0 (results initialState) noResult in
  shown (r_finalUnits r) = 3089 /\
  shown (r_finalUnits r) = shown (r_used r) + shown (r_bonus r).
Proof.
  cbv zeta. split; [vm_compute; reflexivity|].
  apply (row_adds_up initialState 14).
  - vm_compute. lia.
  - lia.
  - vm_compute. discriminate.
  - vm_compute. reflexivity.
  - intros r [<-|[<-|[]]]; vm_compute; split; reflexivity.
  - vm_compute. left. reflexivity.
Defined.

(** X13. The used units of a tenant whose readings are below 2^34 in
    absolute value: a finite number within 0.0051 of current - previous; it
    prints with the digits the read-only usage field of the tenant's row
    shows, [(current - previous).toFixed(2)], and is within 2^-15 of those
    hundredths. *)
Theorem used_rounding (st : State) (u : UsageRow) :
  In u (usage st) ->
  small 34 (previous (reading u)) = true ->
  small 34 (current (reading u)) = true ->
  canonical (used u) = true /\
  (Rabs (F2R (used u) - (F2R (current (reading u)) - F2R (previous (reading u))))
   <= 0.0051)%R /\
  shown (used u) = shown (sub (current (reading u)) (previous (reading u))) /\
  (Rabs (F2R (used u) - IZR (shown (used u)) / 100) <= / 32768)%R.
Proof.
  intros Hu Hp Hc.
  destruct (used_of_usage st u Hu) as (_ & -> & _).
  destruct (difference34 _ _ Hp Hc) as (Hd1 & Hd2 & Hd3).
  destruct (shown_round2 _ Hd1 Hd2) as (H1 & H2 & H3).
  destruct (round2_36 _ Hd1 Hd2) as [_ H4].
  rewrite bpow_m15 in *.
  split; [exact H2|]. split; [|split; [exact H1 | now rewrite H1]].
  apply Rabs_bounds in Hd3, H4. apply Rabs_le. lra.
Qed.

Lemma used_rounding_witness :
  let u := nth 0 (usage initialState) (mkUsage (mkReading [] [] zero zero) zero) in
  shown (used u) = 2908 /\
  (Rabs (F2R (used u) - (F2R (current (reading u)) - F2R (previous (reading u))))
   <= 0.0051)%R.
Proof.
  cbv zeta.
  destruct (used_rounding initialState
              (nth 0 (usage initialState) (mkUsage (mkReading [] [] zero zero) zero)))
    as (_ & H2 & H3 & _).
  - vm_compute. left. reflexivity.
  - vm_compute. reflexivity.
  - vm_compute. reflexivity.
  - split; [rewrite H3; vm_compute; reflexivity | exact H2].
Defined.

(** X14. What the equal split loses.  The bonuses of the N tenants add up
    to the unaccounted units within 0.0051 * N, and exactly when there is
    one tenant.  (Conditions of X12.) *)
Theorem bonus_remainder (st : State) (K : Z) :
  (1 <= tenants st)%nat ->
  (0 <= K)%Z ->
  (Z.of_nat (tenants st) * 2 ^ K <= 2 ^ 32)%Z ->
  small K (totalUnits st) = true ->
  (forall r, In r (readings st) ->
     small K (previous r) = true /\ small K (current r) = true) ->
  (Rabs (INR (tenants st) * F2R (bonusPerTenant st) - F2R (unaccounted st))
   <= 0.0051 * INR (tenants st))%R /\
  (tenants st = 1%nat -> F2R (bonusPerTenant st) = F2R (unaccounted st)).
Proof.
  intros HN HK Hsize HT HR. split.
  - destruct (bonus_ok st K HN HK Hsize HT HR) as (_ & Hb & _).
    pose proof (N_ge_1 st HN) as HN1.
    set (N := INR (tenants st)) in *. set (b := F2R (bonusPerTenant st)) in *.
    set (a := F2R (unaccounted st)) in *.
    apply Rabs_bounds in Hb.
    replace (N * b - a)%R with (N * (b - a / N))%R by (field; lra).
    apply Rabs_le. split; nra.
  - now apply (bonus_single st K HN HK Hsize HT HR).
Qed.

Lemma bonus_remainder_witness :
  (Rabs (INR (tenants initialState) * F2R (bonusPerTenant initialState)
         - F2R (unaccounted initialState))
   <= 0.0051 * INR (tenants initialState))%R.
Proof.
  apply (bonus_remainder initialState 14).
  - vm_compute. lia.
  - lia.
  - vm_compute. discriminate.
  - vm_compute. reflexivity.
  - intros r [<-|[<-|[]]]; vm_compute; split; reflexivity.
Defined.

(** X15. Every bill is the final units of its row times the unit price:
    the bill the table shows is within 0.0051 + price / 5000 of the final
    units the table shows times total amount / total units.  (Conditions of
    X12, a total amount below 2^K in absolute value and at least 0.01 units
    purchased.) *)
Theorem bill_is_units_times_price (st : State) (K : Z) :
  (1 <= tenants st)%nat ->
  (0 <= K)%Z ->
  (Z.of_nat (tenants st) * 2 ^ K <= 2 ^ 32)%Z ->
  small K (totalUnits st) = true ->
  (forall r, In r (readings st) ->
     small K (previous r) = true /\ small K (current r) = true) ->
  small K (totalAmount st) = true ->
  (0.01 <= F2R (totalUnits st))%R ->
  forall r, In r (results st) ->
    (Rabs (F2R (r_bill r)
           - F2R (r_finalUnits r) * (F2R (totalAmount st) / F2R (totalUnits st)))
     <= 0.0051 + Rabs (F2R (totalAmount st)) / F2R (totalUnits st) / 5000)%R.
Proof.
  intros HN HK Hsize HT HR HA HT1 r Hr.
  apply in_results in Hr. destruct Hr as (u & Hu & ->).
  cbn [r_bill r_finalUnits]. unfold bill, share, finalUnits.
  destruct (used_of_usage st u Hu) as (_ & _ & Hin).
  destruct (bill_ok st K HN HK Hsize HT HR HA ltac:(lra) (used u) Hin) as [_ Hb].
  cbv zeta in Hb.
  pose proof (final_rounded st K HN HK Hsize HT HR (used u) Hin) as Hf.
  assert (HT0 : (/ 100 <= F2R (totalUnits st))%R) by lra.
  pose proof (P_nonneg st HT0) as HP.
  set (A := F2R (totalAmount st)) in *. set (T := F2R (totalUnits st)) in *.
  set (f := F2R (add (used u) (bonusPerTenant st))) in *.
  set (g := F2R (round2 (add (used u) (bonusPerTenant st)))) in *.
  set (bl := F2R (round2 (mul (div (add (used u) (bonusPerTenant st)) (totalUnits st))
                            (totalAmount st)))) in *.
  assert (HP' : Rabs (A / T) = (Rabs A / T)%R).
  { unfold Rdiv. rewrite Rabs_mult. f_equal.
    apply Rabs_pos_eq. left. apply Rinv_0_lt_compat. lra. }
  assert (Hfg : (Rabs (A / T * (f - g)) <= Rabs A / T * / 8192)%R).
  { rewrite Rabs_mult, HP'. apply Rmult_le_compat_l; [exact HP|].
    rewrite Rabs_minus_sym. exact Hf. }
  replace (bl - g * (A / T))%R with ((bl - A / T * f) + A / T * (f - g))%R by ring.
  eapply Rle_trans; [apply Rabs_triang|].
  set (P := (Rabs A / T)%R) in *. lra.
Qed.

Lemma bill_is_units_times_price_witness :
  let r := nth 0 (results initialState) noResult in
  (Rabs (F2R (r_bill r)
         - F2R (r_finalUnits r)
           * (F2R (totalAmount initialState) / F2R (totalUnits initialState)))
   <= 0.0051 + Rabs (F2R (totalAmount initialState))
               / F2R (totalUnits initialState) / 5000)%R.
Proof.
  cbv zeta.
  apply (bill_is_units_times_price initialState 14).
  - vm_compute. lia.
  - lia.
  - vm_compute. discriminate.
  - vm_compute. reflexivity.
  - intros r [<-|[<-|[]]]; vm_compute; split; reflexivity.
  - vm_compute. reflexivity.
  - assert (E : totalUnits initialState = S754_finite false 7430939385161318 (-47))
      by (vm_compute; reflexivity).
    rewrite E. F2R_eval. lra.
  - vm_compute. left. reflexivity.
Defined.

Section Percentages.

Local Open Scope R_scope.

Lemma small_100 (K : Z) : (7 <= K)%Z -> small K (ofZ 100) = true.
Proof.
  intros H.
  change (ofZ 100) with (S754_finite false 7036874417766400 (-46)).
  unfold small. apply andb_true_iff. split; [reflexivity|].
  apply Z.leb_le. change (Zpos (digits2_pos 7036874417766400)) with 53%Z. lia.
Qed.

Lemma F2R_100 : F2R (ofZ 100) = 100.
Proof.
  change (ofZ 100) with (S754_finite false 7036874417766400 (-46)).
  F2R_eval. lra.
Qed.

(** The percentages are the bills of a total amount of 100. *)
Lemma percentages_as_bills (st : State) :
  map r_percentage (results st) = map r_bill (results (setTotalAmount (ofZ 100) st)).
Proof.
  unfold results. rewrite !map_map. reflexivity.
Qed.

End Percentages.

(** X16. The percentages of the result table are finite numbers and add up
    to 100 within 0.01 * N * (1 + 100 / total units).  (Conditions of X12
    with K >= 7, and at least 0.01 units purchased.) *)
Theorem percentages_reconcile (st : State) (K : Z) :
  (1 <= tenants st)%nat ->
  (7 <= K)%Z ->
  (Z.of_nat (tenants st) * 2 ^ K <= 2 ^ 32)%Z ->
  small K (totalUnits st) = true ->
  (forall r, In r (readings st) ->
     small K (previous r) = true /\ small K (current r) = true) ->
  (0.01 <= F2R (totalUnits st))%R ->
  (forall r, In r (results st) -> canonical (r_percentage r) = true) /\
  (Rabs (sumPercentages st - 100)
   <= 0.01 * INR (tenants st) * (1 + 100 / F2R (totalUnits st)))%R.
Proof.
  intros HN HK Hsize HT HR HT1.
  assert (HK0 : (0 <= K)%Z) by lia.
  assert (HT0 : (/ 100 <= F2R (totalUnits st))%R) by lra.
  pose proof (small_100 K HK) as H100.
  split.
  - intros r Hr. apply in_results in Hr. destruct Hr as (u & Hu & ->).
    cbn [r_percentage]. unfold share, finalUnits.
    destruct (used_of_usage st u Hu) as (_ & _ & Hin).
    apply (bill_ok (setTotalAmount (ofZ 100) st) K HN HK0 Hsize HT HR H100 HT0 (used u) Hin).
  - pose proof (bills_core (setTotalAmount (ofZ 100) st) K HN HK0 Hsize HT HR H100 HT0) as H.
    unfold sumBills in H. rewrite <- percentages_as_bills in H.
    fold (sumPercentages st) in H.
    cbn [setTotalAmount totalAmount totalUnits] in H.
    change (tenants (setTotalAmount (ofZ 100) st)) with (tenants st) in H.
    rewrite F2R_100 in H. rewrite (Rabs_pos_eq 100) in H by lra.
    set (p := (100 / F2R (totalUnits st))%R) in *.
    assert (0 <= p)%R.
    { unfold p, Rdiv. apply Rmult_le_pos; [lra|]. left. apply Rinv_0_lt_compat. lra. }
    pose proof (pos_INR (tenants st)). nra.
Qed.

Lemma percentages_reconcile_witness :
  (Rabs (sumPercentages initialState - 100)
   <= 0.01 * INR (tenants initialState) * (1 + 100 / F2R (totalUnits initialState)))%R.
Proof.
  apply (percentages_reconcile initialState 14).
  - vm_compute. lia.
  - lia.
  - vm_compute. discriminate.
  - vm_compute. reflexivity.
  - intros r [<-|[<-|[]]]; vm_compute; split; reflexivity.
  - assert (E : totalUnits initialState = S754_finite false 7430939385161318 (-47))
      by (vm_compute; reflexivity).
    rewrite E. F2R_eval. lra.
Defined.

(** * What the engine never does *)

Section NotBelowZero.

Lemma signed_notBelowZero (x : number) : signed false x -> notBelowZero x = true.
Proof. intros [->|[->|(m & e & ->)]]; reflexivity. Qed.

Lemma signed_signbit (x : number) : signed false x -> signbit x = false.
Proof. intros [->|[->|(m & e & ->)]]; reflexivity. Qed.

Lemma binary_round_signed (s : bool) (m : positive) (e : Z) :
  signed s (binary_round prec emax s m e).
Proof.
  unfold binary_round.
  destruct (shl_align m e (fexp prec emax (Zpos (digits2_pos m) + e))) as [mz ez].
  apply binary_round_aux_signed. lia.
Qed.

Lemma binary_normalize_signed (M e : Z) :
  0 <= M -> signed false (binary_normalize prec emax M e false).
Proof.
  intros H. destruct M as [|p|p]; [left; reflexivity | | lia].
  apply binary_round_signed.
Qed.

(** [round2] of a number that is not below zero has its sign bit clear: it
    is NaN, [+0], a positive number or Infinity. *)
Lemma round2_notBelowZero (x : number) :
  notBelowZero x = true -> notBelowZero (round2 x) = true /\ signbit (round2 x) = false.
Proof.
  destruct x as [s|[|]| |[|] m e]; try discriminate; intros _;
    try (split; reflexivity).
  unfold round2, toFixed2. destruct (ge_1e21 m e); [split; reflexivity|].
  cbn [parseFloat]. destruct (Z.to_N (hundredths m e)) as [|n]; [split; reflexivity|].
  assert (H : signed false (div (S754_finite false n 0) (S754_finite false 100 0))).
  { apply div_signed; [right; right; eauto | eauto]. }
  split; [now apply signed_notBelowZero | now apply signed_signbit].
Qed.

Lemma add_notBelowZero (x y : number) :
  notBelowZero x = true -> notBelowZero y = true -> notBelowZero (add x y) = true.
Proof.
  destruct x as [sx|[|]| |[|] mx ex]; try discriminate;
    destruct y as [sy|[|]| |[|] my ey]; try discriminate; intros _ _;
      try reflexivity; try (destruct sx; reflexivity);
      try (destruct sx, sy; reflexivity).
  apply signed_notBelowZero. unfold add, SFadd.
  apply binary_normalize_signed. cbn [cond_Zopp]. lia.
Qed.

Lemma div_notBelowZero (x y : number) :
  notBelowZero x = true -> signbit y = false -> notBelowZero (div x y) = true.
Proof.
  destruct x as [sx|[|]| |[|] mx ex]; try discriminate;
    destruct y as [[|]|[|]| |[|] my ey]; try discriminate; intros _ _;
      try reflexivity; try (destruct sx; reflexivity).
  apply signed_notBelowZero. apply div_signed; [right; right; eauto | eauto].
Qed.

Lemma mul_notBelowZero (x y : number) :
  notBelowZero x = true -> signbit y = false -> notBelowZero (mul x y) = true.
Proof.
  destruct x as [sx|[|]| |[|] mx ex]; try discriminate;
    destruct y as [[|]|[|]| |[|] my ey]; try discriminate; intros _ _;
      try reflexivity; try (destruct sx; reflexivity).
  apply signed_notBelowZero. unfold mul, SFmul. cbn [xorb].
  apply binary_round_aux_signed. lia.
Qed.

Lemma F2R_sign (s : bool) (m : positive) (e : Z) :
  (if s then F2R (S754_finite s m e) < 0 else 0 < F2R (S754_finite s m e))%R.
Proof.
  rewrite F2R_finite.
  assert (0 < IZR (Zpos m) * bpow e)%R.
  { pose proof (bpow_gt_0 e). assert (0 < IZR (Zpos m))%R by (apply IZR_lt; lia). nra. }
  destruct s; unfold Rsgn; lra.
Qed.

(** A difference [c - p] of finite numbers with [p <= c] is not below
    zero. *)
Lemma sub_notBelowZero (c p : number) :
  is_finite c = true -> is_finite p = true -> (F2R p <= F2R c)%R ->
  notBelowZero (sub c p) = true.
Proof.
  destruct c as [sc|sc| |sc mc ec]; try discriminate;
    destruct p as [sp|sp| |sp mp ep]; try discriminate; intros _ _ H.
  - destruct sc, sp; reflexivity.
  - pose proof (F2R_sign sp mp ep) as Hs. simpl F2R at 2 in H.
    destruct sp; [reflexivity | lra].
  - pose proof (F2R_sign sc mc ec) as Hs. simpl F2R at 1 in H.
    destruct sc; [lra | reflexivity].
  - apply signed_notBelowZero. unfold sub, SFsub.
    apply binary_normalize_signed.
    set (ez := Z.min ec ep).
    rewrite <- (aligned_value sc mc ec ez), <- (aligned_value sp mp ep ez) in H by lia.
    pose proof (bpow_gt_0 ez) as Pe.
    assert (Hle : (IZR (cond_Zopp sp (Zpos (fst (shl_align mp ep ez))))
                   <= IZR (cond_Zopp sc (Zpos (fst (shl_align mc ec ez)))))%R) by nra.
    apply le_IZR in Hle. lia.
Qed.

Lemma fold_add_notBelowZero (l : list number) (acc : number) :
  notBelowZero acc = true -> Forall (fun u => notBelowZero u = true) l ->
  notBelowZero (fold_left add l acc) = true.
Proof.
  revert acc. induction l as [|u l IH]; intros acc Ha Hl; [exact Ha|].
  inversion Hl; subst. cbn [fold_left]. apply IH; [|assumption].
  now apply add_notBelowZero.
Qed.

Lemma ofZ_count_signbit (n : nat) : signbit (ofZ (Z.of_nat n)) = false.
Proof.
  apply signed_signbit. unfold ofZ. apply binary_normalize_signed. lia.
Qed.

End NotBelowZero.

(** X17. Nothing in the result table is below zero when the inputs are not.
    If every tenant's readings are finite with previous <= current, the
    unaccounted units are not negative and neither bill parameter has its
    sign bit set, then no figure of the result table is negative: not the
    used units, nor the bonus, the final units, the bill or the percentage
    of any tenant.  No bound on the size of the numbers is needed. *)
Theorem nothing_below_zero (st : State) :
  (forall r, In r (readings st) ->
     is_finite (previous r) = true /\ is_finite (current r) = true /\
     (F2R (previous r) <= F2R (current r))%R) ->
  ltb (unaccounted st) zero = false ->
  signbit (totalUnits st) = false ->
  signbit (totalAmount st) = false ->
  forall r, In r (results st) ->
    ltb (r_used r) zero = false /\
    ltb (r_bonus r) zero = false /\
    ltb (r_finalUnits r) zero = false /\
    ltb (r_bill r) zero = false /\
    ltb (r_percentage r) zero = false.
Proof.
  intros HR HU HT HA r Hr.
  assert (nb : forall x, notBelowZero x = true -> ltb x zero = false).
  { intros x. unfold notBelowZero. now rewrite negb_true_iff. }
  apply in_results in Hr. destruct Hr as (u & Hu & ->).
  cbn [r_used r_bonus r_finalUnits r_bill r_percentage].
  destruct (used_of_usage st u Hu) as (Hin & Eu & _).
  destruct (HR _ Hin) as (Hp & Hc & Hle).
  assert (Hused : notBelowZero (used u) = true).
  { rewrite Eu. apply round2_notBelowZero. now apply sub_notBelowZero. }
  assert (Hbonus : notBelowZero (bonusPerTenant st) = true).
  { unfold bonusPerTenant. apply round2_notBelowZero.
    apply div_notBelowZero; [|apply ofZ_count_signbit].
    unfold notBelowZero. now rewrite HU. }
  assert (Hfinal : notBelowZero (finalUnits st u) = true)
    by now apply add_notBelowZero.
  assert (Hshare : notBelowZero (share st u) = true)
    by now apply div_notBelowZero.
  repeat split; apply nb; try assumption.
  - now apply round2_notBelowZero.
  - apply round2_notBelowZero. now apply mul_notBelowZero.
  - apply round2_notBelowZero. apply mul_notBelowZero; [assumption | reflexivity].
Qed.

Lemma nothing_below_zero_witness :
  let r := nth 1 (results initialState) noResult in
  ltb (r_bill r) zero = false /\ ltb (r_finalUnits r) zero = false.
Proof.
  cbv zeta.
  destruct (nothing_below_zero initialState)
    with (r := nth 1 (results initialState) noResult) as (_ & _ & Hf & Hb & _).
  - assert (E1 : literal 9787 2 = S754_finite false 6886988992667976 (-46))
      by (vm_compute; reflexivity).
    assert (E2 : literal 12695 2 = S754_finite false 8933312073354445 (-46))
      by (vm_compute; reflexivity).
    assert (E3 : literal 1553 1 = S754_finite false 5464132985395610 (-45))
      by (vm_compute; reflexivity).
    assert (E4 : literal 1754 1 = S754_finite false 6171338864381133 (-45))
      by (vm_compute; reflexivity).
    intros x [<-|[<-|[]]]; cbn [previous current];
      rewrite ?E1, ?E2, ?E3, ?E4; (split; [reflexivity|]); (split; [reflexivity|]);
      F2R_eval; lra.
  - vm_compute. reflexivity.
  - vm_compute. reflexivity.
  - vm_compute. reflexivity.
  - vm_compute. right. left. reflexivity.
  - split; [exact Hb | exact Hf].
Defined.

(** * The engine and the store together *)

Section Figures.

Lemma usage_of_meter (rs : list TenantReading) :
  map Spec.usage rs
  = map (fun m : number * number => round2 (sub (snd m) (fst m))) (map meter rs).
Proof. rewrite map_map. reflexivity. Qed.

Lemma figures_results (st : State) :
  map figures (results st)
  = map (fun u =>
           (u, bonusPerTenant st, round2 (add u (bonusPerTenant st)),
            round2 (mul (div (add u (bonusPerTenant st)) (totalUnits st)) (totalAmount st)),
            round2 (mul (div (add u (bonusPerTenant st)) (totalUnits st)) (ofZ 100))))
      (map Spec.usage (readings st)).
Proof. unfold results, usage. rewrite !map_map. reflexivity. Qed.

End Figures.

(** X18. The figures of the result table depend on nothing but the meter
    readings in their order and the two bill parameters: two states that
    agree on these give the same used units, bonus, final units, bill and
    percentage row by row, whatever the identities, the names and the
    toasts are.  The names are passed through to the rows in the order of
    the store. *)
Theorem figures_depend_on_meters (st st' : State) :
  map meter (readings st) = map meter (readings st') ->
  totalUnits st = totalUnits st' ->
  totalAmount st = totalAmount st' ->
  map figures (results st) = map figures (results st') /\
  map r_name (results st) = map name (readings st).
Proof.
  intros HM HT HA. split.
  - assert (HU : map Spec.usage (readings st) = map Spec.usage (readings st'))
      by (rewrite !usage_of_meter; now rewrite HM).
    assert (HN : tenants st = tenants st').
    { unfold tenants. rewrite <- (length_map meter (readings st)), HM.
      apply length_map. }
    assert (HB : bonusPerTenant st = bonusPerTenant st').
    { rewrite !bonus_count. unfold unaccounted.
      now rewrite !totalUsed_fold, HU, HT, HN. }
    now rewrite !figures_results, HU, HB, HT, HA.
  - unfold results, usage. rewrite !map_map. reflexivity.
Qed.

Lemma figures_depend_on_meters_witness :
  map figures (results (updateReading (js "1") (SetName (js "Ada")) initialState))
  = map figures (results initialState).
Proof.
  apply (figures_depend_on_meters
           (updateReading (js "1") (SetName (js "Ada")) initialState) initialState);
    reflexivity.
Defined.

Section AddIdle.

Lemma sub_add_zero (T acc : number) :
  round2 (sub T (add acc zero)) = round2 (sub T acc).
Proof.
  destruct acc as [[|]|[|]| |[|] ma ea]; try reflexivity;
    destruct T as [[|]|[|]| |[|] mt et]; reflexivity.
Qed.

Lemma usage_addTenant (now : Z) (st : State) :
  map used (usage (addTenant now st)) = map used (usage st) ++ [zero].
Proof.
  unfold usage, addTenant, setReadings. cbn [readings].
  rewrite !map_map, map_app. reflexivity.
Qed.

Lemma totalUsed_used (st : State) :
  totalUsed st = fold_left add (map used (usage st)) zero.
Proof. rewrite usage_used. apply totalUsed_fold. Qed.

End AddIdle.

(** X19. Adding a tenant does not change the unaccounted units: the new
    tenant's readings are 0, so it uses [+0] units, and the unaccounted
    units are then split among one tenant more.  This holds for every
    state, whatever numbers it holds. *)
Theorem addTenant_keeps_unaccounted (now : Z) (st : State) :
  unaccounted (addTenant now st) = unaccounted st /\
  bonusPerTenant (addTenant now st)
  = round2 (div (unaccounted st) (ofZ (Z.of_nat (tenants st + 1)))) /\
  map r_used (results (addTenant now st)) = map r_used (results st) ++ [zero].
Proof.
  assert (HU : unaccounted (addTenant now st) = unaccounted st).
  { unfold unaccounted. rewrite !totalUsed_used, usage_addTenant, fold_left_app.
    cbn [fold_left]. apply sub_add_zero. }
  split; [exact HU|]. split.
  - rewrite bonus_count, HU. unfold tenants, addTenant, setReadings. cbn [readings].
    rewrite length_app. reflexivity.
  - assert (E : forall s, map r_used (results s) = map used (usage s))
      by (intros s; unfold results; rewrite map_map; reflexivity).
    rewrite !E. apply usage_addTenant.
Qed.

Section TotalRow.

Local Open Scope R_scope.

Lemma Rsum_hundredths {A : Type} (g : A -> Z) (l : list A) :
  Rsum (map (fun x => IZR (g x) / 100) l) = IZR (fold_right Z.add 0%Z (map g l)) / 100.
Proof.
  induction l as [|x l IH]; cbn [map Rsum fold_right].
  - unfold Rdiv. now rewrite Rmult_0_l.
  - fold (Rsum (map (fun x => IZR (g x) / 100) l)). rewrite IH, plus_IZR. field.
Qed.

Lemma used_of_results (st : State) :
  map (fun r => shown (r_used r)) (results st) = map shown (map Spec.usage (readings st)).
Proof. unfold results, usage. rewrite !map_map. reflexivity. Qed.

End TotalRow.

(** X20. The total row of the result table adds up to the cent.  For a
    store of 1 to 39 tenants under the conditions of X12, when the total
    units are a number of 2 decimals (rounding them changes nothing): the
    total used units print with the sum of the hundredths the used units of
    the rows print with, and these plus the hundredths of the unaccounted
    units are the hundredths of the total units. *)
Theorem total_row_adds_up (st : State) (K : Z) :
  (1 <= tenants st <= 39)%nat ->
  (0 <= K)%Z ->
  (Z.of_nat (tenants st) * 2 ^ K <= 2 ^ 32)%Z ->
  small K (totalUnits st) = true ->
  (forall r, In r (readings st) ->
     small K (previous r) = true /\ small K (current r) = true) ->
  round2 (totalUnits st) = totalUnits st ->
  shown (totalUsed st) = sumShownUsed st /\
  shown (totalUnits st) = shown (totalUsed st) + shown (unaccounted st).
Proof.
  intros [HN H39] HK Hsize HT HR Hcents.
  pose proof (B_ge_1 K HK) as HB1. pose proof (N_ge_1 st HN) as HN1.
  pose proof (NB_le st K HK Hsize) as HNB.
  assert (HN39 : (INR (tenants st) <= 39)%R).
  { apply le_INR in H39. rewrite (INR_IZR_INZ 39) in H39. exact H39. }
  destruct (total_ok st K HN HK Hsize HR) as (HU1 & HU2 & HU3).
  destruct (unaccounted_ok st K HN HK Hsize HT HR) as (Hd1 & Hd2 & Hd3 & _).
  destruct (small_real _ _ HT) as [HT1 HT2].
  set (us := map Spec.usage (readings st)) in *.
  assert (Hlen : INR (length us) = INR (tenants st))
    by (unfold us, tenants; now rewrite length_map).
  assert (Hus : (Rabs (Rsum (map F2R us) - Rsum (map (fun u => IZR (shown u) / 100) us))
                 <= INR (tenants st) * / 32768)%R).
  { rewrite <- Hlen. apply Rsum_pointwise. intros u Hu.
    now apply (used_shown st K HN HK Hsize HR). }
  rewrite Rsum_hundredths in Hus.
  assert (HS : sumShownUsed st = fold_right Z.add 0%Z (map shown us)).
  { unfold sumShownUsed. now rewrite used_of_results. }
  rewrite <- HS in Hus.
  assert (HU4 : (Rabs (F2R (totalUsed st)) <= bpow 36)%R).
  { rewrite bpow_36. set (N := INR (tenants st)) in *. set (B := bpow K) in *.
    apply Rabs_bounds in HU3. apply Rabs_le. nra. }
  apply Rabs_bounds in HU2, Hus.
  assert (E1 : shown (totalUsed st) = sumShownUsed st).
  { apply shown_snap; [exact HU1 | exact HU4 |]. apply Rabs_le. lra. }
  split; [exact E1|].
  assert (HT3 : (Rabs (F2R (totalUnits st)) <= bpow 36)%R).
  { rewrite bpow_36. set (N := INR (tenants st)) in *. set (B := bpow K) in *. nra. }
  destruct (shown_round2 _ HT1 HT3) as (_ & _ & HT4).
  rewrite Hcents, bpow_m15 in HT4.
  assert (Hd4 : (Rabs (F2R (sub (totalUnits st) (totalUsed st))) <= bpow 36)%R).
  { rewrite bpow_36. lra. }
  destruct (shown_round2 _ Hd1 Hd4) as (E2 & _ & _).
  unfold unaccounted. rewrite E2.
  assert (E3 : shown (sub (totalUnits st) (totalUsed st))
               = (shown (totalUnits st) - sumShownUsed st)%Z).
  { apply shown_snap; [exact Hd1 | exact Hd4 |].
    rewrite minus_IZR. apply Rabs_bounds in Hd2, HT4. apply Rabs_le. lra. }
  rewrite E3, E1. lia.
Qed.

Lemma total_row_adds_up_witness :
  shown (totalUsed initialState) = 4918%Z /\
  shown (totalUnits initialState)
  = (shown (totalUsed initialState) + shown (unaccounted initialState))%Z.
Proof.
  destruct (total_row_adds_up initialState 14) as [H1 H2].
  - vm_compute. lia.
  - lia.
  - vm_compute. discriminate.
  - vm_compute. reflexivity.
  - intros r [<-|[<-|[]]]; vm_compute; split; reflexivity.
  - vm_compute. reflexivity.
  - split; [rewrite H1; vm_compute; reflexivity | exact H2].
Defined.



Section UnitPrice.

Local Open Scope R_scope.

(** What [toFixed(2)] shows of a finite number below 1e21 is within half a
    hundredth of the number. *)
Lemma shown_near (x : number) :
  canonical x = true -> Rabs (F2R x) < 10 ^ 21 ->
  Rabs (IZR (shown x) / 100 - F2R x) <= / 200.
Proof.
  intros Hc Hm. destruct x as [s|s| |s m e]; try discriminate.
  - change (shown (S754_zero s)) with 0%Z. simpl F2R.
    unfold Rdiv. rewrite Rmult_0_l, Rminus_diag, Rabs_R0. lra.
  - rewrite Rabs_F2R_finite in Hm.
    rewrite shown_finite by now apply ge_1e21_false.
    rewrite cond_Zopp_real, F2R_finite, Rabs_Rsgn. apply hundredths_near.
Qed.

End UnitPrice.

(** X22. The unit price the page, the PDF and the sheet show.  With a total
    amount below 2^30 in absolute value and total units from 0.01 to 2^30,
    total amount / total units is a finite number within one unit in the
    last place of the exact quotient, and the hundredths it prints with are
    within 0.0051 of the exact quotient. *)
Theorem unit_price_shown (st : State) :
  small 30 (totalAmount st) = true ->
  small 30 (totalUnits st) = true ->
  (0.01 <= F2R (totalUnits st))%R ->
  canonical (unitPrice st) = true /\
  (Rabs (F2R (unitPrice st) - F2R (totalAmount st) / F2R (totalUnits st))
   <= Rabs (F2R (totalAmount st) / F2R (totalUnits st)) / 4503599627370496
      + / 1267650600228229401496703205376)%R /\
  (Rabs (IZR (shown (unitPrice st)) / 100 - F2R (totalAmount st) / F2R (totalUnits st))
   <= 0.0051)%R.
Proof.
  intros HA HT HT1. unfold unitPrice.
  apply small_real in HA, HT. destruct HA as [HA1 HA2]. destruct HT as [HT2 _].
  assert (B30 : bpow 30 = 1073741824%R) by (unfold bpow; simpl; lra).
  rewrite B30 in HA2.
  set (A := F2R (totalAmount st)) in *. set (T := F2R (totalUnits st)) in *.
  assert (HP : (Rabs (A / T) <= 107374182400)%R).
  { unfold Rdiv. rewrite Rabs_mult.
    rewrite (Rabs_pos_eq (/ T)) by (left; apply Rinv_0_lt_compat; lra).
    assert (0 < / T <= 100)%R.
    { split; [apply Rinv_0_lt_compat; lra|].
      replace 100%R with (/ / 100)%R by field. apply Rinv_le_contravar; lra. }
    pose proof (Rabs_pos A). nra. }
  pose proof (Rabs_pos (A / T)) as PP.
  pose proof bpow_tiny as Ht. pose proof (bpow_gt_0 (-1074)) as Pt.
  destruct (div_real (totalAmount st) (totalUnits st)) as (Hc & _ & He).
  { now apply canonical_finite. }
  { now apply canonical_finite. }
  { fold T. lra. }
  { fold A T. pose proof (bpow_le 44 1023 ltac:(lia)). rewrite bpow_44 in *. lra. }
  fold A T in He. rewrite bpow_m52 in He.
  split; [exact Hc|]. split; [unfold Rdiv in *; lra|].
  set (p := div (totalAmount st) (totalUnits st)) in *.
  assert (Hp : (Rabs (F2R p) < 10 ^ 21)%R).
  { assert (10 ^ 21 = 1000000000000000000000)%R by lra.
    pose proof (Rabs_bounds _ _ HP). pose proof (Rabs_bounds _ _ He).
    apply Rabs_def1; lra. }
  pose proof (shown_near p Hc Hp) as Hs.
  apply Rabs_bounds in Hs, He. apply Rabs_le. lra.
Qed.

Lemma unit_price_shown_witness :
  shown (unitPrice initialState) = 22727 /\
  (Rabs (IZR (shown (unitPrice initialState)) / 100
         - F2R (totalAmount initialState) / F2R (totalUnits initialState))
   <= 0.0051)%R.
Proof.
  split; [vm_compute; reflexivity|].
  apply (unit_price_shown initialState).
  - vm_compute. reflexivity.
  - vm_compute. reflexivity.
  - assert (E : totalUnits initialState = S754_finite false 7430939385161318 (-47))
      by (vm_compute; reflexivity).
    rewrite E. F2R_eval. lra.
Defined.

(** * Edge cases of the inputs *)

Section Edges.

Local Open Scope R_scope.

Lemma round2_mul_zero (x : number) :
  is_finite x = true -> round2 (mul x zero) = zero.
Proof. destruct x as [[|]|[|]| |[|] m e]; try discriminate; reflexivity. Qed.

Lemma positive_finite (x : number) :
  canonical x = true -> 0 < F2R x -> exists m e, x = S754_finite false m e.
Proof.
  intros Hc Hp. destruct (canonical_cases x Hc) as [[s ->]|(s & m & e & ->)].
  - simpl in Hp. lra.
  - pose proof (F2R_sign s m e) as Hs. destruct s; [lra | eauto].
Qed.

Lemma negative_finite (x : number) :
  canonical x = true -> F2R x < 0 ->
  exists m e, x = S754_finite true m e /\ IZR (Zpos m) * bpow e = - F2R x.
Proof.
  intros Hc Hp. destruct (canonical_cases x Hc) as [[s ->]|(s & m & e & ->)].
  - simpl in Hp. lra.
  - pose proof (F2R_sign s m e) as Hs. destruct s; [|lra].
    exists m, e. split; [reflexivity|]. rewrite F2R_finite. unfold Rsgn. ring.
Qed.

End Edges.

(** X23. A total amount of 0 is harmless.  When the parsed value of the
    total amount field is NaN or a zero the handler stores [+0], and then,
    with at least 0.01 units purchased, the unit price is [+0] and every
    bill of the result table is [+0].  (Conditions of X12.) *)
Theorem total_amount_cleared (st : State) (K : Z) (parsed : number) :
  (1 <= tenants st)%nat ->
  (0 <= K)%Z ->
  (Z.of_nat (tenants st) * 2 ^ K <= 2 ^ 32)%Z ->
  small K (totalUnits st) = true ->
  (forall r, In r (readings st) ->
     small K (previous r) = true /\ small K (current r) = true) ->
  (0.01 <= F2R (totalUnits st))%R ->
  parsed = S754_nan \/ is_zero parsed = true ->
  totalAmount (onTotalAmountChange parsed st) = zero /\
  unitPrice (onTotalAmountChange parsed st) = zero /\
  forall r, In r (results (onTotalAmountChange parsed st)) -> r_bill r = zero.
Proof.
  intros HN HK Hsize HT HR HT1 Hp.
  assert (E : orZero parsed = zero).
  { destruct Hp as [->|Hp]; [reflexivity|]. destruct parsed; try discriminate; reflexivity. }
  unfold onTotalAmountChange. rewrite E.
  destruct (small_real _ _ HT) as [HcT HmT].
  split; [reflexivity|]. split.
  - unfold unitPrice. cbn [setTotalAmount totalAmount totalUnits].
    destruct (positive_finite _ HcT ltac:(lra)) as (m & e & ->). reflexivity.
  - intros r Hr. apply in_results in Hr. destruct Hr as (u & Hu & ->).
    cbn [r_bill]. unfold bill, share, finalUnits.
    cbn [setTotalAmount totalAmount totalUnits].
    apply round2_mul_zero. apply canonical_finite.
    destruct (used_of_usage _ u Hu) as (_ & _ & Hin).
    cbn [setTotalAmount readings] in Hin.
    destruct (final_ok (setTotalAmount zero st) K HN HK Hsize HT HR (used u) Hin)
      as (Hf1 & _ & Hf3).
    pose proof (NB_le st K HK Hsize) as HNB.
    change (tenants (setTotalAmount zero st)) with (tenants st) in Hf3.
    set (f := add (used u) (bonusPerTenant (setTotalAmount zero st))) in *.
    destruct (div_real f (totalUnits st)) as (Hc & _ & _).
    + now apply canonical_finite.
    + now apply canonical_finite.
    + lra.
    + unfold Rdiv. rewrite Rabs_mult.
      rewrite (Rabs_pos_eq (/ F2R (totalUnits st)))
        by (left; apply Rinv_0_lt_compat; lra).
      assert (0 < / F2R (totalUnits st) <= 100)%R.
      { split; [apply Rinv_0_lt_compat; lra|].
        replace 100%R with (/ / 100)%R by field. apply Rinv_le_contravar; lra. }
      pose proof (Rabs_pos (F2R f)).
      pose proof (bpow_le 44 1023 ltac:(lia)). rewrite bpow_44 in *. nra.
    + exact Hc.
Qed.

Lemma total_amount_cleared_witness :
  unitPrice (onTotalAmountChange S754_nan initialState) = zero /\
  r_bill (nth 0 (results (onTotalAmountChange S754_nan initialState)) noResult) = zero.
Proof.
  destruct (total_amount_cleared initialState 14 S754_nan) as (_ & H2 & H3).
  - vm_compute. lia.
  - lia.
  - vm_compute. discriminate.
  - vm_compute. reflexivity.
  - intros r [<-|[<-|[]]]; vm_compute; split; reflexivity.
  - assert (E : totalUnits initialState = S754_finite false 7430939385161318 (-47))
      by (vm_compute; reflexivity).
    rewrite E. F2R_eval. lra.
  - now left.
  - split; [exact H2|]. apply H3. vm_compute. left. reflexivity.
Defined.

(** X24. Used units are not clamped at zero.  A tenant whose current
    reading is lower than the previous one by 0.0051 or more (readings
    below 2^34 in absolute value) has negative used units: they print as
    minus one hundredth or less. *)
Theorem lower_current_reading (st : State) (u : UsageRow) :
  In u (usage st) ->
  small 34 (previous (reading u)) = true ->
  small 34 (current (reading u)) = true ->
  (F2R (current (reading u)) - F2R (previous (reading u)) <= - 0.0051)%R ->
  ltb (used u) zero = true /\ shown (used u) <= -1.
Proof.
  intros Hu Hp Hc Hlow.
  destruct (used_of_usage st u Hu) as (_ & -> & _).
  destruct (difference34 _ _ Hp Hc) as (Hd1 & Hd2 & Hd3).
  set (d := sub (current (reading u)) (previous (reading u))) in *.
  apply Rabs_bounds in Hd3.
  destruct (negative_finite d Hd1 ltac:(lra)) as (m & e & Ed & Hv).
  rewrite Ed in *. rewrite Rabs_F2R_finite in Hd2.
  destruct (hundredths_36 m e Hd2) as [Hbig Hn].
  destruct (hundredths_spec m e) as [Hn0 [_ Hhi]].
  assert (Hn1 : 1 <= hundredths m e).
  { assert (IZR 0 < IZR (hundredths m e + 1))%R by (rewrite plus_IZR; lra).
    apply lt_IZR in H. assert (hundredths m e <> 0); [|lia].
    intros E0. rewrite E0 in Hhi. simpl in Hhi. lra. }
  split.
  - rewrite round2_finite by assumption.
    destruct (cents_fixed true (hundredths m e) ltac:(lia) Hn)
      as (_ & _ & ma & ea & -> & _). reflexivity.
  - destruct (shown_round2 _ Hd1) as (-> & _).
    { now rewrite Rabs_F2R_finite. }
    rewrite shown_finite by assumption. cbn [cond_Zopp]. lia.
Qed.

Lemma lower_current_reading_witness :
  let st := updateReading (js "1") (SetCurrent (literal 9687 2)) initialState in
  let u := nth 0 (usage st) (mkUsage (mkReading [] [] zero zero) zero) in
  ltb (used u) zero = true /\ shown (used u) <= -1.
Proof.
  cbv zeta. apply lower_current_reading
    with (st := updateReading (js "1") (SetCurrent (literal 9687 2)) initialState).
  - vm_compute. left. reflexivity.
  - vm_compute. reflexivity.
  - vm_compute. reflexivity.
  - assert (E1 : previous (reading (nth 0 (usage (updateReading (js "1")
                    (SetCurrent (literal 9687 2)) initialState))
                    (mkUsage (mkReading [] [] zero zero) zero)))
                 = S754_finite false 6886988992667976 (-46)) by (vm_compute; reflexivity).
    assert (E2 : current (reading (nth 0 (usage (updateReading (js "1")
                    (SetCurrent (literal 9687 2)) initialState))
                    (mkUsage (mkReading [] [] zero zero) zero)))
                 = S754_finite false 6816620248490312 (-46)) by (vm_compute; reflexivity).
    rewrite E1, E2. F2R_eval. lra.
Defined.
